(** * vscode-js-debug: the Node launcher core

    A shallow embedding of [src/targets/node/nodeLauncherBase.ts] and of the
    collaborators that its test-suites pin down (the binary resolver and the
    process-tree parsers), with the properties of the design document proved
    over it.

    Conventions of the embedding:
    - a TypeScript [string | undefined] is an [option string];
    - [Map<string, V>] and [ObservableMap<string, V>] are [gmap string V];
    - the insertion-ordered [Set<Connection>] is a duplicate-free list;
    - asynchronous code is run to completion in program order, what the
      outside world answers at each [await] being an explicit argument;
      where a claim depends on what other launcher calls do while a method
      is suspended at an [await], those calls are explicit arguments too;
    - side effects on collaborators are recorded in an event log. *)

From Stdlib Require Import ZArith Lia Ascii String List.
From stdpp Require Import base option gmap strings list.

Local Open Scope string_scope.
Local Open Scope list_scope.
Local Open Scope stdpp_scope.

(* ===================================================================== *)
(** * Part I: the embedding                                               *)
(* ===================================================================== *)

(** ** JavaScript truthiness *)

Module Js.

(** [!!s] for a [string | undefined]: [undefined] and [''] are falsy. *)
Definition truthy (o : option string) : bool :=
  match o with
  | Some s => negb (String.eqb s "")
  | None => false
  end.

(** [s.includes(' ')]. *)
Fixpoint includes_space (s : string) : bool :=
  match s with
  | EmptyString => false
  | String c rest => if Ascii.eqb c " "%char then true else includes_space rest
  end.

End Js.

(** ** The launcher ([nodeLauncherBase.ts]) *)

Module Launcher.

(** [Cdp.Target.TargetInfo], restricted to the fields the launcher reads. *)
Record TargetInfo := {
  targetId : string;
  openerId : option string;
}.

(** [ITarget]: a process target built by [_startSession] or a worker
    target built by [listenToWorkerDomain]; both carry the parent object
    they were constructed with. *)
#[local] Unset Elimination Schemes.
Inductive Target :=
| NodeTarget (info : TargetInfo) (parent : option Target)
| NodeWorkerTarget (info : TargetInfo) (parent : Target).
#[local] Set Elimination Schemes.

Definition id (t : Target) : string :=
  match t with
  | NodeTarget i _ => targetId i
  | NodeWorkerTarget i _ => targetId i
  end.

Definition parentOf (t : Target) : option Target :=
  match t with
  | NodeTarget _ p => p
  | NodeWorkerTarget _ p => Some p
  end.

Definition Connection := nat.
Definition Program := nat.

(** [AnyNodeConfiguration], restricted to what the base launcher reads. *)
Record Params := {
  timeout : Z;
  cwd : option string;
  label : string;
}.

Inductive CancellationToken :=
| InitialToken
| WithTimeout (ms : Z)
| NeverCancelled.

(** [IRunData<T>]: the server, its pipe, the parameters and the launch
    context (of which only the cancellation token is touched here). *)
Record RunData := {
  server : nat;
  serverAddress : string;
  params : Params;
  cancellationToken : CancellationToken;
}.

(** What [getBootloaderFile] hands back as [dispose]. *)
Inductive Disposer :=
| NoDispose
| Unlink (path : string).

Record BootloaderFile := {
  interpolatedPath : string;
  dispose : Disposer;
}.

(** The mutable fields of [NodeLauncherBase]. *)
Record State := {
  run : option RunData;
  serverConnections : list Connection;
  targets : gmap string Target;
  program : option Program;
  bootloaderFile : option BootloaderFile;
  seenOpeners : gmap string (option string);
}.

Definition initial : State := {|
  run := None;
  serverConnections := [];
  targets := ∅;
  program := None;
  bootloaderFile := None;
  seenOpeners := ∅;
|}.

Definition set_run (v : option RunData) (s : State) : State :=
  {| run := v; serverConnections := serverConnections s; targets := targets s;
     program := program s; bootloaderFile := bootloaderFile s;
     seenOpeners := seenOpeners s |}.

Definition set_serverConnections (v : list Connection) (s : State) : State :=
  {| run := run s; serverConnections := v; targets := targets s;
     program := program s; bootloaderFile := bootloaderFile s;
     seenOpeners := seenOpeners s |}.

Definition set_targets (v : gmap string Target) (s : State) : State :=
  {| run := run s; serverConnections := serverConnections s; targets := v;
     program := program s; bootloaderFile := bootloaderFile s;
     seenOpeners := seenOpeners s |}.

Definition set_program (v : option Program) (s : State) : State :=
  {| run := run s; serverConnections := serverConnections s; targets := targets s;
     program := v; bootloaderFile := bootloaderFile s;
     seenOpeners := seenOpeners s |}.

Definition set_bootloaderFile (v : option BootloaderFile) (s : State) : State :=
  {| run := run s; serverConnections := serverConnections s; targets := targets s;
     program := program s; bootloaderFile := v;
     seenOpeners := seenOpeners s |}.

Definition set_seenOpeners (v : gmap string (option string)) (s : State) : State :=
  {| run := run s; serverConnections := serverConnections s; targets := targets s;
     program := program s; bootloaderFile := bootloaderFile s;
     seenOpeners := v |}.

(** Effects on collaborators, in the order the launcher performs them. *)
Inductive Event :=
| EvProgramStop (p : Program) (handleAtCall : option Program)
| EvWarn (msg : string)
| EvConnectionClose (c : Connection)
| EvServerClose (s : nat)
| EvDisposeBootloader (d : Disposer)
| EvSocketDestroy
| EvTerminated
| EvLaunchProgram (rd : RunData)
| EvRegisterPortLease (info : TargetInfo).

(** *** Opener-chain resolution ([_startSession], lines 402-418) *)

(** The loop condition
    [livingOpenerId && !this.targets.get(livingOpenerId)
       && this.seenOpeners.has(livingOpenerId)]. *)
Definition keepWalking (tg : gmap string Target) (seen : gmap string (option string))
    (livingOpenerId : option string) : bool :=
  match livingOpenerId with
  | Some i =>
      Js.truthy (Some i) && negb (bool_decide (is_Some (tg !! i)))
        && bool_decide (is_Some (seen !! i))
  | None => false
  end.

(** [this.seenOpeners.get(livingOpenerId)?.openedBy]. *)
Definition openedBy (seen : gmap string (option string)) (i : string) : option string :=
  mjoin (seen !! i).

(** The [while] loop; [None] when [fuel] iterations did not leave it. *)
Fixpoint walkOpeners (fuel : nat) (tg : gmap string Target)
    (seen : gmap string (option string)) (livingOpenerId : option string)
    : option (option string) :=
  if keepWalking tg seen livingOpenerId then
    match fuel, livingOpenerId with
    | S fuel', Some i => walkOpeners fuel' tg seen (openedBy seen i)
    | _, _ => None
    end
  else Some livingOpenerId.

(** The last constructor argument of [new NodeTarget(...)]:
    [livingOpenerId ? this.targets.get(livingOpenerId) : undefined]. *)
Definition parentFor (tg : gmap string Target) (livingOpenerId : option string)
    : option Target :=
  match livingOpenerId with
  | Some i => if Js.truthy (Some i) then tg !! i else None
  | None => None
  end.

(** Lines 402-418: the parent a target announcing opener [o] is built with. *)
Definition resolveParent (fuel : nat) (tg : gmap string Target)
    (seen : gmap string (option string)) (o : option string)
    : option (option Target) :=
  parentFor tg <$> walkOpeners fuel tg seen o.

(** The walk in the words of the design document: an id that is live or
    absent from SeenOpeners ends it, any other id is replaced by its
    recorded opener. A missing opener ([undefined]) is in no map. *)
Definition isLive (tg : gmap string Target) (cur : option string) : Prop :=
  match cur with
  | Some i => is_Some (tg !! i)
  | None => False
  end.

Definition isAbsent (seen : gmap string (option string)) (cur : option string) : Prop :=
  match cur with
  | Some i => seen !! i = None
  | None => True
  end.

Inductive specWalk (tg : gmap string Target) (seen : gmap string (option string))
    : option string -> option string -> Prop :=
| specWalk_stop cur :
    isLive tg cur \/ isAbsent seen cur -> specWalk tg seen cur cur
| specWalk_next i nxt r :
    ~ isLive tg (Some i) -> seen !! i = Some nxt ->
    specWalk tg seen nxt r -> specWalk tg seen (Some i) r.

(** The parent the document assigns: the final id's live target, if any. *)
Definition specParent (tg : gmap string Target) (r : option string) : option Target :=
  r ≫= (fun i => tg !! i).

(** What the loop does: as [specWalk], with the empty id ending the walk
    like a missing one (both are falsy). *)
Inductive openerWalk (tg : gmap string Target) (seen : gmap string (option string))
    : option string -> option string -> Prop :=
| openerWalk_stop cur :
    Js.truthy cur = false \/ isLive tg cur \/ isAbsent seen cur ->
    openerWalk tg seen cur cur
| openerWalk_next i nxt r :
    i <> "" -> ~ isLive tg (Some i) -> seen !! i = Some nxt ->
    openerWalk tg seen nxt r -> openerWalk tg seen (Some i) r.

(** *** The launcher's methods as state transformers with an event log *)

Definition M (A : Type) : Type := State -> A * State * list Event.

#[global] Instance M_ret : MRet M := fun A a s => (a, s, []).

#[global] Instance M_bind : MBind M := fun A B k m s =>
  let '(a, s1, e1) := m s in
  let '(b, s2, e2) := k a s1 in
  (b, s2, e1 ++ e2).

Definition get : M State := fun s => (s, s, []).
Definition modify (f : State -> State) : M unit := fun s => (tt, f s, []).
Definition emit (e : Event) : M unit := fun s => (tt, s, [e]).

Fixpoint forEach {A} (f : A -> M unit) (l : list A) : M unit :=
  match l with
  | [] => mret tt
  | x :: rest => f x ;; forEach f rest
  end.

Definition stateOf {A} (r : A * State * list Event) : State := snd (fst r).
Definition logOf {A} (r : A * State * list Event) : list Event := snd r.
Definition valueOf {A} (r : A * State * list Event) : A := fst (fst r).

(** [Set.prototype.add] and [Set.prototype.delete] on the ordered set. *)
Definition setAdd (c : Connection) (l : list Connection) : list Connection :=
  if bool_decide (c ∈ l) then l else l ++ [c].

Definition setDelete (c : Connection) (l : list Connection) : list Connection :=
  filter (fun x => x <> c) l.

(** [closeAllConnections] (lines 377-380). *)
Definition closeAllConnections : M unit :=
  s ← get;
  forEach (fun c => emit (EvConnectionClose c)) (serverConnections s) ;;
  modify (set_serverConnections []).

(** [_stopServer] (lines 369-375). Line 372 does not dispose the
    bootloader file: it queues the disposal as a callback on the memoised
    promise, [this.bootloaderFile.value?.then(f => f.dispose())], which runs
    only once the synchronous code has finished, so after the connections
    have been closed and [_stopServer] has returned. The memo holds a
    resolved file here, so the callback is the next thing to run: its effect
    is logged last. *)
Definition _stopServer : M unit :=
  s ← get;
  match run s with
  | Some r => emit (EvServerClose (server r))
  | None => mret tt
  end ;;
  modify (set_run None) ;;
  let queued : M unit :=
    match bootloaderFile s with
    | Some f => emit (EvDisposeBootloader (dispose f))
    | None => mret tt
    end in
  modify (set_bootloaderFile None) ;;
  closeAllConnections ;;
  queued.

(** [onProgramTerminated] (lines 256-260). *)
Definition onProgramTerminated : M unit :=
  emit EvTerminated ;;
  _stopServer ;;
  modify (set_program None).

(** [program.stop()], recording what [this.program] holds when it is called. *)
Definition programStop (p : Program) : M unit :=
  s ← get;
  emit (EvProgramStop p (program s)).

(** [terminate] (lines 184-190). *)
Definition terminate : M unit :=
  s ← get;
  match program s with
  | Some p => programStop p
  | None => onProgramTerminated
  end.

(** [dispose] (lines 237-239). *)
Definition disposeLauncher : M unit := _stopServer.

(** The abstract [launchProgram]: a subclass reaches the protected fields
    only; it is recorded as a call, and stores the handle of the program
    it spawned, if it spawned one. *)
Definition launchProgram (spawned : option Program) (rd : RunData) : M unit :=
  emit (EvLaunchProgram rd) ;;
  modify (set_program spawned).

Section WithSubclass.

(** [AnyLaunchConfiguration] and the abstract [resolveParams]. *)
Context {AnyLaunchConfiguration : Type}.
Variable resolveParams : AnyLaunchConfiguration -> option Params.

(** [launch] (lines 152-179). [bound] is what the awaited [_startServer]
    (lines 357-367) gives: the server and its pipe, or [None] when the
    server emits ['error'] and the promise rejects. The boolean is
    [blockSessionTermination]; [None] is the rejection of [launch], which
    comes after the teardown of the previous run. *)
Definition launch (cfg : AnyLaunchConfiguration) (bound : option (nat * string))
    (spawned : option Program) : M (option bool) :=
  match resolveParams cfg with
  | None => mret (Some false)
  | Some resolved =>
      _stopServer ;;
      match bound with
      | None => mret None
      | Some (srv, pipe) =>
          let rd := {| server := srv; serverAddress := pipe; params := resolved;
                       cancellationToken := InitialToken |} in
          modify (set_run (Some rd)) ;;
          launchProgram spawned rd ;;
          mret (Some true)
      end
  end.

(** The [params] and [context] of the relaunch (lines 218-227). *)
Definition relaunchData (r : RunData) (newParams : option AnyLaunchConfiguration)
    : RunData :=
  {| server := server r;
     serverAddress := serverAddress r;
     params := match newParams with
               | Some cfg => default (params r) (resolveParams cfg)
               | None => params r
               end;
     cancellationToken :=
       if (0 <? timeout (params r))%Z then WithTimeout (timeout (params r))
       else NeverCancelled |}.

(** The race of lines 206-209. [gone] lists the connections that signalled
    disconnect before [delay(2000)] ran out; each of them has removed itself
    from the tracked set (line 474). [Promise.all] wins, and [closeOk] is
    truthy, exactly when every tracked connection is among them. *)
Definition allGone (gone tracked : list Connection) : bool :=
  forallb (fun c => bool_decide (c ∈ gone)) tracked.

Definition stragglers (gone tracked : list Connection) : list Connection :=
  filter (fun c => c ∉ gone) tracked.

Definition awaitClose (gone : list Connection) : M bool :=
  s ← get;
  let tracked := serverConnections s in
  modify (set_serverConnections (stragglers gone tracked)) ;;
  mret (allGone gone tracked).

(** [restart] (lines 195-228), when nothing else runs while it is
    suspended at its two awaits ([restartDuring] below is the method with
    what may run in between). [None] is the [TypeError] of reading
    [this.run.params] off a cleared run. *)
Definition restart (newParams : option AnyLaunchConfiguration)
    (gone : list Connection) (spawned : option Program) : M (option unit) :=
  s ← get;
  match run s with
  | None => mret (Some tt)
  | Some _ =>
      match program s with
      | Some p =>
          modify (set_program None) ;;
          programStop p ;;
          closeOk ← awaitClose gone;
          if closeOk : bool then mret tt
          else
            emit (EvWarn "Timeout waiting for server connections to close") ;;
            closeAllConnections
      | None => mret tt
      end ;;
      s' ← get;
      match run s' with
      | Some r => launchProgram spawned (relaunchData r newParams) ;; mret (Some tt)
      | None => mret None
      end
  end.

End WithSubclass.

(** The part of [_startSession] before the handshake is awaited (lines
    383-391 with [acquireTarget], lines 467-474). *)
Definition acceptSocket (c : Connection) : M unit :=
  s ← get;
  match run s with
  | None => mret tt
  | Some _ => modify (set_serverConnections (setAdd c (serverConnections s)))
  end.

(** What follows the arrival of [targetCreated]: the end of
    [acquireTarget] (lines 481-483), which registers a port lease for the
    announced target whether or not a run is active (the lease is disposed
    by the connection's own disconnect), then the rest of [_startSession]
    (lines 392-423). [None] when the opener walk does not leave its loop
    within [fuel] iterations. *)
Definition targetCreated (fuel : nat) (info : TargetInfo) : M (option unit) :=
  emit (EvRegisterPortLease info) ;;
  s ← get;
  match run s with
  | None => emit EvSocketDestroy ;; mret (Some tt)
  | Some _ =>
      match walkOpeners fuel (targets s) (seenOpeners s) (openerId info) with
      | None => mret None
      | Some living =>
          let target := NodeTarget info (parentFor (targets s) living) in
          modify (set_seenOpeners (<[targetId info := openerId info]> (seenOpeners s))) ;;
          modify (fun s1 => set_targets (<[targetId info := target]> (targets s1)) s1) ;;
          mret (Some tt)
      end
  end.

(** [target.onDisconnect(() => this.targets.remove(targetInfo.targetId))].
    The same event disposes the target's workers (line 452), each of which
    then leaves the live map by its own callback (line 454): those removals
    are the [OpWorkerEnded] steps of a schedule. *)
Definition targetDisconnected (i : string) : M unit :=
  modify (fun s => set_targets (delete i (targets s)) s).

(** [connection.onDisconnected(() => this.serverConnections.delete(connection))]. *)
Definition connectionDisconnected (c : Connection) : M unit :=
  modify (fun s => set_serverConnections (setDelete c (serverConnections s)) s).

(** The [attachedToWorker] handler of [listenToWorkerDomain] (lines 431-456). *)
Definition attachedToWorker (parent : Target) (sessionId : string) : M unit :=
  let info := {| targetId := id parent +:+ "-" +:+ sessionId;
                 openerId := Some (id parent) |} in
  let target := NodeWorkerTarget info parent in
  modify (fun s => set_targets (<[id target := target]> (targets s)) s).

(** Everything that can happen to a launcher, one synchronous step each. *)
Inductive Op {Cfg : Type} :=
| OpLaunch (cfg : Cfg) (srv : nat) (pipe : string) (spawned : option Program)
| OpLaunchBindError (cfg : Cfg)
| OpTerminate
| OpRestart (newParams : option Cfg) (gone : list Connection) (spawned : option Program)
| OpDispose
| OpProgramTerminated
| OpAcceptSocket (c : Connection)
| OpTargetCreated (info : TargetInfo)
| OpTargetDisconnected (i : string)
| OpConnectionDisconnected (c : Connection)
| OpAttachedToWorker (parent : Target) (sessionId : string)
| OpWorkerEnded (i : string).
Arguments Op : clear implicits.

Definition discard {A} (m : M A) : M (option unit) := m ;; mret (Some tt).

Definition perform {Cfg} (resolveParams : Cfg -> option Params) (fuel : nat)
    (op : Op Cfg) : M (option unit) :=
  match op with
  | OpLaunch cfg srv pipe spawned =>
      discard (launch resolveParams cfg (Some (srv, pipe)) spawned)
  | OpLaunchBindError cfg => discard (launch resolveParams cfg None None)
  | OpTerminate => discard terminate
  | OpRestart np gone spawned => restart resolveParams np gone spawned
  | OpDispose => discard disposeLauncher
  | OpProgramTerminated => discard onProgramTerminated
  | OpAcceptSocket c => discard (acceptSocket c)
  | OpTargetCreated info => targetCreated fuel info
  | OpTargetDisconnected i => discard (targetDisconnected i)
  | OpConnectionDisconnected c => discard (connectionDisconnected c)
  | OpAttachedToWorker parent sid => discard (attachedToWorker parent sid)
  | OpWorkerEnded i => discard (targetDisconnected i)
  end.

(** A schedule of steps; [None] as soon as one of them does not complete. *)
Fixpoint performAll {Cfg} (resolveParams : Cfg -> option Params) (fuel : nat)
    (ops : list (Op Cfg)) (s : State) : option State :=
  match ops with
  | [] => Some s
  | op :: rest =>
      let r := perform resolveParams fuel op s in
      match valueOf r with
      | Some _ => performAll resolveParams fuel rest (stateOf r)
      | None => None
      end
  end.

(** The steps that others take while a method is suspended at an
    [await], with their effects; [None] as soon as one of them does not
    complete. *)
Fixpoint performSteps {Cfg} (resolveParams : Cfg -> option Params) (fuel : nat)
    (ops : list (Op Cfg)) : M (option unit) :=
  match ops with
  | [] => mret (Some tt)
  | op :: rest =>
      r ← perform resolveParams fuel op;
      match r with
      | Some _ => performSteps resolveParams fuel rest
      | None => mret None
      end
  end.

(** How a call of [restart] ends: it returned at line 197, it reached the
    relaunch, it threw at line 220 because [this.run] was [undefined], or it
    is still suspended behind a step that does not complete. *)
Inductive RestartOutcome :=
| NothingToRestart
| Relaunched
| ThrewTypeError
| Suspended.

Section RestartSuspended.

Context {Cfg : Type}.
Variable resolveParams : Cfg -> option Params.
Variable fuel : nat.

(** What has happened when [await program.stop()] (line 204) resumes:
    the handle was cleared, and [duringStop] ran. *)
Definition afterStop (duringStop : list (Op Cfg)) (s : State)
    : option unit * State * list Event :=
  performSteps resolveParams fuel duringStop (set_program None s).

(** What has happened when the race of lines 206-209 is decided:
    [duringWait] ran after the connections to wait for were listed. *)
Definition afterWait (duringStop duringWait : list (Op Cfg)) (s : State)
    : option unit * State * list Event :=
  performSteps resolveParams fuel duringWait (stateOf (afterStop duringStop s)).

(** [restart] (lines 195-228) with what runs while it is suspended:
    [duringStop] while [program.stop()] is awaited, [duringWait] while the
    race is on. The connections of the race are those tracked when it starts
    (line 208); [gone] are the connections that signal disconnect before the
    timeout, each removing itself from the tracked set. After the awaits
    [this.run] is read again, unchecked (lines 218-223). *)
Definition restartDuring (newParams : option Cfg) (gone : list Connection)
    (spawned : option Program) (duringStop duringWait : list (Op Cfg))
    : M RestartOutcome :=
  s ← get;
  match run s with
  | None => mret NothingToRestart
  | Some _ =>
      resumed ←
        match program s with
        | Some p =>
            modify (set_program None) ;;
            programStop p ;;
            r1 ← performSteps resolveParams fuel duringStop;
            match r1 with
            | None => mret false
            | Some _ =>
                s1 ← get;
                let tracked := serverConnections s1 in
                r2 ← performSteps resolveParams fuel duringWait;
                match r2 with
                | None => mret false
                | Some _ =>
                    modify (fun s2 =>
                      set_serverConnections (stragglers gone (serverConnections s2)) s2) ;;
                    (if allGone gone tracked then mret tt
                     else
                       emit (EvWarn "Timeout waiting for server connections to close") ;;
                       closeAllConnections) ;;
                    mret true
                end
            end
        | None => mret true
        end;
      if resumed : bool then
        s' ← get;
        match run s' with
        | Some r =>
            launchProgram spawned (relaunchData resolveParams r newParams) ;;
            mret Relaunched
        | None => mret ThrewTypeError
        end
      else mret Suspended
  end.

End RestartSuspended.


(** The resolution rule exactly as the design document words it: whatever
    [specWalk] reaches is what the loop computes, and the new target is
    parented to that id's live target. *)
Definition specResolution : Prop :=
  forall tg seen o r,
    specWalk tg seen o r ->
    exists n, forall fuel, n <= fuel ->
      walkOpeners fuel tg seen o = Some r /\
      resolveParent fuel tg seen o = Some (specParent tg r).

(** A live target whose id is the empty string. *)
Definition emptyIdTarget : Target :=
  NodeTarget {| targetId := ""; openerId := None |} None.

(** The scenario of the document: [A] is live, [B] was opened by [A] and
    has disconnected, and a target opened by [B] connects. *)
Definition targetA : Target :=
  NodeTarget {| targetId := "A"; openerId := None |} None.

Definition sampleTargets : gmap string Target := {[ "A" := targetA ]}.

Definition sampleSeen : gmap string (option string) :=
  <[ "B" := Some "A" ]> {[ "A" := None ]}.

(** The state [_stopServer] leaves: no run, no bootloader file, no
    tracked connection; every other field as it was. *)
Definition stopped (s : State) : State :=
  set_serverConnections [] (set_bootloaderFile None (set_run None s)).

(** A schedule that takes a launcher through target disconnects, a
    restart, the program's exit (a full stop) and a fresh launch. *)
Definition sampleSchedule : list (Op unit) :=
  [ OpTargetDisconnected "A";
    OpRestart None [7] (Some 43);
    OpProgramTerminated;
    OpLaunch tt 2 "/tmp/node-cdp.1-2.sock" (Some 44);
    OpDispose ].

(** A run with two tracked connections, of which only the first closes
    in time. *)
Definition sampleRun : RunData :=
  {| server := 1; serverAddress := "/tmp/node-cdp.1-1.sock";
     params := {| timeout := 10000; cwd := Some "/work"; label := "launch" |};
     cancellationToken := InitialToken |}.

Definition sampleRunning : State :=
  {| run := Some sampleRun; serverConnections := [7; 8]; targets := sampleTargets;
     program := Some 42; bootloaderFile := None; seenOpeners := sampleSeen |}.

End Launcher.

(** ** Versions, binaries and capabilities ([nodeBinaryProvider]) *)

Module NodeBinary.

(** Modelled from the spec: the [Semver] class of [common/semver], which is
    not among the sources; the test-suite builds it from three numbers and
    compares versions as wholes. *)
Record Semver := {
  major : Z;
  minor : Z;
  patch : Z;
}.

Definition compare (a b : Semver) : comparison :=
  match (major a ?= major b)%Z with
  | Eq => match (minor a ?= minor b)%Z with
          | Eq => (patch a ?= patch b)%Z
          | c => c
          end
  | c => c
  end.

Definition lt (a b : Semver) : bool :=
  match compare a b with Lt => true | _ => false end.

Definition gte (a b : Semver) : bool := negb (lt a b).

Definition min (a b : Semver) : Semver := if lt b a then b else a.
Definition max (a b : Semver) : Semver := if lt a b then b else a.

(** [Capability], as [nodeBinaryProvider.test.ts] and [getBootloaderFile]
    name its members. *)
Inductive Capability :=
| UseSpacesInRequirePath
| UseInspectPublishUid.

(** [new NodeBinary(path, version)]; an undefined version is "imprecisely
    known". *)
Record Binary := {
  path : string;
  version : option Semver;
}.

Definition isPreciselyKnown (b : Binary) : bool :=
  match version b with Some _ => true | None => false end.

Section WithThresholds.

(** The {capability -> minimum version} table of the missing
    [nodeBinaryProvider.ts]. *)
Variable minimumVersion : Capability -> Semver.

(** Modelled from the spec: [NodeBinary.has], whose source is missing.
    Section 4.5: "imprecise version => returns [assumeIfUnknown]; precise
    version => compares against an ordered, monotonic {capability ->
    minimum version} table". *)
Definition has (b : Binary) (c : Capability) (assumeIfUnknown : bool) : bool :=
  match version b with
  | None => assumeIfUnknown
  | Some v => gte v (minimumVersion c)
  end.

End WithThresholds.

Definition v (a b c : Z) : Semver := {| major := a; minor := b; patch := c |}.

(** A threshold table that agrees with the capability matrix of the
    test-suite. *)
Definition sampleThresholds (c : Capability) : Semver :=
  match c with
  | UseSpacesInRequirePath => v 12 0 0
  | UseInspectPublishUid => v 12 8 0
  end.

(** *** Alternate embedding hosts *)

Section WithHostTable.

(** The {alternate-host major version -> equivalent minimum runtime version}
    table of the missing [nodeBinaryProvider.ts]. *)
Variable hostRuntimeVersion : Z -> Semver.

(** Modelled from the spec: the version of a binary that is an alternate
    host, in the words of section 4.5: the host's major version goes through
    the table, "and combined (via maximum) with the version of the underlying
    runtime binary that the alternate host actually bundles, if
    detectable". *)
Definition hostVersionByMaximum (host : Semver) (bundled : option Semver) : Semver :=
  match bundled with
  | Some n => max (hostRuntimeVersion (major host)) n
  | None => hostRuntimeVersion (major host)
  end.

(** Modelled from the spec: the same resolution with the combination the
    test-suite shows ([nodeBinaryProvider.test.ts], "uses minimum node
    version": host v9.0.0 over runtime v10.0.0 gives 10.0.0, host v6.1.2
    over runtime v14.5.0 gives 12.0.0). *)
Definition hostVersion (host : Semver) (bundled : option Semver) : Semver :=
  match bundled with
  | Some n => min (hostRuntimeVersion (major host)) n
  | None => hostRuntimeVersion (major host)
  end.

End WithHostTable.

(** The claim of the document about hosts, taken whole: some table maps
    the test-suite's hosts so that combining by maximum gives the versions
    the test-suite expects. *)
Definition hostClaimByMaximum : Prop :=
  exists table : Z -> Semver,
    hostVersionByMaximum table (v 6 1 2) (Some (v 14 5 0)) = v 12 0 0 /\
    hostVersionByMaximum table (v 9 0 0) (Some (v 10 0 0)) = v 10 0 0.

(** A host table that agrees with the test-suite. *)
Definition sampleHostTable (hostMajor : Z) : Semver :=
  if (hostMajor <=? 5)%Z then v 10 0 0 else v 12 0 0.

(** *** Resolution and validation *)

Inductive ErrorCode :=
| CannotFindNodeBinary
| NodeBinaryOutOfDate (detected minimum : Semver).

Inductive Result :=
| Resolved (b : Binary)
| Failed (e : ErrorCode).

Section WithEnvironment.

(** [resolveBinaryLocation]: where an executable name resolves to, if
    anywhere. *)
Variable locate : string -> option string.

(** The version a binary at a location reports; [None] for no usable
    output. *)
Variable detectVersion : string -> option Semver.

(** The configured minimum version. *)
Variable minimumSupported : Semver.

(** Which executable names are package-manager front-ends. *)
Variable isPackageManager : string -> bool.

(** Modelled from the spec: validation, section 4.5: "detected/assumed
    version below a configured minimum => fails with an 'out of date'
    condition carrying both versions"; no usable output leaves the version
    imprecisely known. *)
Definition validate (location : string) : Result :=
  match detectVersion location with
  | None => Resolved {| path := location; version := None |}
  | Some detected =>
      if lt detected minimumSupported
      then Failed (NodeBinaryOutOfDate detected minimumSupported)
      else Resolved {| path := location; version := Some detected |}
  end.

(** Resolving the runtime itself. *)
Definition resolveRuntime : Result :=
  match locate "node" with
  | None => Failed CannotFindNodeBinary
  | Some location => validate location
  end.

(** Modelled from the spec: [resolveAndValidate], whose source is missing.
    Section 4.5: an executable that resolves nowhere fails with "cannot find
    binary"; when "the requested executable is a package-manager front-end
    rather than the runtime itself", "capability detection still proceeds
    against whatever runtime binary, if any, can be located", "not found" is
    deferred, and section 8 has "out of date" raised through it all the
    same. Any other executable that resolves, by name or by absolute path,
    is validated where it resolved, as the test "resolves absolute paths"
    of [nodeBinaryProvider.test.ts] (lines 73-82) expects. The version of an
    embedding host is the matter of [hostVersion]. *)
Definition resolveAndValidate (executable : string) : Result :=
  match locate executable with
  | None => Failed CannotFindNodeBinary
  | Some location =>
      if isPackageManager executable then
        match resolveRuntime with
        | Resolved real => Resolved {| path := location; version := version real |}
        | Failed (NodeBinaryOutOfDate d m) => Failed (NodeBinaryOutOfDate d m)
        | Failed CannotFindNodeBinary => Resolved {| path := location; version := None |}
        end
      else validate location
  end.

End WithEnvironment.

(** The fixtures of the test-suite: [no-node] has the shim only,
    [outdated] has the shim and an old runtime. *)
Definition isNpm (executable : string) : bool := String.eqb executable "npm".

Definition noNode (executable : string) : option string :=
  if String.eqb executable "npm" then Some "/fixtures/no-node/npm" else None.

Definition outdated (executable : string) : option string :=
  if String.eqb executable "npm" then Some "/fixtures/outdated/npm"
  else if String.eqb executable "node" then Some "/fixtures/outdated/node"
  else None.

Definition outdatedVersion (location : string) : option Semver := Some (v 4 0 0).

End NodeBinary.

(** ** The bootloader file and the injected environment *)

Module Bootloader.

Import Launcher NodeBinary.

(** The file system as far as [writeFile] and [unlinkSync] touch it. *)
Abbreviation FileSystem := (gmap string string).

(** The double quote character. *)
Definition dquote : string := String "034"%char EmptyString.

Definition bootloaderName : string := "vscode-js-debug-bootloader.js".
Definition nearFilename : string := ".vscode-js-debug-bootloader.js".

Section WithPlatform.

(** What the launcher imports: [forceForwardSlashes] of [pathUtils],
    [bootloaderDefaultPath] of [bundlePaths], [os.tmpdir()], [path.join]
    and [JSON.stringify]. *)
Variable forceForwardSlashes : string -> string.
Variable bootloaderDefaultPath : string.
Variable tmpdir : string.
Variable pathJoin : string -> string -> string.
Variable jsonStringify : string -> string.

(** Whether [fs.promises.writeFile] resolves for a path. *)
Variable writable : string -> bool.

(** [fs.promises.writeFile]; [None] is a rejection. *)
Definition writeFile (path contents : string) (fs : FileSystem) : option FileSystem :=
  if writable path then Some (<[path := contents]> fs) else None.

Definition targetPath : string := forceForwardSlashes bootloaderDefaultPath.

(** The wrapper's text, [`require(${JSON.stringify(targetPath)})`]. *)
Definition contents : string := "require(" +:+ jsonStringify targetPath +:+ ")".

(** [getBootloaderFile] (lines 498-527). [has] is [binary.has]; [None] is
    the rejection of a failed write, which nothing catches. *)
Definition getBootloaderFile (cwd : option string) (has : Capability -> bool)
    (fs : FileSystem) : option (BootloaderFile * FileSystem) :=
  if negb (Js.includes_space targetPath) then
    Some ({| interpolatedPath := targetPath; dispose := NoDispose |}, fs)
  else if has UseSpacesInRequirePath then
    Some ({| interpolatedPath := dquote +:+ targetPath +:+ dquote; dispose := NoDispose |}, fs)
  else if negb (Js.includes_space tmpdir) || negb (Js.truthy cwd) then
    let tmpPath := pathJoin tmpdir bootloaderName in
    fs' ← writeFile tmpPath contents fs;
    Some ({| interpolatedPath := tmpPath; dispose := NoDispose |}, fs')
  else
    match cwd with
    | Some c =>
        let nearPath := pathJoin c nearFilename in
        fs' ← writeFile nearPath contents fs;
        Some ({| interpolatedPath := "./" +:+ nearFilename; dispose := Unlink nearPath |}, fs')
    | None => None
    end.

End WithPlatform.

(** Running a disposer: [fs.unlinkSync(nearPath)] or nothing. *)
Definition runDisposer (d : Disposer) (fs : FileSystem) : FileSystem :=
  match d with
  | NoDispose => fs
  | Unlink p => delete p fs
  end.

(** *** Environment variables *)

(** Modelled from the spec: [EnvironmentVars.merge] of
    [common/environmentVars], which is not among the sources. Section 4.4
    merges "in increasing precedence": later objects win; a [null] value, as
    [resolveEnvironment] passes for [ELECTRON_RUN_AS_NODE], leaves the
    variable unset. [lookup] is the map's lookup. *)
Definition merge (base : gmap string string) (over : gmap string (option string))
    : gmap string string :=
  omap (fun v => v) (over ∪ (Some <$> base)).

(** What [readEnvFile] and [getConfiguredEnvironment] (lines 278-291) yield;
    [envFile] is the parsed file when one is configured. *)
Definition getConfiguredEnvironment (envFile : option (gmap string string))
    (env : gmap string (option string)) : gmap string string :=
  let baseEnv : gmap string string := ∅ in
  let baseEnv := match envFile with
                 | Some parsed => merge baseEnv (Some <$> parsed)
                 | None => baseEnv
                 end in
  merge baseEnv env.

(** The three stages of [NODE_OPTIONS] (lines 325, 330-338). *)
Definition preloadFlag (bootloader : BootloaderFile) : string :=
  " --require " +:+ interpolatedPath bootloader +:+ " ".

Definition withBaseOpts (opts : string) (baseEnvOpts : option string) : string :=
  match baseEnvOpts with
  | Some b => if Js.truthy (Some b) then opts +:+ (" " +:+ b +:+ " ") else opts
  | None => opts
  end.

Definition withGlobalOpts (opts : string) (globalOpts : option string) : string :=
  match globalOpts with
  | Some g => if Js.truthy (Some g) then opts +:+ (" " +:+ g) else opts
  | None => opts
  end.

(** [resolveEnvironment] (lines 296-341). [inspectorOptions] stands for the
    text [variableDelimiter + JSON.stringify(bootloaderInfo)] of line 326. The
    source builds that text from the run's server address and parameters, the
    port lease tracker, the caller's additional options and the path that
    [findInPath] finds for [node] in the ambient [process.env] (line 312).
    None of these helpers is among the sources, so the text is taken as given
    and nothing is said here about what it depends on; [processEnv] is the
    ambient environment as line 335 reads it. *)
Definition resolveEnvironment (envFile : option (gmap string string))
    (env : gmap string (option string)) (processEnv : gmap string string)
    (bootloader : BootloaderFile) (inspectorOptions : string) : gmap string string :=
  let baseEnv := getConfiguredEnvironment envFile env in
  let NODE_OPTIONS := preloadFlag bootloader in
  let NODE_OPTIONS := withBaseOpts NODE_OPTIONS (baseEnv !! "NODE_OPTIONS") in
  let NODE_OPTIONS := withGlobalOpts NODE_OPTIONS (processEnv !! "NODE_OPTIONS") in
  merge baseEnv
    (<["NODE_OPTIONS" := Some NODE_OPTIONS]>
       (<["VSCODE_INSPECTOR_OPTIONS" := Some inspectorOptions]>
          {["ELECTRON_RUN_AS_NODE" := None]})).

(** A Windows-like installation under a path with a space, for an old
    runtime, with a temp directory that has a space too. *)
Definition sampleSlashes (s : string) : string := s.
Definition sampleJoin (a b : string) : string := a +:+ "/" +:+ b.
Definition sampleStringify (s : string) : string := dquote +:+ s +:+ dquote.
Definition sampleInstall : string := "/opt/my ext/bootloader.js".
Definition sampleTmp : string := "/tmp dir".
Definition oldBinary (c : Capability) : bool := false.

(** An env file that sets [NODE_OPTIONS], overridden by the launch
    configuration, under an ambient [NODE_OPTIONS]. *)
Definition sampleEnvFile : gmap string string := {[ "NODE_OPTIONS" := "--from-file" ]}.
Definition sampleEnv : gmap string (option string) :=
  {[ "NODE_OPTIONS" := Some "--max-old-space-size=4096" ]}.
Definition sampleProcessEnv : gmap string string :=
  {[ "NODE_OPTIONS" := "--require /other/bootloader.js" ]}.
Definition sampleBootloader : BootloaderFile :=
  {| interpolatedPath := "/opt/ext/bootloader.js"; dispose := NoDispose |}.

End Bootloader.

(** ** Telemetry gathering ([gatherTelemetryFromCdp], lines 532-573) *)

Module Telemetry.

(** The object the evaluated expression builds. *)
Record IProcessTelemetry := {
  processId : Z;
  nodeVersion : string;
  architecture : string;
}.

(** [telemetry.result.value], returned by value. *)
Inductive JsValue :=
| VUndefined
| VNull
| VBool (b : bool)
| VNumber (n : Z)
| VString (s : string)
| VObject (t : IProcessTelemetry).

(** [!!v]. *)
Definition truthy (v : JsValue) : bool :=
  match v with
  | VUndefined | VNull => false
  | VBool b => b
  | VNumber n => negb (n =? 0)%Z
  | VString s => negb (String.eqb s "")
  | VObject _ => true
  end.

(** [typeof v === 'object']. *)
Definition isObject (v : JsValue) : bool :=
  match v with
  | VNull | VObject _ => true
  | _ => false
  end.

(** What one pass of the loop meets: the answer of [cdp.Runtime.evaluate]
    ([None] for an undefined response) and what [this.program] holds when
    the answer has arrived. *)
Record Poll := {
  response : option JsValue;
  programHandle : option Launcher.Program;
}.

Inductive Event :=
| EvEvaluate
| EvLogError
| EvLogInfo
| EvDelay (ms : Z)
| EvReport (version arch : string)
| EvGotTelemetry (p : Launcher.Program) (t : IProcessTelemetry).

(** The attempt ceiling of the [for] loop. *)
Definition maxRetries : nat := 8.

(** [50 * 2 ** retries]. *)
Definition backoff (retries : nat) : Z := 50 * 2 ^ Z.of_nat retries.

(** The loop from [retries] on, with [remaining = 8 - retries] passes left;
    [polls i] is what pass [i] meets. The last [match] is the cast to
    [IProcessTelemetry]: a truthy value of type object is an object. *)
Fixpoint gatherFrom (remaining retries : nat) (polls : nat -> Poll)
    : option IProcessTelemetry * list Event :=
  match remaining with
  | O => (None, [])
  | S remaining' =>
      let poll := polls retries in
      match programHandle poll with
      | None => (None, [EvEvaluate])
      | Some p =>
          match response poll with
          | None => (None, [EvEvaluate; EvLogError])
          | Some v =>
              if negb (truthy v) then (None, [EvEvaluate; EvLogError])
              else if negb (isObject v) then
                let '(r, log) := gatherFrom remaining' (S retries) polls in
                (r, [EvEvaluate; EvLogInfo; EvDelay (backoff retries)] ++ log)
              else
                match v with
                | VObject result =>
                    (Some result,
                     [EvEvaluate;
                      EvReport (nodeVersion result) (architecture result);
                      EvGotTelemetry p result])
                | _ => (None, [EvEvaluate])
                end
          end
      end
  end.

Definition gatherTelemetryFromCdp (polls : nat -> Poll)
    : option IProcessTelemetry * list Event :=
  gatherFrom maxRetries 0 polls.

(** A pass that sends the loop round again: the handle is still there and
    the value is truthy but not an object. *)
Definition retried (poll : Poll) : bool :=
  match programHandle poll, response poll with
  | Some _, Some v => truthy v && negb (isObject v)
  | _, _ => false
  end.

(** How a pass that does not retry ends the loop. *)
Definition conclude (poll : Poll) : option IProcessTelemetry * list Event :=
  match programHandle poll with
  | None => (None, [EvEvaluate])
  | Some p =>
      match response poll with
      | Some (VObject result) =>
          (Some result,
           [EvEvaluate; EvReport (nodeVersion result) (architecture result);
            EvGotTelemetry p result])
      | _ => (None, [EvEvaluate; EvLogError])
      end
  end.

(** The events of the retried passes [from, from + 1, ..., from + n - 1]. *)
Fixpoint retryEvents (from n : nat) : list Event :=
  match n with
  | O => []
  | S n' => [EvEvaluate; EvLogInfo; EvDelay (backoff from)] ++ retryEvents (S from) n'
  end.

(** The number of leading retried passes among [from, ...], at most [n]. *)
Fixpoint leadingRetries (polls : nat -> Poll) (from n : nat) : nat :=
  match n with
  | O => O
  | S n' => if retried (polls from) then S (leadingRetries polls (S from) n') else O
  end.

Definition isEvaluate (e : Event) : bool :=
  match e with EvEvaluate => true | _ => false end.

Definition isReport (e : Event) : bool :=
  match e with EvReport _ _ => true | _ => false end.

Definition isGotTelemetry (e : Event) : bool :=
  match e with EvGotTelemetry _ _ => true | _ => false end.

Definition delays (log : list Event) : list Z :=
  omap (fun e => match e with EvDelay ms => Some ms | _ => None end) log.

Definition count (f : Event -> bool) (log : list Event) : nat :=
  length (filter (fun e => f e = true) log).

(** A target whose [process] is not defined for the first two polls. *)
Definition sampleTelemetry : IProcessTelemetry :=
  {| processId := 4711; nodeVersion := "v12.0.0"; architecture := "x64" |}.

Definition samplePolls (i : nat) : Poll :=
  match i with
  | 0 | 1 => {| response := Some (VString "process not defined"); programHandle := Some 42 |}
  | _ => {| response := Some (VObject sampleTelemetry); programHandle := Some 42 |}
  end.

(** A target that never defines [process]. *)
Definition neverDefined (i : nat) : Poll :=
  {| response := Some (VString "process not defined"); programHandle := Some 42 |}.

End Telemetry.

(** ** Process listings ([ui/processTree]) *)

Module ProcessTree.

(** [IProcess], as [process-tree.test.ts] spells its records. *)
Record IProcess := {
  pid : Z;
  ppid : Z;
  command : string;
  args : string;
}.

Definition isSpace (c : ascii) : bool :=
  Ascii.eqb c " "%char || Ascii.eqb c "009"%char.

Definition digit (c : ascii) : option Z :=
  let n := Z.of_nat (nat_of_ascii c) in
  if ((48 <=? n) && (n <=? 57))%Z then Some (n - 48)%Z else None.

(** A letter, a digit or an underscore; every other character separates
    the numeric columns. *)
Definition isWord (c : ascii) : bool :=
  let n := Z.of_nat (nat_of_ascii c) in
  ((48 <=? n) && (n <=? 57) || (65 <=? n) && (n <=? 90)
   || (97 <=? n) && (n <=? 122) || (n =? 95))%Z.

Fixpoint skipSeparators (s : string) : string :=
  match s with
  | String c rest => if isWord c then s else skipSeparators rest
  | EmptyString => s
  end.

(** The decimal number a string starts with, if it starts with a digit,
    and what follows it. *)
Fixpoint takeDigits (acc : option Z) (s : string) : option Z * string :=
  match s with
  | String c rest =>
      match digit c with
      | Some d => takeDigits (Some (10 * default 0%Z acc + d)%Z) rest
      | None => (acc, s)
      end
  | EmptyString => (acc, s)
  end.

(** The text up to the first whitespace, and what follows it (starting at
    that whitespace). *)
Fixpoint takeToken (s : string) : string * string :=
  match s with
  | String c rest =>
      if isSpace c then (EmptyString, s)
      else let '(tok, after) := takeToken rest in (String c tok, after)
  | EmptyString => (EmptyString, EmptyString)
  end.

(** [hay.indexOf(needle)]: the offset of the first occurrence. *)
Fixpoint indexOf (needle hay : string) : option nat :=
  if String.prefix needle hay then Some 0
  else match hay with
       | String _ rest => S <$> indexOf needle rest
       | EmptyString => None
       end.

(** [s.slice(n)] and [s.slice(0, n)]. *)
Fixpoint dropChars (n : nat) (s : string) : string :=
  match n, s with
  | S n', String _ rest => dropChars n' rest
  | _, _ => s
  end.

Fixpoint takeChars (n : nat) (s : string) : string :=
  match n, s with
  | S n', String c rest => String c (takeChars n' rest)
  | _, _ => EmptyString
  end.

(** A string without the blanks it ends with. *)
Fixpoint trimEnd (s : string) : string :=
  match s with
  | EmptyString => EmptyString
  | String c rest =>
      match trimEnd rest with
      | EmptyString => if isSpace c then EmptyString else String c EmptyString
      | t => String c t
      end
  end.

(** Modelled from the spec: the layout of a listing line, whose parsers
    ([posixProcessTree.ts], [darwinProcessTree.ts]) are not among the
    sources. Section 4.6 calls the listing fixed-width, and both sample
    listings of [process-tree.test.ts] are: under a header with the columns
    PID, PPID, BINARY and COMMAND, every line starts with the two numbers,
    and the full command line starts at the offset at which the header has
    COMMAND and runs to the end of the line. [ids] reads the two numbers
    and returns them with what follows the separators after the second. *)
Definition ids (line : string) : option (Z * Z * string) :=
  let '(p, r1) := takeDigits None (skipSeparators line) in
  let '(pp, r2) := takeDigits None (skipSeparators r1) in
  match p, pp with
  | Some p, Some pp => Some (p, pp, skipSeparators r2)
  | _, _ => None
  end.

Definition commandOffset (header : string) : option nat := indexOf "COMMAND" header.

(** Modelled from the spec: section 4.6, "the true (non-truncated) command
    name is re-derived as the first whitespace token of the full command
    line, with everything after it as arguments (empty string if none)". *)
Definition splitCommand (commandLine : string) : string * string :=
  let '(tok, after) := takeToken commandLine in
  (tok, match after with
        | String _ rest => rest
        | EmptyString => EmptyString
        end).

(** Modelled from the spec: the POSIX parser, which follows section 4.6:
    the numbers, and the full command line split at its first blank. *)
Definition parsePosix (header line : string) : option IProcess :=
  match commandOffset header, ids line with
  | Some k, Some (p, pp, _) =>
      let commandLine := dropChars k line in
      Some {| pid := p; ppid := pp;
              command := fst (splitCommand commandLine);
              args := snd (splitCommand commandLine) |}
  | _, _ => None
  end.

(** Modelled from the spec: the Darwin parser, "a macOS variant with
    different column semantics" (section 4.6). What the semantics are is
    read off the records [process-tree.test.ts] (lines 56-87) expects: the
    arguments are the full command line, unsplit, and the command is the
    BINARY column, that is, what lies between the separators after the
    second number and the COMMAND column, without the blanks that pad it.
    The slash every BINARY column of the sample starts with goes with the
    separators: no expected command has it. *)
Definition parseDarwin (header line : string) : option IProcess :=
  match commandOffset header, ids line with
  | Some k, Some (p, pp, rest) =>
      let consumed := String.length line - String.length rest in
      Some {| pid := p; ppid := pp;
              command := trimEnd (takeChars (k - consumed) rest);
              args := dropChars k line |}
  | _, _ => None
  end.

(** The lines of a text, split at line feeds. *)
Fixpoint linesFrom (cur : string -> string) (s : string) : list string :=
  match s with
  | String c rest =>
      if Ascii.eqb c "010"%char then cur EmptyString :: linesFrom (fun x => x) rest
      else linesFrom (fun x => cur (String c x)) rest
  | EmptyString => [cur EmptyString]
  end.

Definition lines (s : string) : list string := linesFrom (fun x => x) s.

Fixpoint unlines (l : list string) : string :=
  match l with
  | [] => EmptyString
  | [x] => x
  | x :: rest => x +:+ String "010"%char (unlines rest)
  end.

(** The records of a listing: the first line is the header, which gives
    the offset of the COMMAND column; lines that do not parse are skipped. *)
Definition parseListing (parseLine : string -> string -> option IProcess)
    (text : string) : list IProcess :=
  match lines text with
  | header :: rest => omap (parseLine header) rest
  | [] => []
  end.

(** Modelled from the spec: [lookup(reducer, seed)] "parses its output,
    and folds every record through the caller's reducer", [text] being
    what the listing tool printed and [parseLine] the platform's parser. *)
Definition lookup {A} (parseLine : string -> string -> option IProcess)
    (reducer : IProcess -> A -> A) (seed : A) (text : string) : A :=
  fold_left (fun acc entry => reducer entry acc) (parseListing parseLine text) seed.

(** The reducer of the test-suite, [(entry, acc) => [...acc, entry]]. *)
Definition collect (entry : IProcess) (acc : list IProcess) : list IProcess :=
  acc ++ [entry].

(** The POSIX sample of [process-tree.test.ts], line by line. *)
Definition posixLines : list string :=
  [
    "   PID   PPID BINARY          COMMAND";
    "   351      1 systemd         /lib/systemd/systemd --user";
    "   352    351 (sd-pam)        (sd-pam)";
    "   540      1 sh              sh /home/connor/.vscode-server-insiders/bin/bbf00d8ea6aa7e825ca3393364d746fe401d3299/server.sh --host=127.0.0.1 --enable-remote-auto-shutdown --port=0";
    "   548    540 node            /home/connor/.vscode-server-insiders/bin/bbf00d8ea6aa7e825ca3393364d746fe401d3299/node /home/connor/.vscode-server-insiders/bin/bbf00d8ea6aa7e825ca3393364d746fe401d3299/out/vs/server/main.js --host=127.0.0.1 --enable-remote-auto-shutdown --port=0";
    "  6557   6434 sshd            sshd: connor@notty";
    "  6558   6557 bash            bash";
    "  7281   7199 sshd            sshd: connor@pts/0";
    "  7282   7281 bash            -bash";
    "  9880  99219 bash            /bin/bash"
  ].

(** The Darwin sample of [process-tree.test.ts], line by line. *)
Definition darwinLines : list string :=
  [
    "  PID  PPID BINARY           COMMAND";
    "  380     1 /usr/sbin/cfpref /usr/sbin/cfprefsd agent";
    "  381     1 /usr/libexec/Use /usr/libexec/UserEventAgent (Aqua)";
    "  383     1 /usr/sbin/distno /usr/sbin/distnoted agent";
    "  384     1 /usr/libexec/USB /usr/libexec/USBAgent";
    "  387     1 /System/Library/ /System/Library/Frameworks/CoreTelephony.framework/Support/CommCenter -L";
    "  389     1 /usr/libexec/lsd /usr/libexec/lsd";
    "  390     1 /usr/libexec/tru /usr/libexec/trustd --agent";
    "  391     1 /usr/libexec/sec /usr/libexec/secd";
    "  392     2 /System/Library/ /System/Library/PrivateFrameworks/CloudKitDaemon.framework/Support/cloudd"
  ].

Definition posixSample : string := unlines posixLines.
Definition darwinSample : string := unlines darwinLines.

(** What the test-suite expects of the POSIX sample. *)
Definition posixExpected : list IProcess :=
  [
    {| pid := 351; ppid := 1;
       command := "/lib/systemd/systemd";
       args := "--user" |};
    {| pid := 352; ppid := 351;
       command := "(sd-pam)";
       args := "" |};
    {| pid := 540; ppid := 1;
       command := "sh";
       args := "/home/connor/.vscode-server-insiders/bin/bbf00d8ea6aa7e825ca3393364d746fe401d3299/server.sh --host=127.0.0.1 --enable-remote-auto-shutdown --port=0" |};
    {| pid := 548; ppid := 540;
       command := "/home/connor/.vscode-server-insiders/bin/bbf00d8ea6aa7e825ca3393364d746fe401d3299/node";
       args := "/home/connor/.vscode-server-insiders/bin/bbf00d8ea6aa7e825ca3393364d746fe401d3299/out/vs/server/main.js --host=127.0.0.1 --enable-remote-auto-shutdown --port=0" |};
    {| pid := 6557; ppid := 6434;
       command := "sshd:";
       args := "connor@notty" |};
    {| pid := 6558; ppid := 6557;
       command := "bash";
       args := "" |};
    {| pid := 7281; ppid := 7199;
       command := "sshd:";
       args := "connor@pts/0" |};
    {| pid := 7282; ppid := 7281;
       command := "-bash";
       args := "" |};
    {| pid := 9880; ppid := 99219;
       command := "/bin/bash";
       args := "" |}
  ].

(** What the test-suite expects of the Darwin sample. *)
Definition darwinExpected : list IProcess :=
  [
    {| pid := 380; ppid := 1;
       command := "usr/sbin/cfpref";
       args := "/usr/sbin/cfprefsd agent" |};
    {| pid := 381; ppid := 1;
       command := "usr/libexec/Use";
       args := "/usr/libexec/UserEventAgent (Aqua)" |};
    {| pid := 383; ppid := 1;
       command := "usr/sbin/distno";
       args := "/usr/sbin/distnoted agent" |};
    {| pid := 384; ppid := 1;
       command := "usr/libexec/USB";
       args := "/usr/libexec/USBAgent" |};
    {| pid := 387; ppid := 1;
       command := "System/Library/";
       args := "/System/Library/Frameworks/CoreTelephony.framework/Support/CommCenter -L" |};
    {| pid := 389; ppid := 1;
       command := "usr/libexec/lsd";
       args := "/usr/libexec/lsd" |};
    {| pid := 390; ppid := 1;
       command := "usr/libexec/tru";
       args := "/usr/libexec/trustd --agent" |};
    {| pid := 391; ppid := 1;
       command := "usr/libexec/sec";
       args := "/usr/libexec/secd" |};
    {| pid := 392; ppid := 2;
       command := "System/Library/";
       args := "/System/Library/PrivateFrameworks/CloudKitDaemon.framework/Support/cloudd" |}
  ].

(** The claim of the document about both platforms at once: the
    first-token rule gives what the test-suite expects of each sample. *)
Definition bothSamplesByFirstToken : Prop :=
  lookup parsePosix collect [] posixSample = posixExpected /\
  lookup parsePosix collect [] darwinSample = darwinExpected.

(** *** The text of a listing line *)

Fixpoint spaces (n : nat) : string :=
  match n with
  | O => EmptyString
  | S n' => String " "%char (spaces n')
  end.

(** A number in decimal notation, most significant digit first. *)
Definition digitChar (d : nat) : ascii := ascii_of_nat (48 + d).

Fixpoint digitString (ds : list nat) : string :=
  match ds with
  | [] => EmptyString
  | d :: rest => String (digitChar d) (digitString rest)
  end.

Definition allDigits (ds : list nat) : bool := forallb (fun d => Nat.ltb d 10) ds.

Definition decimal (ds : list nat) : Z :=
  fold_left (fun acc d => (10 * acc + Z.of_nat d)%Z) ds 0%Z.

(** The two numeric columns, each right-aligned in its width. *)
Definition numericColumns (a : nat) (dp : list nat) (b : nat) (dpp : list nat) : string :=
  spaces a +:+ digitString dp +:+ spaces (S b) +:+ digitString dpp.

Definition hasSpace (s : string) : bool :=
  existsb isSpace (list_ascii_of_string s).

Definition startsWithWord (s : string) : bool :=
  match s with
  | String c _ => isWord c
  | EmptyString => false
  end.

Fixpoint endsWithBlank (s : string) : bool :=
  match s with
  | EmptyString => false
  | String c EmptyString => isSpace c
  | String _ rest => endsWithBlank rest
  end.

Definition noWord (s : string) : bool :=
  forallb (fun c => negb (isWord c)) (list_ascii_of_string s).

End ProcessTree.

(** ** The opener chain, turn by turn *)

Module OpenerChain.

Import Launcher.

(** What one turn of the loop of lines 403-407 does to [livingOpenerId]. *)
Definition advance (seen : gmap string (option string)) (cur : option string)
    : option string :=
  match cur with
  | Some i => openedBy seen i
  | None => None
  end.

(** [livingOpenerId] after [n] turns. *)
Fixpoint visit (n : nat) (seen : gmap string (option string)) (o : option string)
    : option string :=
  match n with
  | O => o
  | S k => visit k seen (advance seen o)
  end.

(** The ids the loop variable holds during its first [n] turns. *)
Definition visited (n : nat) (seen : gmap string (option string)) (o : option string)
    : list string :=
  (fun j => default EmptyString (visit j seen o)) <$> seq 0 n.

End OpenerChain.

(** ** What holds of every state a launcher can be in *)

Module Reachable.

Import Launcher.

(** Connections are tracked only under an active run; the live map files
    every target under its own id; a live process target is recorded in
    SeenOpeners with the opener it declared. *)
Definition wellFormed (s : State) : Prop :=
  (run s = None -> serverConnections s = []) /\
  (forall i t, targets s !! i = Some t -> id t = i) /\
  (forall i info p,
     targets s !! i = Some (NodeTarget info p) ->
     seenOpeners s !! i = Some (openerId info)).

(** A launch, two sockets, a handshake with a worker, a teardown and a
    socket that arrives late. *)
Definition busySchedule : list (Op unit) :=
  [ OpLaunch tt 1 "/tmp/node-cdp.2-1.sock" (Some 42);
    OpAcceptSocket 7;
    OpTargetCreated {| targetId := "100"; openerId := None |};
    OpAttachedToWorker (NodeTarget {| targetId := "100"; openerId := None |} None) "w1";
    OpAcceptSocket 8;
    OpTargetCreated {| targetId := "101"; openerId := Some "100" |};
    OpTargetDisconnected "100";
    OpProgramTerminated;
    OpAcceptSocket 9 ].

(** The sample run after its program has gone: a server, two tracked
    connections and a bootloader file written beside the working directory
    are left to tear down. *)
Definition sampleExited : State :=
  {| run := Some sampleRun; serverConnections := [7; 8]; targets := sampleTargets;
     program := None;
     bootloaderFile :=
       Some {| interpolatedPath := "./.vscode-js-debug-bootloader.js";
               dispose := Unlink "/work/.vscode-js-debug-bootloader.js" |};
     seenOpeners := sampleSeen |}.

End Reachable.

(** ** Time spent waiting for telemetry *)

Module TelemetryTiming.

Import Telemetry.

(** The milliseconds of all the [delay] calls of a run of the loop. *)
Definition totalDelay (log : list Event) : Z := foldr Z.add 0%Z (delays log).

End TelemetryTiming.

(* ===================================================================== *)
(** * Part II: properties                                                 *)
(* ===================================================================== *)

(** ** Opener-chain resolution *)

Section OpenerWalk.

Import Launcher.

Variable tg : gmap string Target.
Variable seen : gmap string (option string).

Lemma truthy_Some_iff (i : string) : Js.truthy (Some i) = true <-> i <> "".
Proof.
  unfold Js.truthy. destruct (String.eqb_spec i ""); simpl; split; congruence.
Qed.

Lemma keepWalking_true cur :
  keepWalking tg seen cur = true <->
  exists i, cur = Some i /\ i <> "" /\ tg !! i = None /\ is_Some (seen !! i).
Proof.
  unfold keepWalking. destruct cur as [i|]; [| split; [discriminate | intros (? & ? & _); discriminate]].
  rewrite !andb_true_iff, negb_true_iff, bool_decide_eq_false, bool_decide_eq_true,
    truthy_Some_iff, <- eq_None_not_Some.
  split.
  - intros [[H1 H2] H3]. exists i. auto.
  - intros (j & [= <-] & H1 & H2 & H3). auto.
Qed.

Lemma keepWalking_false cur :
  keepWalking tg seen cur = false <->
  Js.truthy cur = false \/ isLive tg cur \/ isAbsent seen cur.
Proof.
  unfold keepWalking, isLive, isAbsent. destruct cur as [i|]; [| simpl; tauto].
  rewrite !andb_false_iff, negb_false_iff, bool_decide_eq_false, bool_decide_eq_true,
    <- eq_None_not_Some.
  tauto.
Qed.

(** More fuel never changes a result the loop has already produced. *)
Lemma walkOpeners_mono fuel fuel' o r :
  fuel <= fuel' -> walkOpeners fuel tg seen o = Some r ->
  walkOpeners fuel' tg seen o = Some r.
Proof.
  revert fuel' o. induction fuel as [|n IH]; intros fuel' o Hle; simpl.
  - destruct fuel'; simpl; destruct (keepWalking tg seen o); try discriminate; auto.
  - destruct fuel' as [|m]; [lia|]. simpl.
    destruct (keepWalking tg seen o); [| auto].
    destruct o as [i|]; [| discriminate].
    apply IH. lia.
Qed.

Lemma walkOpeners_complete o r :
  openerWalk tg seen o r ->
  exists n, forall fuel, n <= fuel -> walkOpeners fuel tg seen o = Some r.
Proof.
  induction 1 as [cur Hstop | i nxt r Hne Hdead Hseen _ [n IH]].
  - exists 0. intros fuel _.
    apply keepWalking_false in Hstop.
    destruct fuel; simpl; rewrite Hstop; reflexivity.
  - exists (S n). intros fuel Hle.
    destruct fuel as [|fuel]; [lia|]. cbn [walkOpeners].
    assert (Hk : keepWalking tg seen (Some i) = true).
    { apply keepWalking_true. exists i. simpl in Hdead.
      repeat split; [done | by apply eq_None_not_Some | by rewrite Hseen]. }
    rewrite Hk. unfold openedBy. rewrite Hseen. simpl. apply IH. lia.
Qed.

Lemma walkOpeners_sound fuel o r :
  walkOpeners fuel tg seen o = Some r -> openerWalk tg seen o r.
Proof.
  revert o. induction fuel as [|n IH]; intros o; simpl.
  - destruct (keepWalking tg seen o) eqn:Hk.
    + destruct o; discriminate.
    + intros [= <-]. constructor. by apply keepWalking_false.
  - destruct (keepWalking tg seen o) eqn:Hk.
    + apply keepWalking_true in Hk as (i & -> & Hne & Hdead & [nxt Hseen]).
      intros Hw. apply openerWalk_next with nxt; auto.
      * simpl. rewrite Hdead. by intros [? ?].
      * apply IH. unfold openedBy in Hw. rewrite Hseen in Hw. exact Hw.
    + intros [= <-]. constructor. by apply keepWalking_false.
Qed.

(** The loop's result is an id at which the loop condition fails. *)
Lemma openerWalk_final o r :
  openerWalk tg seen o r ->
  Js.truthy r = false \/ isLive tg r \/ isAbsent seen r.
Proof. induction 1; auto. Qed.

(** Off the empty id the code's parent is the document's. *)
Lemma parentFor_specParent r :
  r <> Some "" -> parentFor tg r = specParent tg r.
Proof.
  destruct r as [i|]; [| reflexivity]. intros Hne.
  assert (Ht : Js.truthy (Some i) = true) by (apply truthy_Some_iff; congruence).
  unfold parentFor. rewrite Ht. reflexivity.
Qed.

(** When no target with the empty id is live or recorded, the document's
    walk and the code's are the same relation. *)
Lemma specWalk_openerWalk o r :
  tg !! "" = None -> seen !! "" = None ->
  (specWalk tg seen o r <-> openerWalk tg seen o r).
Proof.
  intros Ht Hs. split.
  - induction 1 as [cur Hstop | i nxt r Hdead Hseen _ IH].
    + constructor. tauto.
    + apply openerWalk_next with nxt; auto. intros ->. congruence.
  - induction 1 as [cur Hstop | i nxt r Hne Hdead Hseen _ IH].
    + constructor. destruct Hstop as [Hf | [Hl | Ha]]; auto.
      right. destruct cur as [i|]; simpl; [| exact I].
      destruct (decide (i = "")) as [-> | Hne]; [exact Hs|].
      apply truthy_Some_iff in Hne. congruence.
    + apply specWalk_next with nxt; auto.
Qed.

End OpenerWalk.

(** C1 (amended). For every new target announcing opener id [o], the
    resolved living opener is computed by the walk: while the current id is
    non-empty, not a live target and present in SeenOpeners, it is replaced
    by its recorded opener; the walk stops at the first id that is empty,
    live or absent, and with enough iterations the loop returns exactly that
    id. The new target is parented to that id's live target, and to none
    when the walk ends at an absent, missing or empty id. When no target with
    the empty id is live or recorded this is the walk of the design
    document. In particular, if [b] was seen with opener [a], is no longer
    live, and [a] is live, a target declaring opener [b] is parented to
    [a]'s target. *)
Theorem opener_resolution (tg : gmap string Launcher.Target)
    (seen : gmap string (option string)) :
  (forall o r,
      Launcher.openerWalk tg seen o r <->
      exists n, forall fuel, n <= fuel ->
        Launcher.walkOpeners fuel tg seen o = Some r /\
        Launcher.resolveParent fuel tg seen o = Some (Launcher.parentFor tg r)) /\
  (forall r, r <> Some "" -> Launcher.parentFor tg r = Launcher.specParent tg r) /\
  Launcher.parentFor tg (Some "") = None /\
  (tg !! "" = None -> seen !! "" = None ->
     forall o r, Launcher.specWalk tg seen o r <-> Launcher.openerWalk tg seen o r) /\
  (forall a b ta,
      a <> "" -> b <> "" ->
      tg !! a = Some ta -> tg !! b = None -> seen !! b = Some (Some a) ->
      forall fuel, 1 <= fuel ->
        Launcher.resolveParent fuel tg seen (Some b) = Some (Some ta)).
Proof.
  repeat split.
  - intros Hw. destruct (walkOpeners_complete tg seen o r Hw) as [n Hn].
    exists n. intros fuel Hle. unfold Launcher.resolveParent.
    rewrite (Hn fuel Hle). split; reflexivity.
  - intros [n Hn]. destruct (Hn n (le_n n)) as [Hw _].
    eapply walkOpeners_sound; eassumption.
  - apply parentFor_specParent.
  - apply specWalk_openerWalk; assumption.
  - apply specWalk_openerWalk; assumption.
  - intros a b ta Ha Hb Hta Htb Hsb fuel Hfuel.
    assert (Hw : Launcher.openerWalk tg seen (Some b) (Some a)).
    { apply Launcher.openerWalk_next with (Some a); auto.
      - simpl. rewrite Htb. by intros [? ?].
      - constructor. right. left. simpl. eauto. }
    destruct (walkOpeners_complete tg seen _ _ Hw) as [n Hn].
    pose proof (Hn (n + fuel) ltac:(lia)) as Hbig.
    assert (Hone : Launcher.walkOpeners 1 tg seen (Some b) = Some (Some a)).
    { cbn [Launcher.walkOpeners].
      assert (Hk : Launcher.keepWalking tg seen (Some b) = true).
      { apply keepWalking_true. exists b. rewrite Hsb. eauto. }
      rewrite Hk. unfold Launcher.openedBy. rewrite Hsb. simpl mjoin.
      assert (Hk' : Launcher.keepWalking tg seen (Some a) = false).
      { apply keepWalking_false. right. left. simpl. eauto. }
      rewrite Hk'. reflexivity. }
    unfold Launcher.resolveParent.
    rewrite (walkOpeners_mono tg seen 1 fuel _ _ Hfuel Hone).
    change (Some (Launcher.parentFor tg (Some a)) = Some (Some ta)).
    apply truthy_Some_iff in Ha. unfold Launcher.parentFor. rewrite Ha, Hta.
    reflexivity.
Qed.

(** The document's scenario, run: [B] has gone, [A] is live, and the
    target opened by [B] gets [A]'s target as parent. *)
Lemma opener_resolution_sample :
  Launcher.resolveParent 1 Launcher.sampleTargets Launcher.sampleSeen (Some "B")
  = Some (Some Launcher.targetA).
Proof.
  apply (proj2 (proj2 (proj2 (proj2
          (opener_resolution Launcher.sampleTargets Launcher.sampleSeen))))
          "A" "B" Launcher.targetA).
  - discriminate.
  - discriminate.
  - reflexivity.
  - reflexivity.
  - reflexivity.
  - lia.
Defined.

(** The rule as the document words it fails on the empty id: a live target
    whose id is [''] ends the document's walk and would be the parent, but
    the loop treats [''] as no opener at all. *)
Lemma specResolution_fails : ~ Launcher.specResolution.
Proof.
  intros H.
  destruct (H {[ "" := Launcher.emptyIdTarget ]} ∅ (Some "") (Some "")) as [n Hn].
  { constructor. left. simpl. rewrite lookup_singleton_eq. eauto. }
  destruct (Hn n (le_n n)) as [_ Hp].
  unfold Launcher.resolveParent in Hp.
  destruct n; simpl in Hp; rewrite lookup_singleton_eq in Hp; discriminate.
Qed.

(** ** The launcher's methods, computed *)

Section LauncherSteps.

Import Launcher.

Lemma forEach_emit (f : Connection -> Event) (l : list Connection) (s : State) :
  forEach (fun c => emit (f c)) l s = (tt, s, map f l).
Proof.
  induction l as [|c l IH]; [reflexivity|].
  cbn [forEach]. unfold mbind, M_bind.
  change (emit (f c) s) with (tt, s, [f c]). cbn beta iota.
  rewrite IH. reflexivity.
Qed.

Lemma closeAllConnections_eq (s : State) :
  closeAllConnections s =
  (tt, set_serverConnections [] s, map EvConnectionClose (serverConnections s)).
Proof.
  unfold closeAllConnections, mbind, M_bind, get.
  rewrite forEach_emit. simpl. rewrite app_nil_r. reflexivity.
Qed.

Lemma _stopServer_state (s : State) : stateOf (_stopServer s) = stopped s.
Proof.
  unfold _stopServer, mbind, M_bind, get, stateOf.
  destruct (run s), (bootloaderFile s); simpl;
    rewrite closeAllConnections_eq; reflexivity.
Qed.

Lemma _stopServer_value (s : State) : valueOf (_stopServer s) = tt.
Proof. destruct (valueOf (_stopServer s)). reflexivity. Qed.

Lemma onProgramTerminated_state (s : State) :
  stateOf (onProgramTerminated s) = set_program None (stopped s).
Proof.
  unfold onProgramTerminated, mbind, M_bind, emit.
  pose proof (_stopServer_state s) as H. unfold stateOf in *.
  destruct (_stopServer s) as [[[] s1] e1]. simpl in *. subst. reflexivity.
Qed.

Lemma terminate_state (s : State) :
  stateOf (terminate s) = match program s with
                          | Some _ => s
                          | None => set_program None (stopped s)
                          end.
Proof.
  unfold terminate, mbind, M_bind, get.
  destruct (program s) eqn:Hp.
  - reflexivity.
  - pose proof (onProgramTerminated_state s) as H. unfold stateOf in *.
    destruct (onProgramTerminated s) as [[[] s1] e1]. simpl in *. auto.
Qed.

Lemma launch_state {Cfg} (rp : Cfg -> option Params) cfg bound spawned (s : State) :
  stateOf (launch rp cfg bound spawned s) =
  match rp cfg with
  | None => s
  | Some resolved =>
      match bound with
      | Some (srv, pipe) =>
          set_program spawned
            (set_run (Some {| server := srv; serverAddress := pipe; params := resolved;
                              cancellationToken := InitialToken |}) (stopped s))
      | None => stopped s
      end
  end.
Proof.
  unfold launch. destruct (rp cfg) as [resolved|]; [| reflexivity].
  unfold mbind, M_bind.
  pose proof (_stopServer_state s) as H. unfold stateOf in *.
  destruct (_stopServer s) as [[[] s1] e1]. simpl in *. subst.
  destruct bound as [[srv pipe]|]; reflexivity.
Qed.

End LauncherSteps.

(** ** Restart *)

Section Restart.

Import Launcher.

Context {Cfg : Type}.
Variable resolveParams : Cfg -> option Params.

Lemma allGone_stragglers gone tracked :
  allGone gone tracked = true <-> stragglers gone tracked = [].
Proof.
  unfold allGone, stragglers. induction tracked as [|c l IH]; [done|].
  cbn [forallb]. rewrite filter_cons. rewrite andb_true_iff, bool_decide_eq_true.
  destruct (decide (c ∉ gone)) as [Hn | Hy].
  - split; [intros [? _]; contradiction | discriminate].
  - apply dec_stable in Hy. rewrite <- IH. tauto.
Qed.



Lemma restart_idle np gone spawned (s : State) :
  run s = None -> restart resolveParams np gone spawned s = (Some tt, s, []).
Proof. intros H. unfold restart, mbind, M_bind, get. rewrite H. reflexivity. Qed.

Lemma restart_no_program np gone spawned (s : State) r :
  run s = Some r -> program s = None ->
  restart resolveParams np gone spawned s =
  (Some tt, set_program spawned s, [EvLaunchProgram (relaunchData resolveParams r np)]).
Proof.
  intros Hr Hp. unfold restart, mbind, M_bind, get. rewrite Hr, Hp.
  cbn. rewrite Hr. reflexivity.
Qed.

Lemma restart_program np gone spawned (s : State) r p :
  run s = Some r -> program s = Some p ->
  restart resolveParams np gone spawned s =
  (Some tt,
   set_program spawned (set_serverConnections [] s),
   EvProgramStop p None ::
     (if allGone gone (serverConnections s) then []
      else EvWarn "Timeout waiting for server connections to close"
           :: map EvConnectionClose (stragglers gone (serverConnections s)))
     ++ [EvLaunchProgram (relaunchData resolveParams r np)]).
Proof.
  intros Hr Hp. unfold restart, mbind, M_bind, get. rewrite Hr, Hp.
  unfold awaitClose, programStop, mbind, M_bind, get, modify, emit, mret, M_ret.
  cbn beta iota zeta.
  change (serverConnections (set_program None s)) with (serverConnections s).
  change (program (set_program None s)) with (@None Program).
  destruct (allGone gone (serverConnections s)) eqn:Hall; cbn beta iota zeta.
  - apply allGone_stragglers in Hall. rewrite Hall.
    cbn [run set_serverConnections set_program]. rewrite Hr. reflexivity.
  - rewrite closeAllConnections_eq.
    cbn [run set_serverConnections set_program serverConnections]. rewrite Hr.
    reflexivity.
Qed.

End Restart.

Section RestartSuspended.

Import Launcher.

Context {Cfg : Type}.
Variable resolveParams : Cfg -> option Params.
Variable fuel : nat.

Lemma restartDuring_idle np gone spawned duringStop duringWait (s : State) :
  run s = None ->
  restartDuring resolveParams fuel np gone spawned duringStop duringWait s
  = (NothingToRestart, s, []).
Proof. intros H. unfold restartDuring, mbind, M_bind, get. by rewrite H. Qed.

Lemma restartDuring_no_program np gone spawned duringStop duringWait (s : State) r :
  run s = Some r -> program s = None ->
  restartDuring resolveParams fuel np gone spawned duringStop duringWait s
  = (Relaunched, set_program spawned s,
     [EvLaunchProgram (relaunchData resolveParams r np)]).
Proof.
  intros Hr Hp. unfold restartDuring, mbind, M_bind, get. rewrite Hr, Hp.
  cbn. rewrite Hr. reflexivity.
Qed.

(** The state and the effects of a restart that comes back from both
    awaits; how it ends hangs on [this.run] as it is by then. *)
Lemma restartDuring_program np gone spawned duringStop duringWait (s : State) r p :
  run s = Some r -> program s = Some p ->
  valueOf (afterStop resolveParams fuel duringStop s) = Some tt ->
  valueOf (afterWait resolveParams fuel duringStop duringWait s) = Some tt ->
  restartDuring resolveParams fuel np gone spawned duringStop duringWait s
  = (match run (stateOf (afterWait resolveParams fuel duringStop duringWait s)) with
     | Some _ => Relaunched
     | None => ThrewTypeError
     end,
     (match run (stateOf (afterWait resolveParams fuel duringStop duringWait s)) with
      | Some _ => set_program spawned
      | None => fun t => t
      end)
       (set_serverConnections
          (if allGone gone (serverConnections (stateOf (afterStop resolveParams fuel duringStop s)))
           then stragglers gone
                  (serverConnections
                     (stateOf (afterWait resolveParams fuel duringStop duringWait s)))
           else [])
          (stateOf (afterWait resolveParams fuel duringStop duringWait s))),
     EvProgramStop p None
       :: logOf (afterStop resolveParams fuel duringStop s)
       ++ logOf (afterWait resolveParams fuel duringStop duringWait s)
       ++ (if allGone gone (serverConnections (stateOf (afterStop resolveParams fuel duringStop s)))
           then []
           else EvWarn "Timeout waiting for server connections to close"
                :: map EvConnectionClose
                     (stragglers gone
                        (serverConnections
                           (stateOf (afterWait resolveParams fuel duringStop duringWait s)))))
       ++ match run (stateOf (afterWait resolveParams fuel duringStop duringWait s)) with
          | Some r' => [EvLaunchProgram (relaunchData resolveParams r' np)]
          | None => []
          end).
Proof.
  intros Hr Hp. unfold afterWait, afterStop, restartDuring, mbind, M_bind, get.
  rewrite Hr, Hp.
  unfold programStop, mbind, M_bind, get, modify, emit, mret, M_ret.
  cbn beta iota zeta.
  change (program (set_program None s)) with (@None Program).
  destruct (performSteps resolveParams fuel duringStop (set_program None s))
    as [[v1 s1] l1]. cbn [valueOf stateOf logOf fst snd].
  intros ->. 
  destruct (performSteps resolveParams fuel duringWait s1) as [[v2 s2] l2].
  cbn [valueOf stateOf logOf fst snd]. intros ->. cbn beta iota zeta.
  destruct (allGone gone (serverConnections s1)); cbn beta iota zeta.
  - cbn [run set_serverConnections]. destruct (run s2);
      unfold launchProgram, mbind, M_bind, emit, modify; cbn;
      rewrite ?app_nil_r, <- ?app_assoc, ?app_nil_r; reflexivity.
  - rewrite closeAllConnections_eq.
    cbn [run set_serverConnections serverConnections]. destruct (run s2);
      unfold launchProgram, mbind, M_bind, emit, modify; cbn;
      rewrite ?app_nil_r, <- ?app_assoc, ?app_nil_r; reflexivity.
Qed.

(** With nothing in between, [restartDuring] is [restart]. *)
Lemma restartDuring_alone np gone spawned (s : State) :
  stateOf (restartDuring resolveParams fuel np gone spawned [] [] s)
  = stateOf (restart resolveParams np gone spawned s) /\
  logOf (restartDuring resolveParams fuel np gone spawned [] [] s)
  = logOf (restart resolveParams np gone spawned s).
Proof.
  destruct (run s) as [r|] eqn:Hr.
  - destruct (program s) as [p|] eqn:Hp.
    + rewrite (restart_program resolveParams np gone spawned s r p Hr Hp).
      rewrite (restartDuring_program np gone spawned [] [] s r p Hr Hp eq_refl eq_refl).
      unfold afterWait, afterStop.
      cbn [performSteps stateOf logOf fst snd mret M_ret run set_program serverConnections].
      rewrite Hr. cbn [app].
      destruct (allGone gone (serverConnections s)) eqn:Hall; [| split; reflexivity].
      apply allGone_stragglers in Hall. rewrite Hall. split; reflexivity.
    + rewrite (restart_no_program resolveParams np gone spawned s r Hr Hp).
      rewrite (restartDuring_no_program np gone spawned [] [] s r Hr Hp). by split.
  - rewrite (restart_idle resolveParams np gone spawned s Hr).
    rewrite (restartDuring_idle np gone spawned [] [] s Hr). by split.
Qed.

End RestartSuspended.




(** ** SeenOpeners only grows *)

Section SeenOpeners.

Import Launcher.

Context {Cfg : Type}.
Variable resolveParams : Cfg -> option Params.
Variable fuel : nat.

Lemma discard_state {A} (m : M A) (s : State) : stateOf (discard m s) = stateOf (m s).
Proof.
  unfold discard, mbind, M_bind, stateOf. destruct (m s) as [[a s1] e1]. reflexivity.
Qed.

Lemma discard_value {A} (m : M A) (s : State) : valueOf (discard m s) = Some tt.
Proof.
  unfold discard, mbind, M_bind, valueOf. destruct (m s) as [[a s1] e1]. reflexivity.
Qed.

Lemma targetCreated_eq info (s : State) :
  targetCreated fuel info s =
  match run s with
  | None => (Some tt, s, [EvRegisterPortLease info; EvSocketDestroy])
  | Some _ =>
      match walkOpeners fuel (targets s) (seenOpeners s) (openerId info) with
      | None => (None, s, [EvRegisterPortLease info])
      | Some living =>
          (Some tt,
           set_targets
             (<[targetId info := NodeTarget info (parentFor (targets s) living)]> (targets s))
             (set_seenOpeners (<[targetId info := openerId info]> (seenOpeners s)) s),
           [EvRegisterPortLease info])
      end
  end.
Proof.
  unfold targetCreated, mbind, M_bind, get, emit. cbn beta iota.
  destruct (run s); [| reflexivity].
  destruct (walkOpeners fuel (targets s) (seenOpeners s) (openerId info)); reflexivity.
Qed.

Lemma restart_seenOpeners np gone spawned (s : State) :
  seenOpeners (stateOf (restart resolveParams np gone spawned s)) = seenOpeners s.
Proof.
  destruct (run s) as [r|] eqn:Hr.
  - destruct (program s) as [p|] eqn:Hp.
    + rewrite (restart_program resolveParams np gone spawned s r p Hr Hp). reflexivity.
    + rewrite (restart_no_program resolveParams np gone spawned s r Hr Hp). reflexivity.
  - rewrite (restart_idle resolveParams np gone spawned s Hr). reflexivity.
Qed.

(** What a single step does to SeenOpeners: a completed handshake on an
    active run inserts, nothing else writes. *)
Lemma perform_seenOpeners (op : Op Cfg) (s : State) :
  seenOpeners (stateOf (perform resolveParams fuel op s)) =
  match op with
  | OpTargetCreated info =>
      match run s, walkOpeners fuel (targets s) (seenOpeners s) (openerId info) with
      | Some _, Some _ => <[targetId info := openerId info]> (seenOpeners s)
      | _, _ => seenOpeners s
      end
  | _ => seenOpeners s
  end.
Proof.
  destruct op; cbn [perform]; rewrite ?discard_state.
  - rewrite launch_state. destruct (resolveParams cfg); reflexivity.
  - rewrite launch_state. destruct (resolveParams cfg); reflexivity.
  - rewrite terminate_state. destruct (program s); reflexivity.
  - apply restart_seenOpeners.
  - unfold disposeLauncher. rewrite _stopServer_state. reflexivity.
  - rewrite onProgramTerminated_state. reflexivity.
  - unfold acceptSocket, mbind, M_bind, get. destruct (run s); reflexivity.
  - rewrite targetCreated_eq. destruct (run s); [| reflexivity].
    destruct (walkOpeners fuel (targets s) (seenOpeners s) (openerId info)); reflexivity.
  - reflexivity.
  - reflexivity.
  - reflexivity.
  - reflexivity.
Qed.

Lemma perform_keeps_keys (op : Op Cfg) (s : State) k :
  is_Some (seenOpeners s !! k) ->
  is_Some (seenOpeners (stateOf (perform resolveParams fuel op s)) !! k).
Proof.
  intros Hk. rewrite perform_seenOpeners.
  destruct op; try exact Hk.
  destruct (run s); [| exact Hk].
  destruct (walkOpeners fuel (targets s) (seenOpeners s) (openerId info)); [| exact Hk].
  rewrite lookup_insert. case_decide; eauto.
Qed.

Lemma performAll_keeps_keys (ops : list (Op Cfg)) (s s' : State) k :
  performAll resolveParams fuel ops s = Some s' ->
  is_Some (seenOpeners s !! k) -> is_Some (seenOpeners s' !! k).
Proof.
  revert s. induction ops as [|op ops IH]; intros s; cbn [performAll].
  - intros [= <-]. auto.
  - destruct (valueOf (perform resolveParams fuel op s)); [| discriminate].
    intros Hrest Hk. apply (IH _ Hrest). by apply perform_keeps_keys.
Qed.

Lemma performAll_keeps_entry (ops : list (Op Cfg)) (s s' : State) k v :
  performAll resolveParams fuel ops s = Some s' ->
  (forall info, OpTargetCreated info ∈ ops -> targetId info <> k) ->
  seenOpeners s !! k = Some v -> seenOpeners s' !! k = Some v.
Proof.
  revert s. induction ops as [|op ops IH]; intros s; cbn [performAll].
  - intros [= <-]. auto.
  - destruct (valueOf (perform resolveParams fuel op s)); [| discriminate].
    intros Hrest Hfresh Hk. apply (IH _ Hrest).
    + intros info Hin. apply Hfresh. by right.
    + rewrite perform_seenOpeners. destruct op; try exact Hk.
      destruct (run s); [| exact Hk].
      destruct (walkOpeners fuel (targets s) (seenOpeners s) (openerId info)); [| exact Hk].
      rewrite lookup_insert_ne; [exact Hk|]. apply Hfresh. by left.
Qed.

(** Every schedule without a handshake completes. *)
Lemma performAll_total (ops : list (Op Cfg)) (s : State) :
  (forall info, OpTargetCreated info ∉ ops) ->
  is_Some (performAll resolveParams fuel ops s).
Proof.
  revert s. induction ops as [|op ops IH]; intros s Hno; cbn [performAll]; [eauto|].
  assert (Hv : valueOf (perform resolveParams fuel op s) = Some tt).
  { destruct op; cbn [perform]; rewrite ?discard_value; try reflexivity.
    - destruct (run s) as [r|] eqn:Hr.
      + destruct (program s) as [p|] eqn:Hp.
        * rewrite (restart_program resolveParams newParams gone spawned s r p Hr Hp).
          reflexivity.
        * rewrite (restart_no_program resolveParams newParams gone spawned s r Hr Hp).
          reflexivity.
      + rewrite (restart_idle resolveParams newParams gone spawned s Hr). reflexivity.
    - exfalso. apply (Hno info). by left. }
  rewrite Hv. apply IH. intros info Hin. apply (Hno info). by right.
Qed.

End SeenOpeners.

(** C10. SeenOpeners is never pruned. A handshake that completes on an
    active run records the new target's id with its declared opener id (and
    adds the target to the live map); no step of the launcher (a target or
    connection disconnect, a worker's attach or end, terminate, the
    program's exit with its server teardown, dispose, restart, a fresh
    launch) writes SeenOpeners at all; so along every schedule of steps a
    recorded id stays recorded, with the opener it was recorded with unless
    the same id completes a handshake again. *)
Theorem seenOpeners_never_pruned {Cfg : Type}
    (resolveParams : Cfg -> option Launcher.Params) (fuel : nat) :
  (forall info s rd living,
     Launcher.run s = Some rd ->
     Launcher.walkOpeners fuel (Launcher.targets s) (Launcher.seenOpeners s)
       (Launcher.openerId info) = Some living ->
     Launcher.valueOf (Launcher.targetCreated fuel info s) = Some tt /\
     Launcher.seenOpeners (Launcher.stateOf (Launcher.targetCreated fuel info s))
       !! Launcher.targetId info = Some (Launcher.openerId info) /\
     Launcher.targets (Launcher.stateOf (Launcher.targetCreated fuel info s))
       !! Launcher.targetId info
       = Some (Launcher.NodeTarget info (Launcher.parentFor (Launcher.targets s) living))) /\
  (forall op s,
     (forall info, op <> Launcher.OpTargetCreated info) ->
     Launcher.seenOpeners (Launcher.stateOf (Launcher.perform resolveParams fuel op s))
     = Launcher.seenOpeners s) /\
  (forall ops s s' k,
     Launcher.performAll resolveParams fuel ops s = Some s' ->
     is_Some (Launcher.seenOpeners s !! k) -> is_Some (Launcher.seenOpeners s' !! k)) /\
  (forall ops s s' k v,
     Launcher.performAll resolveParams fuel ops s = Some s' ->
     (forall info, Launcher.OpTargetCreated info ∈ ops -> Launcher.targetId info <> k) ->
     Launcher.seenOpeners s !! k = Some v -> Launcher.seenOpeners s' !! k = Some v) /\
  (forall ops s,
     (forall info, Launcher.OpTargetCreated info ∉ ops) ->
     is_Some (Launcher.performAll resolveParams fuel ops s)).
Proof.
  split; [| split; [| split; [| split]]].
  - intros info s rd living Hr Hw. rewrite targetCreated_eq, Hr, Hw.
    cbn. rewrite !lookup_insert_eq. auto.
  - intros op s Hop. rewrite perform_seenOpeners.
    destruct op; try reflexivity. exfalso. by apply (Hop info).
  - apply performAll_keeps_keys.
  - apply performAll_keeps_entry.
  - apply performAll_total.
Qed.

(** Through a disconnect of the last live target, a restart, the program's
    exit, a fresh launch and a dispose, [B] is still recorded as opened by
    [A]. *)
Lemma seenOpeners_never_pruned_sample :
  exists s',
    Launcher.performAll (fun _ : unit => Some (Launcher.params Launcher.sampleRun)) 0
      Launcher.sampleSchedule Launcher.sampleRunning = Some s' /\
    Launcher.targets s' = ∅ /\
    Launcher.run s' = None /\
    Launcher.seenOpeners s' !! "B" = Some (Some "A").
Proof.
  eexists. split; [reflexivity|]. split; [| split].
  - apply map_eq. intros k. vm_compute. destruct k; reflexivity.
  - reflexivity.
  - apply (proj1 (proj2 (proj2 (proj2
             (seenOpeners_never_pruned
                (fun _ : unit => Some (Launcher.params Launcher.sampleRun)) 0))))
           Launcher.sampleSchedule Launcher.sampleRunning _ "B" (Some "A")).
    + reflexivity.
    + intros info Hin. repeat (apply elem_of_cons in Hin as [Hin | Hin]; [discriminate|]).
      by apply elem_of_nil in Hin.
    + reflexivity.
Defined.

(** ** The bootloader file *)

Section BootloaderFile.

Import Launcher NodeBinary Bootloader.

Variable forceForwardSlashes : string -> string.
Variable bootloaderDefaultPath : string.
Variable tmpdir : string.
Variable pathJoin : string -> string -> string.
Variable jsonStringify : string -> string.
Variable writable : string -> bool.

#[local] Abbreviation target := (targetPath forceForwardSlashes bootloaderDefaultPath).
#[local] Abbreviation wrapper := (contents forceForwardSlashes bootloaderDefaultPath jsonStringify).
#[local] Abbreviation getFile :=
  (getBootloaderFile forceForwardSlashes bootloaderDefaultPath tmpdir pathJoin
     jsonStringify writable).

Lemma getBootloaderFile_installed cwd has fs :
  Js.includes_space target = false ->
  getFile cwd has fs = Some ({| interpolatedPath := target; dispose := NoDispose |}, fs).
Proof. intros H. unfold getBootloaderFile. rewrite H. reflexivity. Qed.

Lemma getBootloaderFile_quoted cwd has fs :
  Js.includes_space target = true -> has UseSpacesInRequirePath = true ->
  getFile cwd has fs =
  Some ({| interpolatedPath := dquote +:+ target +:+ dquote; dispose := NoDispose |}, fs).
Proof. intros H1 H2. unfold getBootloaderFile. rewrite H1, H2. reflexivity. Qed.

Lemma getBootloaderFile_tmp cwd has fs :
  Js.includes_space target = true -> has UseSpacesInRequirePath = false ->
  Js.includes_space tmpdir = false \/ Js.truthy cwd = false ->
  getFile cwd has fs =
  if writable (pathJoin tmpdir bootloaderName) then
    Some ({| interpolatedPath := pathJoin tmpdir bootloaderName; dispose := NoDispose |},
          <[pathJoin tmpdir bootloaderName := wrapper]> fs)
  else None.
Proof.
  intros H1 H2 H3. unfold getBootloaderFile, writeFile. rewrite H1, H2.
  assert (Hc : negb (Js.includes_space tmpdir) || negb (Js.truthy cwd) = true).
  { destruct H3 as [-> | ->]; [reflexivity | apply orb_true_r]. }
  cbn [negb]. rewrite Hc.
  destruct (writable (pathJoin tmpdir bootloaderName)); reflexivity.
Qed.

Lemma getBootloaderFile_near c has fs :
  Js.includes_space target = true -> has UseSpacesInRequirePath = false ->
  Js.includes_space tmpdir = true -> c <> "" ->
  getFile (Some c) has fs =
  if writable (pathJoin c nearFilename) then
    Some ({| interpolatedPath := "./" +:+ nearFilename;
             dispose := Unlink (pathJoin c nearFilename) |},
          <[pathJoin c nearFilename := wrapper]> fs)
  else None.
Proof.
  intros H1 H2 H3 Hc. unfold getBootloaderFile, writeFile. rewrite H1, H2, H3.
  apply truthy_Some_iff in Hc. rewrite Hc. cbn [negb orb].
  destruct (writable (pathJoin c nearFilename)); reflexivity.
Qed.

(** The four tiers leave no input out. *)
Lemma tiers_exhaustive (cwd : option string) (has : Capability -> bool) :
  Js.includes_space target = false \/
  (Js.includes_space target = true /\ has UseSpacesInRequirePath = true) \/
  (Js.includes_space target = true /\ has UseSpacesInRequirePath = false /\
   (Js.includes_space tmpdir = false \/ Js.truthy cwd = false)) \/
  (Js.includes_space target = true /\ has UseSpacesInRequirePath = false /\
   Js.includes_space tmpdir = true /\ exists c, cwd = Some c /\ c <> "").
Proof.
  destruct (Js.includes_space target); [| by left].
  destruct (has UseSpacesInRequirePath); [right; by left|].
  destruct (Js.includes_space tmpdir) eqn:Ht; [| right; right; left; auto].
  destruct (Js.truthy cwd) eqn:Hc; [| right; right; left; auto].
  right. right. right. repeat split; auto.
  destruct cwd as [c|]; [| discriminate]. exists c. split; [done|].
  by apply truthy_Some_iff.
Qed.

(** A rejection is a failed write of tier 3 or of tier 4: nothing is tried
    after it. *)
Lemma getBootloaderFile_rejects cwd has fs :
  getFile cwd has fs = None <->
  Js.includes_space target = true /\ has UseSpacesInRequirePath = false /\
  ((( Js.includes_space tmpdir = false \/ Js.truthy cwd = false) /\
    writable (pathJoin tmpdir bootloaderName) = false) \/
   (Js.includes_space tmpdir = true /\
    exists c, cwd = Some c /\ c <> "" /\ writable (pathJoin c nearFilename) = false)).
Proof.
  destruct (tiers_exhaustive cwd has) as [H | [[H1 H2] | [(H1 & H2 & H3) | (H1 & H2 & H3 & c & -> & Hc)]]].
  - rewrite getBootloaderFile_installed by done. rewrite H.
    split; [discriminate | intros [? _]; discriminate].
  - rewrite getBootloaderFile_quoted by done. rewrite H2.
    split; [discriminate | intros (_ & ? & _); discriminate].
  - rewrite getBootloaderFile_tmp by done.
    destruct (writable (pathJoin tmpdir bootloaderName)) eqn:Hw.
    + split; [discriminate|]. intros (_ & _ & [[_ ?] | (Ht & c & -> & Hc & _)]); [discriminate|].
      apply truthy_Some_iff in Hc. destruct H3; congruence.
    + split; [| done]. intros _. repeat split; auto.
  - rewrite getBootloaderFile_near by done.
    destruct (writable (pathJoin c nearFilename)) eqn:Hw.
    + split; [discriminate|]. intros (_ & _ & [[[Ht | Ht] _] | (_ & c' & [= <-] & _ & ?)]).
      * congruence.
      * apply truthy_Some_iff in Hc. congruence.
      * congruence.
    + split; [| done]. intros _. repeat split; auto. right. split; [done|]. eauto.
Qed.

(** Whatever a returned disposer unlinks is the wrapper just written, and
    running the disposer removes it. *)
Lemma getBootloaderFile_disposer cwd has fs f fs' p :
  getFile cwd has fs = Some (f, fs') -> dispose f = Unlink p ->
  fs' !! p = Some wrapper /\ runDisposer (dispose f) fs' !! p = None /\
  exists c, cwd = Some c /\ p = pathJoin c nearFilename.
Proof.
  destruct (tiers_exhaustive cwd has) as [H | [[H1 H2] | [(H1 & H2 & H3) | (H1 & H2 & H3 & c & -> & Hc)]]].
  - rewrite getBootloaderFile_installed by done. intros [= <- <-]. discriminate.
  - rewrite getBootloaderFile_quoted by done. intros [= <- <-]. discriminate.
  - rewrite getBootloaderFile_tmp by done.
    destruct (writable _); [| discriminate]. intros [= <- <-]. discriminate.
  - rewrite getBootloaderFile_near by done.
    destruct (writable _); [| discriminate]. intros [= <- <-] [= <-].
    cbn [dispose runDisposer]. rewrite lookup_insert_eq, lookup_delete_eq. eauto.
Qed.

End BootloaderFile.

(** C3. [getBootloaderFile] answers from the first tier that applies:
    (1) the installed path (in the forward-slash form the launcher works
    with) as it is when it has no space; (2) that path in double quotes when
    the binary has the spaces-in-require-path capability; (3) a
    [require(<path>)] wrapper written to the temp directory when that
    directory has no space or no working directory is known; (4) otherwise
    the wrapper written into the working directory under the fixed name
    [.vscode-js-debug-bootloader.js], returned as [./<name>] with a disposer
    that unlinks the file written. The four tiers cover every input, and a
    failed write of tier 3 or 4 is the only way to a rejection: nothing is
    tried after it. *)
Theorem getBootloaderFile_tiers
    (forceForwardSlashes : string -> string) (bootloaderDefaultPath tmpdir : string)
    (pathJoin : string -> string -> string) (jsonStringify : string -> string)
    (writable : string -> bool)
    (cwd : option string) (has : NodeBinary.Capability -> bool)
    (fs : gmap string string) :
  (Js.includes_space (Bootloader.targetPath forceForwardSlashes bootloaderDefaultPath) = false ->
   Bootloader.getBootloaderFile forceForwardSlashes bootloaderDefaultPath tmpdir pathJoin
     jsonStringify writable cwd has fs =
   Some ({| Launcher.interpolatedPath :=
              Bootloader.targetPath forceForwardSlashes bootloaderDefaultPath;
            Launcher.dispose := Launcher.NoDispose |}, fs)) /\
  (Js.includes_space (Bootloader.targetPath forceForwardSlashes bootloaderDefaultPath) = true ->
   has NodeBinary.UseSpacesInRequirePath = true ->
   Bootloader.getBootloaderFile forceForwardSlashes bootloaderDefaultPath tmpdir pathJoin
     jsonStringify writable cwd has fs =
   Some ({| Launcher.interpolatedPath :=
              Bootloader.dquote
                +:+ Bootloader.targetPath forceForwardSlashes bootloaderDefaultPath
                +:+ Bootloader.dquote;
            Launcher.dispose := Launcher.NoDispose |}, fs)) /\
  (Js.includes_space (Bootloader.targetPath forceForwardSlashes bootloaderDefaultPath) = true ->
   has NodeBinary.UseSpacesInRequirePath = false ->
   Js.includes_space tmpdir = false \/ Js.truthy cwd = false ->
   Bootloader.getBootloaderFile forceForwardSlashes bootloaderDefaultPath tmpdir pathJoin
     jsonStringify writable cwd has fs =
   if writable (pathJoin tmpdir Bootloader.bootloaderName) then
     Some ({| Launcher.interpolatedPath := pathJoin tmpdir Bootloader.bootloaderName;
              Launcher.dispose := Launcher.NoDispose |},
           <[pathJoin tmpdir Bootloader.bootloaderName :=
               Bootloader.contents forceForwardSlashes bootloaderDefaultPath jsonStringify]> fs)
   else None) /\
  (forall c,
   Js.includes_space (Bootloader.targetPath forceForwardSlashes bootloaderDefaultPath) = true ->
   has NodeBinary.UseSpacesInRequirePath = false ->
   Js.includes_space tmpdir = true -> cwd = Some c -> c <> "" ->
   Bootloader.getBootloaderFile forceForwardSlashes bootloaderDefaultPath tmpdir pathJoin
     jsonStringify writable cwd has fs =
   if writable (pathJoin c Bootloader.nearFilename) then
     Some ({| Launcher.interpolatedPath := "./" +:+ Bootloader.nearFilename;
              Launcher.dispose := Launcher.Unlink (pathJoin c Bootloader.nearFilename) |},
           <[pathJoin c Bootloader.nearFilename :=
               Bootloader.contents forceForwardSlashes bootloaderDefaultPath jsonStringify]> fs)
   else None) /\
  (forall f fs' p,
   Bootloader.getBootloaderFile forceForwardSlashes bootloaderDefaultPath tmpdir pathJoin
     jsonStringify writable cwd has fs = Some (f, fs') ->
   Launcher.dispose f = Launcher.Unlink p ->
   fs' !! p = Some (Bootloader.contents forceForwardSlashes bootloaderDefaultPath jsonStringify) /\
   Bootloader.runDisposer (Launcher.dispose f) fs' !! p = None /\
   exists c, cwd = Some c /\ p = pathJoin c Bootloader.nearFilename) /\
  (Js.includes_space (Bootloader.targetPath forceForwardSlashes bootloaderDefaultPath) = false \/
   (Js.includes_space (Bootloader.targetPath forceForwardSlashes bootloaderDefaultPath) = true /\
    has NodeBinary.UseSpacesInRequirePath = true) \/
   (Js.includes_space (Bootloader.targetPath forceForwardSlashes bootloaderDefaultPath) = true /\
    has NodeBinary.UseSpacesInRequirePath = false /\
    (Js.includes_space tmpdir = false \/ Js.truthy cwd = false)) \/
   (Js.includes_space (Bootloader.targetPath forceForwardSlashes bootloaderDefaultPath) = true /\
    has NodeBinary.UseSpacesInRequirePath = false /\
    Js.includes_space tmpdir = true /\ exists c, cwd = Some c /\ c <> "")) /\
  (Bootloader.getBootloaderFile forceForwardSlashes bootloaderDefaultPath tmpdir pathJoin
     jsonStringify writable cwd has fs = None <->
   Js.includes_space (Bootloader.targetPath forceForwardSlashes bootloaderDefaultPath) = true /\
   has NodeBinary.UseSpacesInRequirePath = false /\
   (((Js.includes_space tmpdir = false \/ Js.truthy cwd = false) /\
     writable (pathJoin tmpdir Bootloader.bootloaderName) = false) \/
    (Js.includes_space tmpdir = true /\
     exists c, cwd = Some c /\ c <> "" /\
               writable (pathJoin c Bootloader.nearFilename) = false))).
Proof.
  split; [apply getBootloaderFile_installed|].
  split; [apply getBootloaderFile_quoted|].
  split; [apply getBootloaderFile_tmp|].
  split; [intros c H1 H2 H3 -> Hc; by apply getBootloaderFile_near|].
  split; [intros f fs' p; apply getBootloaderFile_disposer|].
  split; [apply tiers_exhaustive | apply getBootloaderFile_rejects].
Qed.

(** The last tier, run: an installation path with a space, a binary
    without the capability, a temp directory with a space, and a known
    working directory. *)
Lemma getBootloaderFile_tiers_sample :
  Bootloader.getBootloaderFile Bootloader.sampleSlashes Bootloader.sampleInstall
    Bootloader.sampleTmp Bootloader.sampleJoin Bootloader.sampleStringify
    (fun _ => true) (Some "/work") Bootloader.oldBinary ∅ =
  Some ({| Launcher.interpolatedPath := "./.vscode-js-debug-bootloader.js";
           Launcher.dispose := Launcher.Unlink "/work/.vscode-js-debug-bootloader.js" |},
        {[ "/work/.vscode-js-debug-bootloader.js" :=
             "require(" +:+ Bootloader.dquote +:+ "/opt/my ext/bootloader.js"
               +:+ Bootloader.dquote +:+ ")" ]}).
Proof.
  apply (proj1 (proj2 (proj2 (proj2
          (getBootloaderFile_tiers Bootloader.sampleSlashes Bootloader.sampleInstall
             Bootloader.sampleTmp Bootloader.sampleJoin Bootloader.sampleStringify
             (fun _ => true) (Some "/work") Bootloader.oldBinary ∅))))
          "/work").
  - reflexivity.
  - reflexivity.
  - reflexivity.
  - reflexivity.
  - discriminate.
Defined.

(** ** The injected runtime options *)

Section NodeOptions.

Import Launcher NodeBinary Bootloader.

Lemma append_assoc (a b c : string) : (a +:+ b) +:+ c = a +:+ (b +:+ c).
Proof.
  induction a as [|x a IH]; [reflexivity|].
  change (String x ((a +:+ b) +:+ c) = String x (a +:+ (b +:+ c))). by rewrite IH.
Qed.

Lemma append_nil_r (a : string) : a +:+ "" = a.
Proof.
  induction a as [|x a IH]; [reflexivity|].
  change (String x (a +:+ "") = String x a). by rewrite IH.
Qed.

Lemma length_append (a b : string) :
  String.length (a +:+ b) = String.length a + String.length b.
Proof.
  induction a as [|x a IH]; [reflexivity|].
  change (S (String.length (a +:+ b)) = S (String.length a + String.length b)).
  by rewrite IH.
Qed.

Lemma prefix_append (a b : string) : String.prefix a (a +:+ b) = true.
Proof.
  induction a as [|x a IH]; [by destruct b|].
  change (match ascii_dec x x with
          | left _ => String.prefix a (a +:+ b)
          | right _ => false
          end = true).
  destruct (ascii_dec x x); [exact IH | contradiction].
Qed.

Lemma lookup_merge (base : gmap string string) (over : gmap string (option string)) k :
  merge base over !! k = match over !! k with
                         | Some o => o
                         | None => base !! k
                         end.
Proof.
  unfold merge. rewrite lookup_omap, lookup_union, lookup_fmap.
  destruct (over !! k) as [o|], (base !! k); simpl; try reflexivity.
Qed.

(** The explicit overrides win over the env file. *)
Lemma lookup_getConfiguredEnvironment envFile env k :
  getConfiguredEnvironment envFile env !! k =
  match env !! k with
  | Some o => o
  | None => envFile ≫= (fun parsed => parsed !! k)
  end.
Proof.
  unfold getConfiguredEnvironment. rewrite lookup_merge.
  destruct (env !! k); [reflexivity|].
  destruct envFile as [parsed|]; simpl; [| apply lookup_empty].
  rewrite lookup_merge, lookup_fmap. destruct (parsed !! k); simpl; [reflexivity|].
  apply lookup_empty.
Qed.

Lemma lookup_resolveEnvironment envFile env processEnv bootloader inspectorOptions :
  resolveEnvironment envFile env processEnv bootloader inspectorOptions !! "NODE_OPTIONS" =
  Some (withGlobalOpts
          (withBaseOpts (preloadFlag bootloader)
             (getConfiguredEnvironment envFile env !! "NODE_OPTIONS"))
          (processEnv !! "NODE_OPTIONS")).
Proof.
  unfold resolveEnvironment. cbn zeta. rewrite lookup_merge, lookup_insert_eq. reflexivity.
Qed.

End NodeOptions.

(** C9. The [NODE_OPTIONS] that [resolveEnvironment] injects is the preload
    flag requiring the bootloader path, then the value the merged base
    environment (the env file under the explicit overrides) had for
    [NODE_OPTIONS] if it had a non-empty one, then the value of the ambient
    process environment if it has a non-empty one: in that order, so the
    injected value always begins with the bootloader's preload flag. *)
Theorem node_options_order (envFile : option (gmap string string))
    (env : gmap string (option string)) (processEnv : gmap string string)
    (bootloader : Launcher.BootloaderFile) (inspectorOptions : string) :
  exists basePart globalPart,
    Bootloader.resolveEnvironment envFile env processEnv bootloader inspectorOptions
      !! "NODE_OPTIONS"
    = Some (Bootloader.preloadFlag bootloader +:+ basePart +:+ globalPart) /\
    Bootloader.preloadFlag bootloader
    = " --require " +:+ Launcher.interpolatedPath bootloader +:+ " " /\
    String.prefix (Bootloader.preloadFlag bootloader)
      (Bootloader.preloadFlag bootloader +:+ basePart +:+ globalPart) = true /\
    basePart = match Bootloader.getConfiguredEnvironment envFile env !! "NODE_OPTIONS" with
               | Some b => if String.eqb b "" then "" else " " +:+ b +:+ " "
               | None => ""
               end /\
    globalPart = match processEnv !! "NODE_OPTIONS" with
                 | Some g => if String.eqb g "" then "" else " " +:+ g
                 | None => ""
                 end /\
    Bootloader.getConfiguredEnvironment envFile env !! "NODE_OPTIONS"
    = match env !! "NODE_OPTIONS" with
      | Some o => o
      | None => envFile ≫= (fun parsed => parsed !! "NODE_OPTIONS")
      end.
Proof.
  eexists _, _. rewrite lookup_resolveEnvironment.
  split; [| split; [reflexivity | split; [apply prefix_append |
    split; [reflexivity | split; [reflexivity | apply lookup_getConfiguredEnvironment]]]]].
  f_equal. unfold Bootloader.withGlobalOpts, Bootloader.withBaseOpts, Js.truthy.
  destruct (Bootloader.getConfiguredEnvironment envFile env !! "NODE_OPTIONS") as [b|];
    destruct (processEnv !! "NODE_OPTIONS") as [g|];
    repeat match goal with
           | |- context [String.eqb ?x ""] => destruct (String.eqb x "")
           end;
    cbn [negb]; rewrite ?append_assoc, ?append_nil_r; reflexivity.
Qed.

(** With an env file, an override and an ambient value: the bootloader's
    flag, then the override (which wins over the file), then the ambient
    value. *)
Lemma node_options_order_sample :
  Bootloader.resolveEnvironment (Some Bootloader.sampleEnvFile) Bootloader.sampleEnv
    Bootloader.sampleProcessEnv Bootloader.sampleBootloader "{}" !! "NODE_OPTIONS"
  = Some (" --require /opt/ext/bootloader.js "
            +:+ " --max-old-space-size=4096 "
            +:+ " --require /other/bootloader.js").
Proof.
  destruct (node_options_order (Some Bootloader.sampleEnvFile) Bootloader.sampleEnv
              Bootloader.sampleProcessEnv Bootloader.sampleBootloader "{}")
    as (basePart & globalPart & Hv & _ & _ & Hb & Hg & _).
  rewrite Hv, Hb, Hg. reflexivity.
Defined.

(** ** Telemetry gathering *)

Section TelemetryLoop.

Import Telemetry.

Variable polls : nat -> Poll.

Lemma truthy_object v :
  truthy v = true -> isObject v = true -> exists t, v = VObject t.
Proof. destruct v; simpl; try discriminate; eauto. Qed.

(** One pass: round again on a retried poll, done otherwise. *)
Lemma gatherFrom_step remaining retries :
  gatherFrom (S remaining) retries polls =
  if retried (polls retries) then
    (fst (gatherFrom remaining (S retries) polls),
     [EvEvaluate; EvLogInfo; EvDelay (backoff retries)]
       ++ snd (gatherFrom remaining (S retries) polls))
  else conclude (polls retries).
Proof.
  cbn [gatherFrom]. unfold retried, conclude.
  destruct (programHandle (polls retries)) as [p|]; [| reflexivity].
  destruct (response (polls retries)) as [v|]; [| reflexivity].
  destruct (truthy v) eqn:Ht; cbn [negb andb].
  - destruct (isObject v) eqn:Ho; cbn [negb].
    + destruct (truthy_object v Ht Ho) as [t ->]. reflexivity.
    + destruct (gatherFrom remaining (S retries) polls). reflexivity.
  - destruct v; try reflexivity. discriminate.
Qed.

Lemma leadingRetries_le from n : leadingRetries polls from n <= n.
Proof.
  revert from. induction n as [|n IH]; intros from; cbn [leadingRetries]; [lia|].
  destruct (retried (polls from)); [| lia]. specialize (IH (S from)). lia.
Qed.

Lemma leadingRetries_retried from n i :
  i < leadingRetries polls from n -> retried (polls (from + i)) = true.
Proof.
  revert from i. induction n as [|n IH]; intros from i; cbn [leadingRetries]; [lia|].
  destruct (retried (polls from)) eqn:Hr; [| lia].
  destruct i as [|i]; [by rewrite Nat.add_0_r|].
  intros Hlt. replace (from + S i) with (S from + i) by lia. apply IH. lia.
Qed.

Lemma leadingRetries_stop from n :
  leadingRetries polls from n < n ->
  retried (polls (from + leadingRetries polls from n)) = false.
Proof.
  revert from. induction n as [|n IH]; intros from; cbn [leadingRetries]; [lia|].
  destruct (retried (polls from)) eqn:Hr.
  - intros Hlt. replace (from + S (leadingRetries polls (S from) n))
      with (S from + leadingRetries polls (S from) n) by lia.
    apply IH. lia.
  - intros _. by rewrite Nat.add_0_r.
Qed.

(** The loop in closed form: the leading retried passes, then either the
    ceiling or the pass that concludes. *)
Lemma gatherFrom_closed remaining retries :
  gatherFrom remaining retries polls =
  let k := leadingRetries polls retries remaining in
  if Nat.eqb k remaining then (None, retryEvents retries k)
  else (fst (conclude (polls (retries + k))),
        retryEvents retries k ++ snd (conclude (polls (retries + k)))).
Proof.
  revert retries. induction remaining as [|n IH]; intros retries; [reflexivity|].
  rewrite gatherFrom_step. cbn [leadingRetries]. cbn zeta.
  destruct (retried (polls retries)) eqn:Hr.
  - rewrite IH. cbn zeta.
    change (Nat.eqb (S (leadingRetries polls (S retries) n)) (S n))
      with (Nat.eqb (leadingRetries polls (S retries) n) n).
    destruct (Nat.eqb (leadingRetries polls (S retries) n) n); cbn [fst snd retryEvents].
    + reflexivity.
    + replace (retries + S (leadingRetries polls (S retries) n))
        with (S retries + leadingRetries polls (S retries) n) by lia.
      rewrite <- app_assoc. reflexivity.
  - change (Nat.eqb 0 (S n)) with false. cbn [retryEvents app]. rewrite Nat.add_0_r.
    by destruct (conclude (polls retries)).
Qed.

Lemma delays_retryEvents from n :
  delays (retryEvents from n) = map backoff (seq from n).
Proof.
  revert from. induction n as [|n IH]; intros from; [reflexivity|].
  cbn [retryEvents seq map]. unfold delays in *. cbn. by rewrite IH.
Qed.

Lemma delays_app l1 l2 : delays (l1 ++ l2) = delays l1 ++ delays l2.
Proof. unfold delays. apply omap_app. Qed.

Lemma delays_conclude poll : delays (snd (conclude poll)) = [].
Proof.
  unfold conclude. destruct (programHandle poll); [| reflexivity].
  destruct (response poll) as [[]|]; reflexivity.
Qed.

Lemma count_app f l1 l2 : count f (l1 ++ l2) = count f l1 + count f l2.
Proof. unfold count. by rewrite filter_app, length_app. Qed.

Lemma count_retryEvents f from n :
  (forall ms, f (EvDelay ms) = false) -> f EvEvaluate = false -> f EvLogInfo = false ->
  count f (retryEvents from n) = 0.
Proof.
  intros Hd He Hi. revert from. induction n as [|n IH]; intros from; [reflexivity|].
  cbn [retryEvents]. rewrite count_app, IH. unfold count.
  rewrite !filter_cons, He, Hi, Hd. reflexivity.
Qed.

Lemma count_evaluate_retryEvents from n :
  count isEvaluate (retryEvents from n) = n.
Proof.
  revert from. induction n as [|n IH]; intros from; [reflexivity|].
  cbn [retryEvents]. rewrite count_app, IH. reflexivity.
Qed.

Lemma backoff_0 : backoff 0 = 50%Z.
Proof. reflexivity. Qed.

Lemma backoff_S n : backoff (S n) = (2 * backoff n)%Z.
Proof.
  unfold backoff. rewrite Nat2Z.inj_succ, Z.pow_succ_r by lia. lia.
Qed.

End TelemetryLoop.

(** C8. [gatherTelemetryFromCdp] goes round only on a result that is not
    an object (and then the handle was still set and the value truthy),
    waiting [50 * 2 ^ i] ms after attempt [i], so each delay doubles the
    one before; it makes at most 8 attempts and returns no telemetry when
    all 8 were retried. When the process handle is found cleared after an
    evaluation it returns no telemetry at once, and whenever it returns no
    telemetry nothing was reported or forwarded. When it returns telemetry,
    that is the object of the concluding attempt, reported once and
    forwarded to the process handle once, as the last two effects. *)
Theorem telemetry_retries (polls : nat -> Telemetry.Poll) :
  exists k,
    k = Telemetry.leadingRetries polls 0 Telemetry.maxRetries /\
    k <= Telemetry.maxRetries /\
    (forall i, i < k ->
       exists p v, Telemetry.programHandle (polls i) = Some p /\
                   Telemetry.response (polls i) = Some v /\
                   Telemetry.truthy v = true /\ Telemetry.isObject v = false) /\
    Telemetry.delays (snd (Telemetry.gatherTelemetryFromCdp polls))
      = map Telemetry.backoff (seq 0 k) /\
    Telemetry.backoff 0 = 50%Z /\
    (forall n, Telemetry.backoff (S n) = (2 * Telemetry.backoff n)%Z) /\
    Telemetry.count Telemetry.isEvaluate
      (snd (Telemetry.gatherTelemetryFromCdp polls)) <= Telemetry.maxRetries /\
    (k = Telemetry.maxRetries ->
       Telemetry.gatherTelemetryFromCdp polls = (None, Telemetry.retryEvents 0 k)) /\
    (k < Telemetry.maxRetries ->
       Telemetry.retried (polls k) = false /\
       Telemetry.gatherTelemetryFromCdp polls
       = (fst (Telemetry.conclude (polls k)),
          Telemetry.retryEvents 0 k ++ snd (Telemetry.conclude (polls k)))) /\
    (k < Telemetry.maxRetries -> Telemetry.programHandle (polls k) = None ->
       Telemetry.gatherTelemetryFromCdp polls
       = (None, Telemetry.retryEvents 0 k ++ [Telemetry.EvEvaluate])) /\
    (fst (Telemetry.gatherTelemetryFromCdp polls) = None ->
       Telemetry.count Telemetry.isReport (snd (Telemetry.gatherTelemetryFromCdp polls)) = 0 /\
       Telemetry.count Telemetry.isGotTelemetry
         (snd (Telemetry.gatherTelemetryFromCdp polls)) = 0) /\
    (forall t, fst (Telemetry.gatherTelemetryFromCdp polls) = Some t ->
       k < Telemetry.maxRetries /\
       exists p,
         Telemetry.programHandle (polls k) = Some p /\
         Telemetry.response (polls k) = Some (Telemetry.VObject t) /\
         snd (Telemetry.gatherTelemetryFromCdp polls)
         = Telemetry.retryEvents 0 k
             ++ [Telemetry.EvEvaluate;
                 Telemetry.EvReport (Telemetry.nodeVersion t) (Telemetry.architecture t);
                 Telemetry.EvGotTelemetry p t] /\
         Telemetry.count Telemetry.isReport
           (snd (Telemetry.gatherTelemetryFromCdp polls)) = 1 /\
         Telemetry.count Telemetry.isGotTelemetry
           (snd (Telemetry.gatherTelemetryFromCdp polls)) = 1).
Proof.
  set (k := Telemetry.leadingRetries polls 0 Telemetry.maxRetries).
  assert (Hle : k <= Telemetry.maxRetries) by apply leadingRetries_le.
  assert (Hclosed : Telemetry.gatherTelemetryFromCdp polls =
            if Nat.eqb k Telemetry.maxRetries then (None, Telemetry.retryEvents 0 k)
            else (fst (Telemetry.conclude (polls k)),
                  Telemetry.retryEvents 0 k ++ snd (Telemetry.conclude (polls k)))).
  { unfold Telemetry.gatherTelemetryFromCdp. rewrite gatherFrom_closed. reflexivity. }
  assert (Hnr : forall f, (forall ms, f (Telemetry.EvDelay ms) = false) ->
            f Telemetry.EvEvaluate = false -> f Telemetry.EvLogInfo = false ->
            Telemetry.count f (Telemetry.retryEvents 0 k) = 0).
  { intros f. apply count_retryEvents. }
  assert (Hev : Telemetry.count Telemetry.isEvaluate
                  (Telemetry.retryEvents 0 k) = k).
  { apply count_evaluate_retryEvents. }
  exists k. split; [reflexivity|]. split; [exact Hle|].
  split.
  { intros i Hi. pose proof (leadingRetries_retried polls 0 _ i Hi) as Hr.
    cbn [Nat.add] in Hr. unfold Telemetry.retried in Hr.
    destruct (Telemetry.programHandle (polls i)) as [p|]; [| discriminate].
    destruct (Telemetry.response (polls i)) as [v|]; [| discriminate].
    apply andb_true_iff in Hr as [Ht Ho]. apply negb_true_iff in Ho. eauto 10. }
  split.
  { rewrite Hclosed. destruct (Nat.eqb k Telemetry.maxRetries); cbn [snd].
    - apply delays_retryEvents.
    - rewrite delays_app, delays_retryEvents, delays_conclude. apply app_nil_r. }
  split; [apply backoff_0|]. split; [apply backoff_S|].
  destruct (Nat.eqb_spec k Telemetry.maxRetries) as [Heq | Hne].
  - rewrite Hclosed. cbn [fst snd].
    split; [rewrite Hev; lia|].
    split; [reflexivity|]. split; [lia|]. split; [lia|].
    split; [| discriminate].
    intros _. split; by apply Hnr.
  - assert (Hlt : k < Telemetry.maxRetries) by lia.
    pose proof (leadingRetries_stop polls 0 _ Hlt) as Hstop. cbn [Nat.add] in Hstop.
    fold k in Hstop. rewrite Hclosed. cbn [fst snd].
    split.
    { rewrite count_app, Hev.
      assert (Telemetry.count Telemetry.isEvaluate
                (snd (Telemetry.conclude (polls k))) = 1); [| lia].
      unfold Telemetry.conclude.
      destruct (Telemetry.programHandle (polls k)); [| reflexivity].
      destruct (Telemetry.response (polls k)) as [[]|]; reflexivity. }
    split; [lia|]. split; [auto|].
    split.
    { intros _ Hp. unfold Telemetry.conclude. rewrite Hp. reflexivity. }
    split.
    + intros Hnone. rewrite !count_app, !Hnr by reflexivity.
      unfold Telemetry.conclude in *.
      destruct (Telemetry.programHandle (polls k)); [| by split].
      destruct (Telemetry.response (polls k)) as [[]|]; by split.
    + intros t Ht. split; [exact Hlt|].
      unfold Telemetry.conclude in *.
      destruct (Telemetry.programHandle (polls k)) as [p|]; [| discriminate].
      destruct (Telemetry.response (polls k)) as [[]|]; try discriminate.
      cbn [fst snd] in *. injection Ht as ->. exists p.
      rewrite !count_app, !Hnr by reflexivity. auto.
Qed.

(** A target that defines [process] at the third poll: two delays, 50 ms
    and 100 ms, then one report and one forward. *)
Lemma telemetry_retries_sample :
  Telemetry.gatherTelemetryFromCdp Telemetry.samplePolls =
  (Some Telemetry.sampleTelemetry,
   [Telemetry.EvEvaluate; Telemetry.EvLogInfo; Telemetry.EvDelay 50;
    Telemetry.EvEvaluate; Telemetry.EvLogInfo; Telemetry.EvDelay 100;
    Telemetry.EvEvaluate; Telemetry.EvReport "v12.0.0" "x64";
    Telemetry.EvGotTelemetry 42 Telemetry.sampleTelemetry]).
Proof.
  destruct (telemetry_retries Telemetry.samplePolls)
    as (k & Hk & _ & _ & _ & _ & _ & _ & _ & Hconcl & _).
  vm_compute in Hk. subst k.
  destruct (Hconcl ltac:(unfold Telemetry.maxRetries; lia)) as [_ ->]. reflexivity.
Defined.

(** A target that never defines [process]: 8 attempts, the delays 50, 100,
    ..., 6400 ms, and no telemetry. *)
Lemma telemetry_gives_up :
  fst (Telemetry.gatherTelemetryFromCdp Telemetry.neverDefined) = None /\
  Telemetry.delays (snd (Telemetry.gatherTelemetryFromCdp Telemetry.neverDefined))
  = [50; 100; 200; 400; 800; 1600; 3200; 6400]%Z.
Proof. split; reflexivity. Qed.

(** ** Versions and capabilities *)

Section Versions.

Import NodeBinary.

Lemma lt_spec (a b : Semver) :
  lt a b = true <->
  (major a < major b \/
   (major a = major b /\
    (minor a < minor b \/ (minor a = minor b /\ patch a < patch b))))%Z.
Proof.
  unfold lt, compare.
  destruct (Z.compare_spec (major a) (major b));
    destruct (Z.compare_spec (minor a) (minor b));
    destruct (Z.compare_spec (patch a) (patch b));
    split; intros; try discriminate; try reflexivity; lia.
Qed.

Lemma lt_trans (a b c : Semver) : lt a b = true -> lt b c = true -> lt a c = true.
Proof. rewrite !lt_spec. lia. Qed.

Lemma lt_irrefl (a : Semver) : lt a a = false.
Proof. apply not_true_iff_false. rewrite lt_spec. lia. Qed.

(** A version above one that reaches a threshold reaches it too. *)
Lemma gte_mono (a b t : Semver) : lt a b = true -> gte a t = true -> gte b t = true.
Proof.
  unfold gte. rewrite !negb_true_iff, <- !not_true_iff_false, !lt_spec. lia.
Qed.

Lemma min_spec (a b : Semver) :
  (min a b = a \/ min a b = b) /\ lt a (min a b) = false /\ lt b (min a b) = false.
Proof.
  unfold min. destruct (lt b a) eqn:H.
  - repeat split; auto using lt_irrefl.
    apply not_true_iff_false. intros H'. apply lt_spec in H, H'. lia.
  - repeat split; auto using lt_irrefl.
Qed.

Lemma max_ge_r (a b : Semver) : lt (max a b) b = false.
Proof.
  unfold max. destruct (lt a b) eqn:H; [apply lt_irrefl|].
  apply not_true_iff_false. intros H'. apply not_true_iff_false in H. apply H.
  exact H'.
Qed.

End Versions.

(** C4. Capabilities are monotonic in the version: whatever the threshold
    table, a binary of a precise version [b] above a precise version [a] has
    every capability the binary of version [a] has. For a table that agrees
    with the test-suite's matrix at 12.0.0 and 12.8.0, a 12.0.0 binary has
    spaces-in-require-path and not inspect-publish-uid, and a 12.8.0 binary
    has both (spaces-in-require-path by monotonicity). *)
Theorem capabilities_monotonic (minimumVersion : NodeBinary.Capability -> NodeBinary.Semver) :
  NodeBinary.gte (NodeBinary.v 12 0 0)
    (minimumVersion NodeBinary.UseSpacesInRequirePath) = true ->
  NodeBinary.gte (NodeBinary.v 12 0 0)
    (minimumVersion NodeBinary.UseInspectPublishUid) = false ->
  NodeBinary.gte (NodeBinary.v 12 8 0)
    (minimumVersion NodeBinary.UseInspectPublishUid) = true ->
  (forall c pa pb a b assumeA assumeB,
     NodeBinary.lt a b = true ->
     NodeBinary.has minimumVersion
       {| NodeBinary.path := pa; NodeBinary.version := Some a |} c assumeA = true ->
     NodeBinary.has minimumVersion
       {| NodeBinary.path := pb; NodeBinary.version := Some b |} c assumeB = true) /\
  (forall p assume,
     NodeBinary.has minimumVersion
       {| NodeBinary.path := p; NodeBinary.version := Some (NodeBinary.v 12 0 0) |}
       NodeBinary.UseSpacesInRequirePath assume = true /\
     NodeBinary.has minimumVersion
       {| NodeBinary.path := p; NodeBinary.version := Some (NodeBinary.v 12 0 0) |}
       NodeBinary.UseInspectPublishUid assume = false /\
     NodeBinary.has minimumVersion
       {| NodeBinary.path := p; NodeBinary.version := Some (NodeBinary.v 12 8 0) |}
       NodeBinary.UseSpacesInRequirePath assume = true /\
     NodeBinary.has minimumVersion
       {| NodeBinary.path := p; NodeBinary.version := Some (NodeBinary.v 12 8 0) |}
       NodeBinary.UseInspectPublishUid assume = true).
Proof.
  intros Hspaces Hno Huid. split.
  - intros c pa pb a b assumeA assumeB Hlt. unfold NodeBinary.has. cbn.
    by apply gte_mono.
  - intros p assume. unfold NodeBinary.has. cbn [NodeBinary.version].
    repeat split; try assumption.
    apply (gte_mono (NodeBinary.v 12 0 0)); [reflexivity | assumption].
Qed.

(** The matrix of the test-suite under a table that agrees with it. *)
Lemma capabilities_monotonic_sample :
  NodeBinary.has NodeBinary.sampleThresholds
    {| NodeBinary.path := "node"; NodeBinary.version := Some (NodeBinary.v 12 8 0) |}
    NodeBinary.UseSpacesInRequirePath true = true /\
  NodeBinary.has NodeBinary.sampleThresholds
    {| NodeBinary.path := "node"; NodeBinary.version := Some (NodeBinary.v 12 0 0) |}
    NodeBinary.UseInspectPublishUid true = false.
Proof.
  pose proof (capabilities_monotonic NodeBinary.sampleThresholds
                eq_refl eq_refl eq_refl) as [Hmono Hmatrix].
  split.
  - apply (Hmono NodeBinary.UseSpacesInRequirePath "node" "node"
             (NodeBinary.v 12 0 0) (NodeBinary.v 12 8 0) true true); reflexivity.
  - apply (Hmatrix "node" true).
Defined.

(** C5 (amended). The version of an alternate host is not its reported
    version: only its major version counts, mapped through the host table,
    and the result is the minimum of the mapped version and the version of
    the runtime the host bundles, when that is detectable (the mapped
    version alone otherwise). With a table that maps host 6 to 12.0.0 and
    host 9 to no less than 10.0.0, host v6.1.2 over runtime v14.5.0 resolves
    to 12.0.0 and host v9.0.0 over runtime v10.0.0 to 10.0.0. *)
Theorem host_version_minimum (hostRuntimeVersion : Z -> NodeBinary.Semver) :
  hostRuntimeVersion 6%Z = NodeBinary.v 12 0 0 ->
  NodeBinary.lt (hostRuntimeVersion 9%Z) (NodeBinary.v 10 0 0) = false ->
  (forall host host' bundled,
     NodeBinary.major host = NodeBinary.major host' ->
     NodeBinary.hostVersion hostRuntimeVersion host bundled
     = NodeBinary.hostVersion hostRuntimeVersion host' bundled) /\
  (forall host,
     NodeBinary.hostVersion hostRuntimeVersion host None
     = hostRuntimeVersion (NodeBinary.major host)) /\
  (forall host n,
     (NodeBinary.hostVersion hostRuntimeVersion host (Some n)
        = hostRuntimeVersion (NodeBinary.major host) \/
      NodeBinary.hostVersion hostRuntimeVersion host (Some n) = n) /\
     NodeBinary.lt (hostRuntimeVersion (NodeBinary.major host))
       (NodeBinary.hostVersion hostRuntimeVersion host (Some n)) = false /\
     NodeBinary.lt n (NodeBinary.hostVersion hostRuntimeVersion host (Some n)) = false) /\
  NodeBinary.hostVersion hostRuntimeVersion (NodeBinary.v 6 1 2)
    (Some (NodeBinary.v 14 5 0)) = NodeBinary.v 12 0 0 /\
  NodeBinary.hostVersion hostRuntimeVersion (NodeBinary.v 9 0 0)
    (Some (NodeBinary.v 10 0 0)) = NodeBinary.v 10 0 0.
Proof.
  intros H6 H9. split; [| split; [| split; [| split]]].
  - intros host host' bundled Hm. unfold NodeBinary.hostVersion. by rewrite Hm.
  - reflexivity.
  - intros host n. unfold NodeBinary.hostVersion. apply min_spec.
  - unfold NodeBinary.hostVersion. cbn [NodeBinary.major NodeBinary.v]. rewrite H6.
    reflexivity.
  - unfold NodeBinary.hostVersion, NodeBinary.min. cbn [NodeBinary.major NodeBinary.v].
    destruct (NodeBinary.lt (NodeBinary.v 10 0 0) (hostRuntimeVersion 9%Z)) eqn:Hlt;
      [reflexivity|].
    destruct (hostRuntimeVersion 9%Z) as [a b c].
    apply not_true_iff_false in Hlt, H9. rewrite lt_spec in Hlt, H9. cbn in Hlt, H9.
    unfold NodeBinary.v. f_equal; lia.
Qed.

(** The test-suite's hosts under a table that agrees with it. *)
Lemma host_version_minimum_sample :
  NodeBinary.hostVersion NodeBinary.sampleHostTable (NodeBinary.v 6 1 2)
    (Some (NodeBinary.v 14 5 0)) = NodeBinary.v 12 0 0 /\
  NodeBinary.hostVersion NodeBinary.sampleHostTable (NodeBinary.v 9 0 0)
    (Some (NodeBinary.v 10 0 0)) = NodeBinary.v 10 0 0.
Proof.
  exact (proj2 (proj2 (proj2
           (host_version_minimum NodeBinary.sampleHostTable eq_refl eq_refl)))).
Defined.

(** Combining by maximum cannot give what the test-suite expects: over a
    bundled runtime v14.5.0 a maximum is never 12.0.0, whatever the table. *)
Lemma hostClaimByMaximum_fails : ~ NodeBinary.hostClaimByMaximum.
Proof.
  intros (table & H6 & _). unfold NodeBinary.hostVersionByMaximum in H6.
  pose proof (max_ge_r (table (NodeBinary.major (NodeBinary.v 6 1 2)))
                (NodeBinary.v 14 5 0)) as Hge.
  rewrite H6 in Hge. discriminate.
Qed.

(** C6. Through a package-manager front-end that resolves, a runtime that
    cannot be located is not an error: the result is the front-end's path
    with an undefined, imprecisely known version. A runtime that is located
    and reports a version below the minimum still fails as out of date, with
    both versions, exactly as a direct request does. *)
Theorem package_manager_resolution
    (locate : string -> option string)
    (detectVersion : string -> option NodeBinary.Semver)
    (minimumSupported : NodeBinary.Semver)
    (isPackageManager : string -> bool)
    (executable shim : string) :
  isPackageManager executable = true ->
  executable <> "node" ->
  locate executable = Some shim ->
  (locate "node" = None ->
     NodeBinary.resolveAndValidate locate detectVersion minimumSupported
       isPackageManager executable
     = NodeBinary.Resolved {| NodeBinary.path := shim; NodeBinary.version := None |} /\
     NodeBinary.isPreciselyKnown {| NodeBinary.path := shim; NodeBinary.version := None |}
     = false /\
     NodeBinary.resolveAndValidate locate detectVersion minimumSupported
       isPackageManager "node"
     = NodeBinary.Failed NodeBinary.CannotFindNodeBinary) /\
  (forall runtime detected,
     locate "node" = Some runtime ->
     detectVersion runtime = Some detected ->
     NodeBinary.lt detected minimumSupported = true ->
     NodeBinary.resolveAndValidate locate detectVersion minimumSupported
       isPackageManager executable
     = NodeBinary.Failed (NodeBinary.NodeBinaryOutOfDate detected minimumSupported) /\
     NodeBinary.resolveAndValidate locate detectVersion minimumSupported
       isPackageManager "node"
     = NodeBinary.Failed (NodeBinary.NodeBinaryOutOfDate detected minimumSupported)).
Proof.
  intros Hpm Hne Hshim. split.
  - intros Hnode. unfold NodeBinary.resolveAndValidate, NodeBinary.resolveRuntime.
    rewrite Hshim, Hpm, Hnode. auto.
  - intros runtime detected Hnode Hv Hlt.
    unfold NodeBinary.resolveAndValidate, NodeBinary.resolveRuntime, NodeBinary.validate.
    rewrite Hshim, Hpm, Hnode, Hv, Hlt.
    split; [reflexivity|]. by destruct (isPackageManager "node").
Qed.

(** The two fixtures of the test-suite: [npm] without a runtime resolves
    with an undefined version; [npm] over a v4.0.0 runtime, with a minimum of
    8.0.0, is out of date. *)
Lemma package_manager_resolution_sample :
  NodeBinary.resolveAndValidate NodeBinary.noNode NodeBinary.outdatedVersion
    (NodeBinary.v 8 0 0) NodeBinary.isNpm "npm"
  = NodeBinary.Resolved
      {| NodeBinary.path := "/fixtures/no-node/npm"; NodeBinary.version := None |} /\
  NodeBinary.resolveAndValidate NodeBinary.outdated NodeBinary.outdatedVersion
    (NodeBinary.v 8 0 0) NodeBinary.isNpm "npm"
  = NodeBinary.Failed
      (NodeBinary.NodeBinaryOutOfDate (NodeBinary.v 4 0 0) (NodeBinary.v 8 0 0)).
Proof.
  split.
  - apply (proj1 (package_manager_resolution NodeBinary.noNode NodeBinary.outdatedVersion
                    (NodeBinary.v 8 0 0) NodeBinary.isNpm "npm" "/fixtures/no-node/npm"
                    eq_refl ltac:(discriminate) eq_refl)).
    reflexivity.
  - apply (proj2 (package_manager_resolution NodeBinary.outdated NodeBinary.outdatedVersion
                    (NodeBinary.v 8 0 0) NodeBinary.isNpm "npm" "/fixtures/outdated/npm"
                    eq_refl ltac:(discriminate) eq_refl)
             "/fixtures/outdated/node" (NodeBinary.v 4 0 0)); reflexivity.
Defined.

(** ** Process listings *)

Section Listings.

Import ProcessTree.

Lemma append_cons c (s t : string) : String c s +:+ t = String c (s +:+ t).
Proof. reflexivity. Qed.

Lemma hasSpace_cons c s : hasSpace (String c s) = isSpace c || hasSpace s.
Proof. reflexivity. Qed.

(** A token has no whitespace, and what follows it starts with one. *)
Lemma takeToken_spec (s tok after : string) :
  takeToken s = (tok, after) ->
  s = tok +:+ after /\ hasSpace tok = false /\
  (after = EmptyString \/ exists w rest, after = String w rest /\ isSpace w = true).
Proof.
  revert tok after. induction s as [|c s IH]; intros tok after; cbn [takeToken].
  - intros [= <- <-]. auto.
  - destruct (isSpace c) eqn:Hc.
    + intros [= <- <-]. repeat split; eauto.
    + destruct (takeToken s) as [tok' after'] eqn:Ht. intros [= <- <-].
      destruct (IH tok' after' eq_refl) as (Hs & Hn & Ha).
      repeat split; [| by rewrite hasSpace_cons, Hc, Hn | exact Ha].
      change (String c s = String c (tok' +:+ after')). by rewrite <- Hs.
Qed.

Lemma splitCommand_spec (commandLine : string) :
  hasSpace (fst (splitCommand commandLine)) = false /\
  ((commandLine = fst (splitCommand commandLine) /\
    snd (splitCommand commandLine) = EmptyString) \/
   exists w, isSpace w = true /\
     commandLine = fst (splitCommand commandLine)
                     +:+ String w (snd (splitCommand commandLine))).
Proof.
  unfold splitCommand. destruct (takeToken commandLine) as [tok after] eqn:Ht.
  destruct (takeToken_spec _ _ _ Ht) as (Hs & Hn & Ha). cbn [fst snd].
  split; [exact Hn|].
  destruct Ha as [-> | (w & rest & -> & Hw)].
  - left. split; [| reflexivity]. by rewrite Hs, append_nil_r.
  - right. exists w. auto.
Qed.

Lemma fold_collect (l acc : list IProcess) :
  fold_left (fun acc entry => collect entry acc) l acc = acc ++ l.
Proof.
  revert acc. induction l as [|e l IH]; intros acc; cbn [fold_left].
  - by rewrite app_nil_r.
  - rewrite IH. unfold collect. by rewrite <- app_assoc.
Qed.

Lemma lookup_collect parseLine (text : string) :
  lookup parseLine collect [] text = parseListing parseLine text.
Proof. unfold lookup. apply fold_collect. Qed.

(** *** Offsets *)

Lemma prefix_split (a b : string) :
  String.prefix a b = true -> exists post, b = a +:+ post.
Proof.
  revert b. induction a as [|x a IH]; intros b.
  - intros _. by exists b.
  - destruct b as [|y b]; cbn [String.prefix]; [intros; discriminate|].
    destruct (ascii_dec x y) as [<- |]; [| intros; discriminate].
    intros H. destruct (IH b H) as [post ->]. by exists post.
Qed.

Lemma indexOf_split (needle hay : string) (k : nat) :
  indexOf needle hay = Some k ->
  exists pre post, hay = pre +:+ needle +:+ post /\ String.length pre = k.
Proof.
  revert k. induction hay as [|c hay IH]; intros k; cbn [indexOf].
  - destruct (String.prefix needle "") eqn:Hp; [| discriminate].
    intros [= <-]. destruct (prefix_split _ _ Hp) as [post Hpost].
    by exists "", post.
  - destruct (String.prefix needle (String c hay)) eqn:Hp.
    + intros [= <-]. destruct (prefix_split _ _ Hp) as [post Hpost].
      by exists "", post.
    + destruct (indexOf needle hay) as [j|] eqn:Hj; [| discriminate].
      intros [= <-]. destruct (IH j eq_refl) as (pre & post & -> & Hl).
      exists (String c pre), post. split; [reflexivity|]. cbn. by rewrite Hl.
Qed.

Lemma dropChars_append (a b : string) : dropChars (String.length a) (a +:+ b) = b.
Proof.
  induction a as [|x a IH]; [by destruct b|]. exact IH.
Qed.

Lemma takeChars_append (a b : string) : takeChars (String.length a) (a +:+ b) = a.
Proof.
  induction a as [|x a IH]; [by destruct b|].
  rewrite append_cons. cbn [String.length takeChars]. by rewrite IH.
Qed.

(** *** Blanks and separators *)

Lemma trimEnd_spaces n : trimEnd (spaces n) = "".
Proof. induction n as [|n IH]; [reflexivity|]. cbn [spaces trimEnd]. by rewrite IH. Qed.

Lemma trimEnd_keeps (s : string) : endsWithBlank s = false -> trimEnd s = s.
Proof.
  induction s as [|c s IH]; [reflexivity|].
  destruct s as [|d s].
  - cbn. by intros ->.
  - intros H. change (endsWithBlank (String d s) = false) in H.
    specialize (IH H). cbn [trimEnd] in *. rewrite IH. reflexivity.
Qed.

Lemma trimEnd_padding (s : string) n :
  s <> "" -> endsWithBlank s = false -> trimEnd (s +:+ spaces n) = s.
Proof.
  induction s as [|c s IH]; [done|]. intros _ H.
  destruct s as [|d s].
  - cbn in H. rewrite append_cons. cbn [trimEnd].
    change ("" +:+ spaces n) with (spaces n). by rewrite trimEnd_spaces, H.
  - change (endsWithBlank (String d s) = false) in H.
    rewrite append_cons. cbn [trimEnd]. rewrite IH by done. reflexivity.
Qed.

Lemma skipSeparators_spaces n s : skipSeparators (spaces n +:+ s) = skipSeparators s.
Proof. induction n as [|n IH]; [reflexivity|]. exact IH. Qed.

Lemma skipSeparators_noWord (seps s : string) :
  noWord seps = true -> skipSeparators (seps +:+ s) = skipSeparators s.
Proof.
  induction seps as [|c seps IH]; [reflexivity|].
  unfold noWord. cbn [list_ascii_of_string forallb]. intros [Hc H]%andb_true_iff.
  rewrite append_cons. cbn [skipSeparators].
  apply negb_true_iff in Hc. rewrite Hc. by apply IH.
Qed.

Lemma skipSeparators_word (s : string) : startsWithWord s = true -> skipSeparators s = s.
Proof. destruct s as [|c s]; [done|]. cbn. by intros ->. Qed.

(** *** Decimal notation *)

Lemma digit_digitChar d : d < 10 -> digit (digitChar d) = Some (Z.of_nat d).
Proof.
  intros H. do 10 (destruct d as [|d]; [reflexivity|]). lia.
Qed.

Lemma isWord_digitChar d : d < 10 -> isWord (digitChar d) = true.
Proof.
  intros H. do 10 (destruct d as [|d]; [reflexivity|]). lia.
Qed.

Lemma takeDigits_digitString ds acc c s :
  allDigits ds = true -> digit c = None ->
  takeDigits (Some acc) (digitString ds +:+ String c s)
  = (Some (fold_left (fun a d => (10 * a + Z.of_nat d)%Z) ds acc), String c s).
Proof.
  revert acc. induction ds as [|d ds IH]; intros acc Hd Hc.
  - change (digitString [] +:+ String c s) with (String c s).
    cbn [takeDigits fold_left]. by rewrite Hc.
  - cbn [allDigits forallb] in Hd. apply andb_true_iff in Hd as [Hd Hds].
    apply Nat.ltb_lt in Hd.
    cbn [digitString]. rewrite append_cons. cbn [takeDigits].
    rewrite (digit_digitChar d Hd). cbn [default fold_left]. by apply IH.
Qed.

Lemma takeDigits_number ds c s :
  allDigits ds = true -> ds <> [] -> digit c = None ->
  takeDigits None (digitString ds +:+ String c s) = (Some (decimal ds), String c s).
Proof.
  destruct ds as [|d ds]; [done|]. intros Hd _ Hc.
  pose proof Hd as Hd'. cbn [allDigits forallb] in Hd'.
  apply andb_true_iff in Hd' as [Hd0 Hds]. apply Nat.ltb_lt in Hd0.
  cbn [digitString]. rewrite append_cons. cbn [takeDigits].
  rewrite (digit_digitChar d Hd0). cbn [default].
  rewrite (takeDigits_digitString ds _ c s Hds Hc). reflexivity.
Qed.

Lemma startsWithWord_digitString ds s :
  allDigits ds = true -> ds <> [] -> startsWithWord (digitString ds +:+ s) = true.
Proof.
  destruct ds as [|d ds]; [done|]. intros Hd _.
  cbn [allDigits forallb] in Hd. apply andb_true_iff in Hd as [Hd _].
  apply Nat.ltb_lt in Hd. cbn [digitString]. rewrite append_cons.
  cbn [startsWithWord]. by apply isWord_digitChar.
Qed.

(** The two numbers of a line, and where the numeric columns end. *)
Lemma ids_numericColumns a dp b dpp rest :
  allDigits dp = true -> dp <> [] -> allDigits dpp = true -> dpp <> [] ->
  ids (numericColumns a dp b dpp +:+ String " " rest)
  = Some (decimal dp, decimal dpp, skipSeparators rest).
Proof.
  intros Hp Hp0 Hpp Hpp0. unfold ids, numericColumns.
  rewrite !append_assoc.
  rewrite skipSeparators_spaces.
  rewrite skipSeparators_word by by apply startsWithWord_digitString.
  change (spaces (S b) +:+ ?x) with (String " " (spaces b +:+ x)).
  rewrite (takeDigits_number dp) by done.
  change (skipSeparators (String " " ?x)) with (skipSeparators x).
  rewrite skipSeparators_spaces.
  rewrite skipSeparators_word by by apply startsWithWord_digitString.
  rewrite (takeDigits_number dpp) by done.
  reflexivity.
Qed.

End Listings.

(** C7 (amended). In a fixed-width process listing whose header has
    [COMMAND] at offset [k], a line that starts with the two right-aligned
    numbers and then holds the BINARY column up to offset [k] parses, on
    POSIX, to the record whose pid and ppid are those numbers, whose command
    is the first whitespace token of the full command line (the text from
    offset [k] on) and whose args is everything after that token, the empty
    string if nothing follows. The Darwin variant reads the numbers and the
    command line the same way, but its args is the whole command line and its
    command is the BINARY column, without the separators before it (the
    leading slash, in the sample) and the blanks that pad it. [lookup] folds
    the records through the caller's reducer in the order of the listing,
    and gives exactly the records the test-suite expects of the POSIX sample
    with the POSIX parser and of the Darwin sample with the Darwin one. *)
Theorem posix_listing_records :
  (forall header k,
     ProcessTree.commandOffset header = Some k ->
     exists pre post, header = pre +:+ "COMMAND" +:+ post /\ String.length pre = k) /\
  (forall header k a dp b dpp binaryColumn commandLine,
     ProcessTree.commandOffset header = Some k ->
     ProcessTree.allDigits dp = true -> dp <> [] ->
     ProcessTree.allDigits dpp = true -> dpp <> [] ->
     String.length (ProcessTree.numericColumns a dp b dpp +:+ String " " binaryColumn) = k ->
     exists r,
       ProcessTree.parsePosix header
         ((ProcessTree.numericColumns a dp b dpp +:+ String " " binaryColumn)
          +:+ commandLine) = Some r /\
       ProcessTree.pid r = ProcessTree.decimal dp /\
       ProcessTree.ppid r = ProcessTree.decimal dpp /\
       ProcessTree.hasSpace (ProcessTree.command r) = false /\
       ((commandLine = ProcessTree.command r /\ ProcessTree.args r = EmptyString) \/
        exists w, ProcessTree.isSpace w = true /\
          commandLine = ProcessTree.command r +:+ String w (ProcessTree.args r))) /\
  (forall header k a dp b dpp seps binary c commandLine,
     ProcessTree.commandOffset header = Some k ->
     ProcessTree.allDigits dp = true -> dp <> [] ->
     ProcessTree.allDigits dpp = true -> dpp <> [] ->
     ProcessTree.noWord seps = true ->
     ProcessTree.startsWithWord binary = true ->
     ProcessTree.endsWithBlank binary = false ->
     String.length
       (ProcessTree.numericColumns a dp b dpp
        +:+ String " " (seps +:+ binary +:+ ProcessTree.spaces c)) = k ->
     ProcessTree.parseDarwin header
       ((ProcessTree.numericColumns a dp b dpp
         +:+ String " " (seps +:+ binary +:+ ProcessTree.spaces c))
        +:+ commandLine)
     = Some {| ProcessTree.pid := ProcessTree.decimal dp;
               ProcessTree.ppid := ProcessTree.decimal dpp;
               ProcessTree.command := binary;
               ProcessTree.args := commandLine |}) /\
  (forall (A : Type) parseLine (reducer : ProcessTree.IProcess -> A -> A) (seed : A) text,
     ProcessTree.lookup parseLine ProcessTree.collect [] text
     = ProcessTree.parseListing parseLine text /\
     ProcessTree.lookup parseLine reducer seed text
     = fold_left (fun acc entry => reducer entry acc)
         (ProcessTree.lookup parseLine ProcessTree.collect [] text) seed) /\
  ProcessTree.lookup ProcessTree.parsePosix ProcessTree.collect [] ProcessTree.posixSample
  = ProcessTree.posixExpected /\
  ProcessTree.lookup ProcessTree.parseDarwin ProcessTree.collect [] ProcessTree.darwinSample
  = ProcessTree.darwinExpected.
Proof.
  split; [| split; [| split; [| split; [| split]]]].
  - intros header k Hk. by apply indexOf_split.
  - intros header k a dp b dpp binaryColumn commandLine Hk Hp Hp0 Hpp Hpp0 Hlen.
    unfold ProcessTree.parsePosix. rewrite Hk.
    rewrite (append_assoc (ProcessTree.numericColumns a dp b dpp)).
    change (String " " binaryColumn +:+ commandLine)
      with (String " " (binaryColumn +:+ commandLine)).
    rewrite ids_numericColumns by done.
    change (String " " (binaryColumn +:+ commandLine))
      with (String " " binaryColumn +:+ commandLine).
    rewrite <- (append_assoc (ProcessTree.numericColumns a dp b dpp)).
    rewrite <- Hlen, dropChars_append.
    eexists. split; [reflexivity|].
    cbn [ProcessTree.pid ProcessTree.ppid ProcessTree.command ProcessTree.args].
    destruct (splitCommand_spec commandLine) as [Hn Hs]. auto.
  - intros header k a dp b dpp seps binary c commandLine
      Hk Hp Hp0 Hpp Hpp0 Hseps Hw Hb Hlen.
    unfold ProcessTree.parseDarwin. rewrite Hk.
    set (numbers := ProcessTree.numericColumns a dp b dpp) in *.
    assert (Hline : (numbers +:+ String " " (seps +:+ binary +:+ ProcessTree.spaces c))
                    +:+ commandLine
                    = numbers +:+ String " "
                        (seps +:+ binary +:+ ProcessTree.spaces c +:+ commandLine)).
    { rewrite (append_assoc numbers).
      change (String " " ?x +:+ commandLine) with (String " " (x +:+ commandLine)).
      by rewrite !append_assoc. }
    rewrite Hline at 1. unfold numbers at 1. rewrite ids_numericColumns by done.
    rewrite skipSeparators_noWord by done.
    rewrite skipSeparators_word
      by (destruct binary; [done | by rewrite append_cons]).
    rewrite <- Hlen at 2. rewrite dropChars_append.
    assert (Hcons : String.length
                      ((numbers +:+ String " " (seps +:+ binary +:+ ProcessTree.spaces c))
                       +:+ commandLine)
                    - String.length (binary +:+ ProcessTree.spaces c +:+ commandLine)
                    = String.length (numbers +:+ String " " seps)).
    { rewrite !length_append. cbn [String.length]. rewrite !length_append. lia. }
    rewrite Hcons.
    assert (Hk' : k - String.length (numbers +:+ String " " seps)
                  = String.length (binary +:+ ProcessTree.spaces c)).
    { rewrite <- Hlen. rewrite !length_append. cbn [String.length].
      rewrite !length_append. lia. }
    rewrite Hk'. rewrite <- (append_assoc binary), takeChars_append.
    rewrite trimEnd_padding; [reflexivity | by destruct binary | exact Hb].
  - intros A parseLine reducer seed text. rewrite lookup_collect. split; reflexivity.
  - vm_compute. reflexivity.
  - vm_compute. reflexivity.
Qed.

(** The line of the POSIX sample for pid 540 and the line of the Darwin
    sample for pid 380, each under its header. *)
Lemma posix_listing_records_sample :
  (exists r,
     ProcessTree.parsePosix "   PID   PPID BINARY          COMMAND"
       "   540      1 sh              sh /srv/server.sh --host=127.0.0.1 --port=0"
     = Some r /\
     ProcessTree.pid r = 540%Z /\ ProcessTree.ppid r = 1%Z /\
     ProcessTree.command r = "sh" /\
     ProcessTree.args r = "/srv/server.sh --host=127.0.0.1 --port=0") /\
  ProcessTree.parseDarwin "  PID  PPID BINARY           COMMAND"
    "  380     1 /usr/sbin/cfpref /usr/sbin/cfprefsd agent"
  = Some {| ProcessTree.pid := 380; ProcessTree.ppid := 1;
            ProcessTree.command := "usr/sbin/cfpref";
            ProcessTree.args := "/usr/sbin/cfprefsd agent" |}.
Proof.
  split.
  - destruct (proj1 (proj2 posix_listing_records)
                "   PID   PPID BINARY          COMMAND" 30 3 [5; 4; 0] 5 [1]
                "sh              " "sh /srv/server.sh --host=127.0.0.1 --port=0"
                eq_refl eq_refl ltac:(discriminate) eq_refl ltac:(discriminate) eq_refl)
      as (r & Hr & Hp & Hpp & _).
    exists r. split; [exact Hr|]. split; [exact Hp|]. split; [exact Hpp|].
    vm_compute in Hr. injection Hr as <-. split; reflexivity.
  - exact (proj1 (proj2 (proj2 posix_listing_records))
             "  PID  PPID BINARY           COMMAND" 29 2 [3; 8; 0] 4 [1]
             "/" "usr/sbin/cfpref" 1 "/usr/sbin/cfprefsd agent"
             eq_refl eq_refl ltac:(discriminate) eq_refl ltac:(discriminate)
             eq_refl eq_refl eq_refl eq_refl).
Defined.

(** The first-token rule does not give what the test-suite expects of the
    Darwin sample: there the command is the BINARY column. *)
Lemma bothSamplesByFirstToken_fails : ~ ProcessTree.bothSamplesByFirstToken.
Proof.
  intros [_ H]. vm_compute in H. discriminate.
Qed.

(* ===================================================================== *)
(** * Part III: further properties of the launcher                        *)
(* ===================================================================== *)

(** ** The opener walk ends within [size seen] turns, or never *)

Section WalkBound.

Import Launcher OpenerChain.

Variable tg : gmap string Target.
Variable seen : gmap string (option string).

Lemma visit_add a b o : visit (a + b) seen o = visit b seen (visit a seen o).
Proof. revert o. induction a as [|a IH]; intros o; [reflexivity | apply IH]. Qed.

Lemma walkOpeners_unfold fuel o :
  walkOpeners (S fuel) tg seen o =
  if keepWalking tg seen o then walkOpeners fuel tg seen (advance seen o) else Some o.
Proof.
  cbn [walkOpeners]. destruct (keepWalking tg seen o) eqn:Hk; [| reflexivity].
  apply keepWalking_true in Hk as (i & -> & _). reflexivity.
Qed.

(** A result is the first id at which the loop condition fails. *)
Lemma walk_stops_at fuel o r :
  walkOpeners fuel tg seen o = Some r ->
  exists n, n <= fuel /\ visit n seen o = r /\ keepWalking tg seen r = false /\
            forall j, j < n -> keepWalking tg seen (visit j seen o) = true.
Proof.
  revert o. induction fuel as [|fuel IH]; intros o.
  - cbn [walkOpeners]. destruct (keepWalking tg seen o) eqn:Hk; [discriminate|].
    intros [= <-]. exists 0. split; [lia|]. split; [reflexivity|].
    split; [exact Hk|]. intros j Hlt. lia.
  - rewrite walkOpeners_unfold. destruct (keepWalking tg seen o) eqn:Hk.
    + intros Hw. destruct (IH _ Hw) as (n & Hle & Hv & Hr & Hj).
      exists (S n). split; [lia|]. split; [exact Hv|]. split; [exact Hr|].
      intros [|j] Hlt; [exact Hk|]. apply Hj. lia.
    + intros [= <-]. exists 0. split; [lia|]. split; [reflexivity|].
      split; [exact Hk|]. intros j Hlt. lia.
Qed.

Lemma walk_reaches n o :
  (forall j, j < n -> keepWalking tg seen (visit j seen o) = true) ->
  keepWalking tg seen (visit n seen o) = false ->
  walkOpeners n tg seen o = Some (visit n seen o).
Proof.
  revert o. induction n as [|n IH]; intros o Hj Hn.
  - cbn [walkOpeners visit] in *. by rewrite Hn.
  - rewrite walkOpeners_unfold.
    pose proof (Hj 0 ltac:(lia)) as H0. cbn [visit] in H0. rewrite H0.
    apply IH; [| exact Hn]. intros j Hlt. apply (Hj (S j)). lia.
Qed.

(** Before it stops the loop never holds the same id twice: from a repeated
    id on it would repeat itself for ever. *)
Lemma visit_distinct n o a b :
  (forall j, j < n -> keepWalking tg seen (visit j seen o) = true) ->
  keepWalking tg seen (visit n seen o) = false ->
  a < b -> b < n -> visit a seen o <> visit b seen o.
Proof.
  intros Hj Hn Hab Hbn Heq.
  assert (Hshift : visit (a + (n - b)) seen o = visit n seen o).
  { rewrite visit_add, Heq, <- visit_add. f_equal. lia. }
  rewrite <- Hshift in Hn. rewrite Hj in Hn by lia. discriminate.
Qed.

Lemma walk_length_bound n o :
  (forall j, j < n -> keepWalking tg seen (visit j seen o) = true) ->
  keepWalking tg seen (visit n seen o) = false ->
  n <= size seen.
Proof.
  intros Hj Hn.
  assert (Hid : forall j, j < n -> exists i,
             visit j seen o = Some i /\ is_Some (seen !! i)).
  { intros j Hlt. destruct (proj1 (keepWalking_true tg seen _) (Hj j Hlt))
      as (i & Hi & _ & _ & Hs). eauto. }
  assert (Hnd : NoDup (visited n seen o)).
  { unfold visited. apply NoDup_fmap_2_strong; [| apply NoDup_seq].
    intros x y Hx%elem_of_seq Hy%elem_of_seq Hxy.
    destruct (Hid x ltac:(lia)) as (ix & Hvx & _).
    destruct (Hid y ltac:(lia)) as (iy & Hvy & _).
    rewrite Hvx, Hvy in Hxy. cbn in Hxy. subst iy.
    destruct (Nat.lt_trichotomy x y) as [Hlt | [-> | Hgt]]; [| reflexivity |].
    - exfalso. apply (visit_distinct n o x y Hj Hn Hlt ltac:(lia)). congruence.
    - exfalso. apply (visit_distinct n o y x Hj Hn Hgt ltac:(lia)). congruence. }
  assert (Hsub : (list_to_set (visited n seen o) : gset string) ⊆ dom seen).
  { intros i Hi%elem_of_list_to_set. unfold visited in Hi.
    apply list_elem_of_fmap in Hi as (j & -> & Hjn%elem_of_seq).
    destruct (Hid j ltac:(lia)) as (i & Hv & Hs). rewrite Hv. cbn.
    by apply elem_of_dom. }
  apply subseteq_size in Hsub. rewrite size_list_to_set in Hsub by exact Hnd.
  rewrite size_dom in Hsub. unfold visited in Hsub.
  rewrite length_fmap, length_seq in Hsub. exact Hsub.
Qed.

Lemma walk_within_size fuel o r :
  walkOpeners fuel tg seen o = Some r -> walkOpeners (size seen) tg seen o = Some r.
Proof.
  intros Hw. destruct (walk_stops_at _ _ _ Hw) as (n & _ & Hv & Hr & Hj).
  subst r. pose proof (walk_length_bound n o Hj Hr) as Hle.
  apply (walkOpeners_mono tg seen n); [exact Hle|]. by apply walk_reaches.
Qed.

(** An id recorded as its own opener, and not live, is never left. *)
Lemma walk_self_opener i fuel :
  i <> "" -> tg !! i = None -> seen !! i = Some (Some i) ->
  walkOpeners fuel tg seen (Some i) = None.
Proof.
  intros Hne Hdead Hseen.
  assert (Hk : keepWalking tg seen (Some i) = true).
  { apply keepWalking_true. exists i. rewrite Hseen. eauto. }
  induction fuel as [|fuel IH].
  - cbn [walkOpeners]. by rewrite Hk.
  - rewrite walkOpeners_unfold, Hk. cbn [advance]. unfold openedBy.
    rewrite Hseen. exact IH.
Qed.

End WalkBound.

(** X1. The opener walk of [_startSession] either leaves its loop within as
    many turns as SeenOpeners has entries, with the same result whatever the
    number of turns allowed beyond that, or it never leaves it; it never
    leaves it when it starts from an id that is not live and is recorded as
    its own opener. *)
Theorem opener_walk_bounded (tg : gmap string Launcher.Target)
    (seen : gmap string (option string)) :
  (forall o r,
     (exists fuel, Launcher.walkOpeners fuel tg seen o = Some r) <->
     Launcher.walkOpeners (size seen) tg seen o = Some r) /\
  (forall o,
     (forall fuel, Launcher.walkOpeners fuel tg seen o = None) <->
     Launcher.walkOpeners (size seen) tg seen o = None) /\
  (forall i fuel,
     i <> "" -> tg !! i = None -> seen !! i = Some (Some i) ->
     Launcher.walkOpeners fuel tg seen (Some i) = None).
Proof.
  split; [| split].
  - intros o r. split; [intros [fuel Hw]; by eapply walk_within_size | eauto].
  - intros o. split; [auto|]. intros Hnone fuel.
    destruct (Launcher.walkOpeners fuel tg seen o) as [r|] eqn:Hw; [| reflexivity].
    apply walk_within_size in Hw. congruence.
  - intros i fuel. apply walk_self_opener.
Qed.

(** ** Handshakes and disconnects, composed *)

Section Handshakes.

Import Launcher.

Context {Cfg : Type}.
Variable resolveParams : Cfg -> option Params.

(** The walk from a live, non-empty id stops where it starts. *)
Lemma walk_live fuel tg seen i t :
  tg !! i = Some t -> walkOpeners fuel tg seen (Some i) = Some (Some i).
Proof.
  intros Ht.
  assert (Hk : keepWalking tg seen (Some i) = false).
  { apply keepWalking_false. right. left. simpl. eauto. }
  destruct fuel; cbn [walkOpeners]; by rewrite Hk.
Qed.

(** The walk from an id that has gone, recorded with a live opener, takes
    one turn. *)
Lemma walk_past_gone fuel tg seen a b ta :
  1 <= fuel -> b <> "" -> tg !! b = None -> seen !! b = Some (Some a) ->
  tg !! a = Some ta ->
  walkOpeners fuel tg seen (Some b) = Some (Some a).
Proof.
  intros Hfuel Hb Hdead Hseen Hlive.
  apply (walkOpeners_mono tg seen 1); [exact Hfuel|].
  cbn [walkOpeners].
  assert (Hk : keepWalking tg seen (Some b) = true).
  { apply keepWalking_true. exists b. rewrite Hseen. eauto. }
  rewrite Hk. unfold openedBy. rewrite Hseen. cbn [mjoin option_join].
  assert (Hk' : keepWalking tg seen (Some a) = false).
  { apply keepWalking_false. right. left. simpl. eauto. }
  by rewrite Hk'.
Qed.

Lemma performAll_cons fuel op ops (s : State) :
  performAll resolveParams fuel (op :: ops) s =
  match valueOf (perform resolveParams fuel op s) with
  | Some _ => performAll resolveParams fuel ops (stateOf (perform resolveParams fuel op s))
  | None => None
  end.
Proof. reflexivity. Qed.

Lemma reparent_sequence fuel (s : State) rd a b c ta :
  1 <= fuel -> run s = Some rd ->
  a <> "" -> b <> "" -> a <> b -> targets s !! a = Some ta ->
  exists s',
    performAll resolveParams fuel
      [ OpTargetCreated {| targetId := b; openerId := Some a |};
        OpTargetDisconnected b;
        OpTargetCreated {| targetId := c; openerId := Some b |} ] s = Some s' /\
    targets s' !! c
    = Some (NodeTarget {| targetId := c; openerId := Some b |} (Some ta)) /\
    seenOpeners s' !! c = Some (Some b) /\
    (c <> b -> targets s' !! b = None /\ seenOpeners s' !! b = Some (Some a)).
Proof.
  intros Hfuel Hrun Ha Hb Hab Hlive.
  rewrite performAll_cons. cbn [perform].
  rewrite targetCreated_eq, Hrun. rewrite (walk_live fuel _ _ a ta Hlive).
  cbn [valueOf stateOf fst snd].
  rewrite performAll_cons. cbn [perform]. rewrite discard_value, discard_state.
  unfold targetDisconnected, modify. cbn [stateOf fst snd].
  rewrite performAll_cons. cbn [perform].
  rewrite targetCreated_eq.
  cbn [run targets seenOpeners set_targets set_seenOpeners]. rewrite Hrun.
  rewrite (walk_past_gone fuel _ _ a b ta Hfuel Hb).
  - cbn [valueOf stateOf fst snd performAll].
    eexists. split; [reflexivity|].
    cbn [targets seenOpeners set_targets set_seenOpeners parentFor].
    apply truthy_Some_iff in Ha. rewrite Ha.
    cbn [targetId openerId].
    assert (Hba : b <> a) by congruence.
    rewrite (lookup_delete_ne _ b a Hba), (lookup_insert_ne _ b a _ Hba), Hlive.
    split; [apply lookup_insert_eq|]. split; [apply lookup_insert_eq|].
    intros Hcb. rewrite !(lookup_insert_ne _ c b) by exact Hcb.
    by rewrite lookup_delete_eq, lookup_insert_eq.
  - apply lookup_delete_eq.
  - apply lookup_insert_eq.
  - cbn [targetId]. assert (Hba : b <> a) by congruence.
    rewrite (lookup_delete_ne _ b a Hba), (lookup_insert_ne _ b a _ Hba). exact Hlive.
Qed.

(** The effects of [_stopServer], in order: the server is closed, every
    tracked connection is closed, and the queued disposal of the bootloader
    file runs. *)
Lemma _stopServer_log (s : State) :
  logOf (_stopServer s) =
  match run s with Some r => [EvServerClose (server r)] | None => [] end
  ++ map EvConnectionClose (serverConnections s)
  ++ match bootloaderFile s with Some f => [EvDisposeBootloader (dispose f)] | None => [] end.
Proof.
  unfold _stopServer, mbind, M_bind, get, logOf.
  destruct (run s), (bootloaderFile s); cbn; rewrite closeAllConnections_eq; cbn;
    rewrite ?app_nil_r; reflexivity.
Qed.

(** A handshake that completes after the run was cleared discards the
    socket and records nothing, whatever the walk would have done. *)
Lemma targetCreated_no_run fuel info (s : State) :
  run s = None ->
  targetCreated fuel info s = (Some tt, s, [EvRegisterPortLease info; EvSocketDestroy]).
Proof. intros Hr. by rewrite targetCreated_eq, Hr. Qed.

Lemma acceptSocket_eq c (s : State) :
  acceptSocket c s =
  (tt, match run s with
       | Some _ => set_serverConnections (setAdd c (serverConnections s)) s
       | None => s
       end, []).
Proof. unfold acceptSocket, mbind, M_bind, get. by destruct (run s). Qed.

Lemma elem_of_setAdd c d (l : list Connection) : d ∈ setAdd c l <-> d = c \/ d ∈ l.
Proof.
  unfold setAdd. case_bool_decide as Hin.
  - split; [auto|]. intros [-> | ?]; auto.
  - rewrite elem_of_app, list_elem_of_singleton. tauto.
Qed.

End Handshakes.

(** X2. Handshake, disconnect and handshake compose as the comment on
    [seenOpeners] promises: on an active run where [a] is live, when a
    target [b] opened by [a] connects and disconnects and then a target [c]
    opened by [b] connects, [c] is built with [a]'s target as parent and is
    added to the live map; [b] has left the live map but is still recorded
    with opener [a]. *)
Theorem reparent_after_spawner_exit {Cfg : Type}
    (resolveParams : Cfg -> option Launcher.Params) (fuel : nat)
    (s : Launcher.State) (rd : Launcher.RunData) (a b c : string)
    (ta : Launcher.Target) :
  1 <= fuel -> Launcher.run s = Some rd ->
  a <> "" -> b <> "" -> a <> b -> Launcher.targets s !! a = Some ta ->
  exists s',
    Launcher.performAll resolveParams fuel
      [ Launcher.OpTargetCreated {| Launcher.targetId := b; Launcher.openerId := Some a |};
        Launcher.OpTargetDisconnected b;
        Launcher.OpTargetCreated {| Launcher.targetId := c; Launcher.openerId := Some b |} ]
      s = Some s' /\
    Launcher.targets s' !! c
    = Some (Launcher.NodeTarget
              {| Launcher.targetId := c; Launcher.openerId := Some b |} (Some ta)) /\
    Launcher.seenOpeners s' !! c = Some (Some b) /\
    (c <> b ->
     Launcher.targets s' !! b = None /\ Launcher.seenOpeners s' !! b = Some (Some a)).
Proof. apply reparent_sequence. Qed.

(** On the sample run: [P] is opened by the live [A] and exits, then [Q]
    is opened by [P]. *)
Lemma reparent_after_spawner_exit_sample :
  exists s',
    Launcher.performAll (fun _ : unit => None) 1
      [ Launcher.OpTargetCreated {| Launcher.targetId := "P"; Launcher.openerId := Some "A" |};
        Launcher.OpTargetDisconnected "P";
        Launcher.OpTargetCreated {| Launcher.targetId := "Q"; Launcher.openerId := Some "P" |} ]
      Launcher.sampleRunning = Some s' /\
    Launcher.targets s' !! "Q"
    = Some (Launcher.NodeTarget
              {| Launcher.targetId := "Q"; Launcher.openerId := Some "P" |}
              (Some Launcher.targetA)).
Proof.
  destruct (reparent_after_spawner_exit (fun _ : unit => None) 1 Launcher.sampleRunning
              Launcher.sampleRun "A" "P" "Q" Launcher.targetA
              (le_n 1) eq_refl ltac:(discriminate) ltac:(discriminate)
              ltac:(discriminate) eq_refl) as (s' & Hs & Ht & _).
  exists s'. split; [exact Hs | exact Ht].
Defined.

(** X3. A socket accepted while no run is active is not tracked. A
    handshake that completes after the run was cleared still registers the
    port lease of the announced target, then destroys the socket, and leaves
    the launcher's own state as it is: no target, no SeenOpeners entry, and
    no opener walk (so it completes even where the walk would not). When the
    teardown happens between the accept and the handshake, the accepted
    connection is among those the teardown closes. *)
Theorem handshake_after_teardown (fuel : nat) (info : Launcher.TargetInfo)
    (c : Launcher.Connection) (s : Launcher.State) :
  (Launcher.run s = None ->
     Launcher.acceptSocket c s = (tt, s, []) /\
     Launcher.targetCreated fuel info s
     = (Some tt, s, [Launcher.EvRegisterPortLease info; Launcher.EvSocketDestroy])) /\
  (forall rd, Launcher.run s = Some rd ->
     Launcher.EvConnectionClose c
       ∈ Launcher.logOf (Launcher._stopServer (Launcher.stateOf (Launcher.acceptSocket c s))) /\
     Launcher.targetCreated fuel info
       (Launcher.stateOf (Launcher._stopServer (Launcher.stateOf (Launcher.acceptSocket c s))))
     = (Some tt,
        Launcher.stateOf (Launcher._stopServer (Launcher.stateOf (Launcher.acceptSocket c s))),
        [Launcher.EvRegisterPortLease info; Launcher.EvSocketDestroy])).
Proof.
  split.
  - intros Hr. split; [by rewrite acceptSocket_eq, Hr | by apply targetCreated_no_run].
  - intros rd Hr. rewrite acceptSocket_eq, Hr. cbn [Launcher.stateOf fst snd].
    split.
    + rewrite _stopServer_log. cbn [Launcher.serverConnections Launcher.set_serverConnections].
      rewrite !elem_of_app, list_elem_of_fmap. right. left.
      exists c. split; [reflexivity|]. apply elem_of_setAdd. by left.
    + rewrite targetCreated_no_run; [reflexivity|]. by rewrite _stopServer_state.
Qed.

(** ** Teardown, termination, launch and restart *)

Section Lifecycle.

Import Launcher.

Context {Cfg : Type}.
Variable resolveParams : Cfg -> option Params.

Lemma _stopServer_eq (s : State) :
  _stopServer s = (tt, stopped s, logOf (_stopServer s)).
Proof.
  pose proof (_stopServer_state s) as Hs. unfold stateOf, logOf in *.
  destruct (_stopServer s) as [[[] s1] e1]. cbn in *. by subst.
Qed.

Lemma _stopServer_again (s : State) :
  _stopServer (stopped s) = (tt, stopped s, []).
Proof. rewrite _stopServer_eq, _stopServer_log. reflexivity. Qed.

Lemma onProgramTerminated_eq (s : State) :
  onProgramTerminated s =
  (tt, set_program None (stopped s), EvTerminated :: logOf (_stopServer s)).
Proof.
  unfold onProgramTerminated, mbind, M_bind, emit, modify.
  rewrite _stopServer_eq. cbn. by rewrite ?app_nil_r.
Qed.

Lemma terminate_running (s : State) p :
  program s = Some p -> terminate s = (tt, s, [EvProgramStop p (Some p)]).
Proof.
  intros Hp. unfold terminate, programStop, mbind, M_bind, get, emit. rewrite Hp.
  cbn. by rewrite Hp.
Qed.

Lemma terminate_idle (s : State) :
  program s = None ->
  terminate s = (tt, set_program None (stopped s), EvTerminated :: logOf (_stopServer s)).
Proof.
  intros Hp. unfold terminate, mbind, M_bind, get. rewrite Hp.
  cbn beta iota. rewrite onProgramTerminated_eq. reflexivity.
Qed.


(** A restart on an active run ends with the relaunch and leaves the run
    data as it was. *)
Lemma restart_relaunches np gone spawned (s : State) r :
  run s = Some r ->
  exists pre s',
    restart resolveParams np gone spawned s
    = (Some tt, s', pre ++ [EvLaunchProgram (relaunchData resolveParams r np)]) /\
    run s' = Some r /\ program s' = spawned.
Proof.
  intros Hr. destruct (program s) as [p|] eqn:Hp.
  - rewrite (restart_program resolveParams np gone spawned s r p Hr Hp).
    eexists (_ :: _), _. split; [reflexivity|]. split; [exact Hr | reflexivity].
  - rewrite (restart_no_program resolveParams np gone spawned s r Hr Hp).
    exists [], (set_program spawned s). split; [reflexivity|].
    split; [exact Hr | reflexivity].
Qed.

End Lifecycle.

(** X4. [_stopServer] (and so [dispose]) closes the server of the active
    run if there is one, then closes every tracked connection once, in the
    order they were accepted; the disposal of the bootloader file, if one was
    made, is only queued by it and runs after the connections are closed.
    It leaves no run, no memoised bootloader file and no tracked connection.
    A second teardown has no effect at all. *)
Theorem stopServer_teardown (s : Launcher.State) :
  Launcher.logOf (Launcher._stopServer s) =
  match Launcher.run s with
  | Some r => [Launcher.EvServerClose (Launcher.server r)]
  | None => []
  end
  ++ map Launcher.EvConnectionClose (Launcher.serverConnections s)
  ++ match Launcher.bootloaderFile s with
     | Some f => [Launcher.EvDisposeBootloader (Launcher.dispose f)]
     | None => []
     end /\
  Launcher.disposeLauncher s = Launcher._stopServer s /\
  Launcher.run (Launcher.stateOf (Launcher._stopServer s)) = None /\
  Launcher.serverConnections (Launcher.stateOf (Launcher._stopServer s)) = [] /\
  Launcher.bootloaderFile (Launcher.stateOf (Launcher._stopServer s)) = None /\
  Launcher._stopServer (Launcher.stateOf (Launcher._stopServer s))
  = (tt, Launcher.stateOf (Launcher._stopServer s), []).
Proof.
  split; [apply _stopServer_log|].
  split; [reflexivity|].
  rewrite _stopServer_state.
  split; [reflexivity|]. split; [reflexivity|]. split; [reflexivity|].
  apply _stopServer_again.
Qed.

(** The teardown of the sample run after its program has gone: the server,
    the two connections, and only then the wrapper beside the working
    directory. *)
Lemma stopServer_teardown_sample :
  Launcher.logOf (Launcher._stopServer Reachable.sampleExited) =
  [Launcher.EvServerClose 1; Launcher.EvConnectionClose 7; Launcher.EvConnectionClose 8;
   Launcher.EvDisposeBootloader (Launcher.Unlink "/work/.vscode-js-debug-bootloader.js")].
Proof.
  exact (proj1 (stopServer_teardown Reachable.sampleExited)).
Defined.

(** X5. [terminate] with a program handle only asks the program to stop:
    nothing is torn down and no termination event is fired. Without a handle
    it fires the termination event and then tears the server down itself
    (server, connections, then the queued disposal), leaving no run, no
    handle and no tracked connection; calling it again then fires the
    termination event again, and does nothing else. *)
Theorem terminate_behaviour (s : Launcher.State) :
  (forall p, Launcher.program s = Some p ->
     Launcher.terminate s = (tt, s, [Launcher.EvProgramStop p (Some p)])) /\
  (Launcher.program s = None ->
     Launcher.logOf (Launcher.terminate s)
     = Launcher.EvTerminated
         :: match Launcher.run s with
            | Some r => [Launcher.EvServerClose (Launcher.server r)]
            | None => []
            end
         ++ map Launcher.EvConnectionClose (Launcher.serverConnections s)
         ++ match Launcher.bootloaderFile s with
            | Some f => [Launcher.EvDisposeBootloader (Launcher.dispose f)]
            | None => []
            end /\
     Launcher.run (Launcher.stateOf (Launcher.terminate s)) = None /\
     Launcher.program (Launcher.stateOf (Launcher.terminate s)) = None /\
     Launcher.serverConnections (Launcher.stateOf (Launcher.terminate s)) = [] /\
     Launcher.terminate (Launcher.stateOf (Launcher.terminate s))
     = (tt, Launcher.stateOf (Launcher.terminate s), [Launcher.EvTerminated])).
Proof.
  split; [intros p; apply terminate_running|].
  intros Hp. rewrite (terminate_idle s Hp).
  cbn [Launcher.stateOf Launcher.logOf fst snd]. rewrite _stopServer_log.
  split; [reflexivity|]. split; [reflexivity|]. split; [reflexivity|].
  split; [reflexivity|].
  rewrite terminate_idle by reflexivity. rewrite _stopServer_log. reflexivity.
Qed.

(** Both branches on the sample run: with its program running, terminate
    only asks program 42 to stop; after the program has gone, it fires the
    termination event and tears down the server, the two connections and the
    wrapper file, and a second call only fires the event again. *)
Lemma terminate_behaviour_sample :
  Launcher.terminate Launcher.sampleRunning
  = (tt, Launcher.sampleRunning, [Launcher.EvProgramStop 42 (Some 42)]) /\
  Launcher.logOf (Launcher.terminate Reachable.sampleExited)
  = [Launcher.EvTerminated; Launcher.EvServerClose 1;
     Launcher.EvConnectionClose 7; Launcher.EvConnectionClose 8;
     Launcher.EvDisposeBootloader (Launcher.Unlink "/work/.vscode-js-debug-bootloader.js")] /\
  Launcher.logOf
    (Launcher.terminate (Launcher.stateOf (Launcher.terminate Reachable.sampleExited)))
  = [Launcher.EvTerminated].
Proof.
  split; [exact (proj1 (terminate_behaviour Launcher.sampleRunning) 42 eq_refl)|].
  destruct (proj2 (terminate_behaviour Reachable.sampleExited) eq_refl)
    as (Hlog & _ & _ & _ & Hagain).
  split; [exact Hlog|]. rewrite Hagain. reflexivity.
Defined.



(** X7. [restart] never stores the parameters it relaunches with: the run
    data is left as it was, so a later restart without new parameters
    relaunches with the parameters of the original launch, not with those the
    earlier restart was given. The cancellation of every relaunch is scoped
    by the timeout of the run's own parameters, also when the new parameters
    carry another timeout, and is never-cancelled when that timeout is not
    positive. *)
Theorem restart_forgets_new_params {Cfg : Type}
    (resolveParams : Cfg -> option Launcher.Params)
    (np1 : option Cfg) (gone1 gone2 : list Launcher.Connection)
    (spawned1 spawned2 : option Launcher.Program)
    (s : Launcher.State) (r : Launcher.RunData) :
  Launcher.run s = Some r ->
  Launcher.run (Launcher.stateOf (Launcher.restart resolveParams np1 gone1 spawned1 s))
  = Some r /\
  (exists pre,
     Launcher.logOf (Launcher.restart resolveParams np1 gone1 spawned1 s)
     = pre ++ [Launcher.EvLaunchProgram (Launcher.relaunchData resolveParams r np1)]) /\
  (exists pre,
     Launcher.logOf
       (Launcher.restart resolveParams None gone2 spawned2
          (Launcher.stateOf (Launcher.restart resolveParams np1 gone1 spawned1 s)))
     = pre ++ [Launcher.EvLaunchProgram
                 {| Launcher.server := Launcher.server r;
                    Launcher.serverAddress := Launcher.serverAddress r;
                    Launcher.params := Launcher.params r;
                    Launcher.cancellationToken :=
                      Launcher.cancellationToken (Launcher.relaunchData resolveParams r np1) |}]) /\
  Launcher.cancellationToken (Launcher.relaunchData resolveParams r np1)
  = (if (0 <? Launcher.timeout (Launcher.params r))%Z
     then Launcher.WithTimeout (Launcher.timeout (Launcher.params r))
     else Launcher.NeverCancelled).
Proof.
  intros Hr.
  destruct (restart_relaunches resolveParams np1 gone1 spawned1 s r Hr)
    as (pre1 & s1 & H1 & Hr1 & _).
  rewrite H1. cbn [Launcher.stateOf Launcher.logOf fst snd].
  split; [exact Hr1|]. split; [eauto|]. split; [| reflexivity].
  destruct (restart_relaunches resolveParams None gone2 spawned2 s1 r Hr1)
    as (pre2 & s2 & H2 & _). rewrite H2. cbn [Launcher.logOf snd]. eauto.
Qed.

(** The sample run restarted with parameters that carry a timeout of
    500 ms, then restarted again: the second relaunch has the original
    parameters, and both are scoped by the original 10000 ms. *)
Lemma restart_forgets_new_params_sample :
  exists pre,
    Launcher.logOf
      (Launcher.restart
         (fun ms : Z => Some {| Launcher.timeout := ms; Launcher.cwd := None;
                                Launcher.label := "attach" |})
         None [] None
         (Launcher.stateOf
            (Launcher.restart
               (fun ms : Z => Some {| Launcher.timeout := ms; Launcher.cwd := None;
                                      Launcher.label := "attach" |})
               (Some 500%Z) [7; 8] (Some 43) Launcher.sampleRunning)))
    = pre ++ [Launcher.EvLaunchProgram
                {| Launcher.server := 1;
                   Launcher.serverAddress := "/tmp/node-cdp.1-1.sock";
                   Launcher.params := Launcher.params Launcher.sampleRun;
                   Launcher.cancellationToken := Launcher.WithTimeout 10000 |}].
Proof.
  exact (proj1 (proj2 (proj2
           (restart_forgets_new_params
              (fun ms : Z => Some {| Launcher.timeout := ms; Launcher.cwd := None;
                                     Launcher.label := "attach" |})
              (Some 500%Z) [7; 8] [] (Some 43) None
              Launcher.sampleRunning Launcher.sampleRun eq_refl)))).
Defined.

(** X8. Once the program has terminated ([onProgramTerminated]) or the
    launcher was disposed, [restart] stops nothing, closes nothing and
    launches nothing: it returns with the state as it found it, whatever
    parameters it is given. *)
Theorem restart_after_teardown {Cfg : Type}
    (resolveParams : Cfg -> option Launcher.Params)
    (np : option Cfg) (gone : list Launcher.Connection)
    (spawned : option Launcher.Program) (s : Launcher.State) :
  Launcher.restart resolveParams np gone spawned
    (Launcher.stateOf (Launcher.onProgramTerminated s))
  = (Some tt, Launcher.stateOf (Launcher.onProgramTerminated s), []) /\
  Launcher.restart resolveParams np gone spawned
    (Launcher.stateOf (Launcher.disposeLauncher s))
  = (Some tt, Launcher.stateOf (Launcher.disposeLauncher s), []).
Proof.
  split; apply restart_idle.
  - by rewrite onProgramTerminated_state.
  - unfold Launcher.disposeLauncher. by rewrite _stopServer_state.
Qed.

(** ** Invariants of the reachable states *)

Section ReachableStates.

Import Launcher Reachable.

Context {Cfg : Type}.
Variable resolveParams : Cfg -> option Params.
Variable fuel : nat.

Lemma wellFormed_initial : wellFormed initial.
Proof.
  split; [reflexivity|]. split.
  - intros i t H. cbn [targets initial] in H. by rewrite lookup_empty in H.
  - intros i info p H. cbn [targets initial] in H. by rewrite lookup_empty in H.
Qed.

(** A state that differs from a well-formed one only in its run, program
    and bootloader fields, with connections dropped or the run kept. *)
Lemma wellFormed_same_maps (s s' : State) :
  wellFormed s ->
  targets s' = targets s -> seenOpeners s' = seenOpeners s ->
  (run s' = None -> serverConnections s' = []) ->
  wellFormed s'.
Proof.
  intros (_ & Hid & Hseen) Ht Hs Hc. split; [exact Hc|].
  rewrite Ht, Hs. by split.
Qed.

Lemma wellFormed_perform (op : Op Cfg) (s : State) :
  wellFormed s -> wellFormed (stateOf (perform resolveParams fuel op s)).
Proof.
  intros Hwf. pose proof Hwf as (Hconn & Hid & Hseen).
  destruct op; cbn [perform]; rewrite ?discard_state.
  - rewrite launch_state. destruct (resolveParams cfg); [| exact Hwf].
    by apply (wellFormed_same_maps s).
  - rewrite launch_state. destruct (resolveParams cfg); [| exact Hwf].
    by apply (wellFormed_same_maps s).
  - rewrite terminate_state. destruct (program s); [exact Hwf|].
    by apply (wellFormed_same_maps s).
  - destruct (run s) as [r|] eqn:Hr.
    + destruct (program s) as [p|] eqn:Hp.
      * rewrite (restart_program resolveParams newParams gone spawned s r p Hr Hp).
        by apply (wellFormed_same_maps s).
      * rewrite (restart_no_program resolveParams newParams gone spawned s r Hr Hp).
        apply (wellFormed_same_maps s); try done.
        cbn. intros H. congruence.
    + by rewrite (restart_idle resolveParams newParams gone spawned s Hr).
  - unfold disposeLauncher. rewrite _stopServer_state.
    by apply (wellFormed_same_maps s).
  - rewrite onProgramTerminated_state. by apply (wellFormed_same_maps s).
  - rewrite acceptSocket_eq. cbn [stateOf fst snd].
    destruct (run s) eqn:Hr; [| exact Hwf].
    apply (wellFormed_same_maps s); try done. cbn. congruence.
  - rewrite targetCreated_eq. destruct (run s) eqn:Hr; [| exact Hwf].
    destruct (walkOpeners fuel (targets s) (seenOpeners s) (openerId info)) as [living|];
      [| exact Hwf].
    cbn [stateOf fst snd]. split; [cbn; congruence|]. split.
    + intros i t. cbn [targets set_targets set_seenOpeners].
      rewrite lookup_insert. case_decide as Hi.
      * intros [= <-]. by subst.
      * apply Hid.
    + intros i info' p. cbn [targets seenOpeners set_targets set_seenOpeners].
      rewrite !lookup_insert. case_decide as Hi.
      * by intros [= <- <-].
      * apply Hseen.
  - unfold targetDisconnected, modify. cbn [stateOf fst snd].
    split; [exact Hconn|]. cbn [targets seenOpeners set_targets]. split.
    + intros j t [_ H]%lookup_delete_Some. by apply Hid.
    + intros j info p [_ H]%lookup_delete_Some. by apply (Hseen j info p).
  - unfold connectionDisconnected, modify. cbn [stateOf fst snd].
    apply (wellFormed_same_maps s); try done.
    cbn. intros Hr. rewrite (Hconn Hr). reflexivity.
  - unfold attachedToWorker, modify. cbn [stateOf fst snd].
    split; [exact Hconn|]. split.
    + intros j t. cbn [targets set_targets]. rewrite lookup_insert. case_decide as Hj.
      * intros [= <-]. exact Hj.
      * apply Hid.
    + intros j info p. cbn [targets seenOpeners set_targets]. rewrite lookup_insert.
      case_decide as Hj; [discriminate | apply Hseen].
  - unfold targetDisconnected, modify. cbn [stateOf fst snd].
    split; [exact Hconn|]. cbn [targets seenOpeners set_targets]. split.
    + intros j t [_ H]%lookup_delete_Some. by apply Hid.
    + intros j info p [_ H]%lookup_delete_Some. by apply (Hseen j info p).
Qed.

Lemma wellFormed_performAll (ops : list (Op Cfg)) (s s' : State) :
  wellFormed s -> performAll resolveParams fuel ops s = Some s' -> wellFormed s'.
Proof.
  revert s. induction ops as [|op ops IH]; intros s Hwf; cbn [performAll].
  - by intros [= <-].
  - destruct (valueOf (perform resolveParams fuel op s)); [| discriminate].
    apply IH. by apply wellFormed_perform.
Qed.

End ReachableStates.

(** X9. In every state a launcher reaches from its initial state, by any
    schedule of launches, restarts, terminations, disposals, accepted
    sockets, handshakes, disconnects and worker events: no connection is
    tracked unless a run is active; every target in the live map is filed
    under its own id; and every live process target is recorded in
    SeenOpeners with the opener it declared. *)
Theorem reachable_states_wellFormed {Cfg : Type}
    (resolveParams : Cfg -> option Launcher.Params) (fuel : nat)
    (ops : list (Launcher.Op Cfg)) (s' : Launcher.State) :
  Launcher.performAll resolveParams fuel ops Launcher.initial = Some s' ->
  (Launcher.run s' = None -> Launcher.serverConnections s' = []) /\
  (forall i t, Launcher.targets s' !! i = Some t -> Launcher.id t = i) /\
  (forall i info p,
     Launcher.targets s' !! i = Some (Launcher.NodeTarget info p) ->
     Launcher.seenOpeners s' !! i = Some (Launcher.openerId info)).
Proof.
  intros H. apply (wellFormed_performAll resolveParams fuel ops Launcher.initial s');
    [apply wellFormed_initial | exact H].
Qed.

(** After a launch, two handshakes, a worker, a disconnect, the program's
    exit and a late socket: nothing is tracked, and the surviving process
    target is recorded with its opener. *)
Lemma reachable_states_wellFormed_sample :
  exists s',
    Launcher.performAll (fun _ : unit => Some (Launcher.params Launcher.sampleRun)) 1
      Reachable.busySchedule Launcher.initial = Some s' /\
    Launcher.serverConnections s' = [] /\
    Launcher.seenOpeners s' !! "101" = Some (Some "100").
Proof.
  eexists. split; [reflexivity|].
  destruct (reachable_states_wellFormed
              (fun _ : unit => Some (Launcher.params Launcher.sampleRun)) 1
              Reachable.busySchedule _ eq_refl) as (Hc & _ & Hs).
  split; [apply Hc; reflexivity|].
  apply (Hs "101" {| Launcher.targetId := "101"; Launcher.openerId := Some "100" |}
            (Some (Launcher.NodeTarget
                     {| Launcher.targetId := "100"; Launcher.openerId := None |} None))).
  reflexivity.
Defined.

(** ** Worker targets *)

Section Workers.

Import Launcher.

(** A worker's id is longer than its parent's. *)
Lemma worker_id_fresh (p sid : string) : p +:+ "-" +:+ sid <> p.
Proof.
  intros H. apply (f_equal String.length) in H.
  rewrite !length_append in H. cbn in H. lia.
Qed.

Lemma worker_id_inj (p sid1 sid2 : string) :
  p +:+ "-" +:+ sid1 = p +:+ "-" +:+ sid2 -> sid1 = sid2.
Proof. intros H. by do 2 apply String.app_inj in H. Qed.

Lemma attachedToWorker_eq parent sid (s : State) :
  attachedToWorker parent sid s =
  (tt,
   set_targets
     (<[id parent +:+ "-" +:+ sid :=
          NodeWorkerTarget {| targetId := id parent +:+ "-" +:+ sid;
                              openerId := Some (id parent) |} parent]> (targets s)) s,
   []).
Proof. reflexivity. Qed.

End Workers.

(** X10. A worker announced by [attachedToWorker] enters the live map
    under the id [<parent id>-<session id>], with its parent as opener and
    as parent object. That id is never the parent's own, so the parent's
    entry is left as it is, and two sessions of one parent never share an
    id, so a second worker does not replace the first. SeenOpeners is not
    written: workers are not recorded there. *)
Theorem worker_ids (parent : Launcher.Target) (sid1 sid2 : string) (s : Launcher.State) :
  Launcher.targets (Launcher.stateOf (Launcher.attachedToWorker parent sid1 s))
    !! (Launcher.id parent +:+ "-" +:+ sid1)
  = Some (Launcher.NodeWorkerTarget
            {| Launcher.targetId := Launcher.id parent +:+ "-" +:+ sid1;
               Launcher.openerId := Some (Launcher.id parent) |} parent) /\
  Launcher.targets (Launcher.stateOf (Launcher.attachedToWorker parent sid1 s))
    !! Launcher.id parent
  = Launcher.targets s !! Launcher.id parent /\
  Launcher.seenOpeners (Launcher.stateOf (Launcher.attachedToWorker parent sid1 s))
  = Launcher.seenOpeners s /\
  (sid1 <> sid2 ->
   Launcher.targets
     (Launcher.stateOf
        (Launcher.attachedToWorker parent sid2
           (Launcher.stateOf (Launcher.attachedToWorker parent sid1 s))))
     !! (Launcher.id parent +:+ "-" +:+ sid1)
   = Some (Launcher.NodeWorkerTarget
             {| Launcher.targetId := Launcher.id parent +:+ "-" +:+ sid1;
                Launcher.openerId := Some (Launcher.id parent) |} parent)).
Proof.
  rewrite !attachedToWorker_eq.
  cbn [Launcher.stateOf Launcher.targets Launcher.seenOpeners Launcher.set_targets fst snd].
  split; [apply lookup_insert_eq|].
  split; [apply lookup_insert_ne, worker_id_fresh|].
  split; [reflexivity|].
  intros Hne. rewrite lookup_insert_ne; [apply lookup_insert_eq|].
  intros H. apply worker_id_inj in H. congruence.
Qed.

(** ** Spaces in the bootloader path, and what is left on disk *)

Section BootloaderPath.

Import Launcher NodeBinary Bootloader.

Variable forceForwardSlashes : string -> string.
Variable bootloaderDefaultPath : string.
Variable tmpdir : string.
Variable pathJoin : string -> string -> string.
Variable jsonStringify : string -> string.
Variable writable : string -> bool.

#[local] Abbreviation target' := (targetPath forceForwardSlashes bootloaderDefaultPath).
#[local] Abbreviation wrapper' :=
  (contents forceForwardSlashes bootloaderDefaultPath jsonStringify).
#[local] Abbreviation getFile' :=
  (getBootloaderFile forceForwardSlashes bootloaderDefaultPath tmpdir pathJoin
     jsonStringify writable).

(** [path.join] invents no spaces. *)
Hypothesis pathJoin_spaces : forall a b,
  Js.includes_space (pathJoin a b) = true ->
  Js.includes_space a = true \/ Js.includes_space b = true.

Lemma getBootloaderFile_spaces cwd has fs f fs' :
  getFile' cwd has fs = Some (f, fs') ->
  Js.includes_space (interpolatedPath f) = true ->
  (has UseSpacesInRequirePath = true /\
   interpolatedPath f = dquote +:+ target' +:+ dquote) \/
  (has UseSpacesInRequirePath = false /\ Js.includes_space tmpdir = true /\
   Js.truthy cwd = false /\ interpolatedPath f = pathJoin tmpdir bootloaderName).
Proof.
  destruct (tiers_exhaustive forceForwardSlashes bootloaderDefaultPath tmpdir cwd has)
    as [H | [[H1 H2] | [(H1 & H2 & H3) | (H1 & H2 & H3 & c & -> & Hc)]]].
  - rewrite getBootloaderFile_installed by done. intros [= <- <-]. cbn. congruence.
  - rewrite getBootloaderFile_quoted by done. intros [= <- <-]. cbn. auto.
  - rewrite getBootloaderFile_tmp by done.
    destruct (writable _); [| discriminate]. intros [= <- <-]. cbn [interpolatedPath].
    intros Hs. right. apply pathJoin_spaces in Hs as [Hs | Hs]; [| discriminate].
    destruct H3 as [H3 | H3]; [congruence | auto].
  - rewrite getBootloaderFile_near by done.
    destruct (writable _); [| discriminate]. intros [= <- <-]. discriminate.
Qed.

End BootloaderPath.

Section BootloaderDisk.

Import Launcher NodeBinary Bootloader.

Variable forceForwardSlashes : string -> string.
Variable bootloaderDefaultPath : string.
Variable tmpdir : string.
Variable pathJoin : string -> string -> string.
Variable jsonStringify : string -> string.
Variable writable : string -> bool.

Lemma getBootloaderFile_disk cwd has (fs : gmap string string) f fs' :
  getBootloaderFile forceForwardSlashes bootloaderDefaultPath tmpdir pathJoin
    jsonStringify writable cwd has fs = Some (f, fs') ->
  (fs' = fs \/
   exists p, fs' = <[p := contents forceForwardSlashes bootloaderDefaultPath jsonStringify]> fs) /\
  match dispose f with
  | Unlink p =>
      runDisposer (dispose f) fs' = delete p fs /\
      (fs !! p = None -> runDisposer (dispose f) fs' = fs)
  | NoDispose => runDisposer (dispose f) fs' = fs'
  end.
Proof.
  destruct (tiers_exhaustive forceForwardSlashes bootloaderDefaultPath tmpdir cwd has)
    as [H | [[H1 H2] | [(H1 & H2 & H3) | (H1 & H2 & H3 & c & -> & Hc)]]].
  - rewrite getBootloaderFile_installed by done. intros [= <- <-]. cbn. auto.
  - rewrite getBootloaderFile_quoted by done. intros [= <- <-]. cbn. auto.
  - rewrite getBootloaderFile_tmp by done.
    destruct (writable _); [| discriminate]. intros [= <- <-]. cbn. eauto.
  - rewrite getBootloaderFile_near by done.
    destruct (writable _); [| discriminate]. intros [= <- <-].
    cbn [dispose runDisposer]. split; [eauto|].
    split; [apply delete_insert_eq | apply delete_insert_id].
Qed.

End BootloaderDisk.

Lemma includes_space_append (a b : string) :
  Js.includes_space (a +:+ b) = Js.includes_space a || Js.includes_space b.
Proof.
  induction a as [|x a IH]; [reflexivity|].
  change (Js.includes_space (String x (a +:+ b))
          = Js.includes_space (String x a) || Js.includes_space b).
  cbn [Js.includes_space]. destruct (Ascii.eqb x " "); [reflexivity | exact IH].
Qed.

Lemma sampleJoin_spaces (a b : string) :
  Js.includes_space (Bootloader.sampleJoin a b) = true ->
  Js.includes_space a = true \/ Js.includes_space b = true.
Proof.
  unfold Bootloader.sampleJoin. rewrite !includes_space_append.
  cbn [Js.includes_space]. destruct (Js.includes_space a); cbn; auto.
Qed.

(** X11. Whenever [path.join] invents no spaces, the path
    [getBootloaderFile] returns for the preload flag contains a space in two
    cases only: it is the installed path in double quotes, for a binary with
    the spaces-in-require-path capability; or it is the wrapper in a temp
    directory whose path has a space, chosen because no working directory is
    known, for a binary without that capability. *)
Theorem bootloader_path_spaces
    (forceForwardSlashes : string -> string) (bootloaderDefaultPath tmpdir : string)
    (pathJoin : string -> string -> string) (jsonStringify : string -> string)
    (writable : string -> bool)
    (cwd : option string) (has : NodeBinary.Capability -> bool)
    (fs fs' : gmap string string) (f : Launcher.BootloaderFile) :
  (forall a b,
     Js.includes_space (pathJoin a b) = true ->
     Js.includes_space a = true \/ Js.includes_space b = true) ->
  Bootloader.getBootloaderFile forceForwardSlashes bootloaderDefaultPath tmpdir pathJoin
    jsonStringify writable cwd has fs = Some (f, fs') ->
  Js.includes_space (Launcher.interpolatedPath f) = true ->
  (has NodeBinary.UseSpacesInRequirePath = true /\
   Launcher.interpolatedPath f
   = Bootloader.dquote
       +:+ Bootloader.targetPath forceForwardSlashes bootloaderDefaultPath
       +:+ Bootloader.dquote) \/
  (has NodeBinary.UseSpacesInRequirePath = false /\
   Js.includes_space tmpdir = true /\ Js.truthy cwd = false /\
   Launcher.interpolatedPath f = pathJoin tmpdir Bootloader.bootloaderName).
Proof.
  intros Hjoin. by apply getBootloaderFile_spaces.
Qed.

(** The second case happens: an old binary, a temp directory with a space
    and no working directory give an unquoted path with a space. *)
Lemma bootloader_path_spaces_sample :
  Bootloader.oldBinary NodeBinary.UseSpacesInRequirePath = false /\
  Js.includes_space Bootloader.sampleTmp = true /\
  Js.truthy None = false /\
  "/tmp dir/vscode-js-debug-bootloader.js"
  = Bootloader.sampleJoin Bootloader.sampleTmp Bootloader.bootloaderName.
Proof.
  destruct (bootloader_path_spaces Bootloader.sampleSlashes Bootloader.sampleInstall
              Bootloader.sampleTmp Bootloader.sampleJoin Bootloader.sampleStringify
              (fun _ => true) None Bootloader.oldBinary ∅
              {[ "/tmp dir/vscode-js-debug-bootloader.js" :=
                   Bootloader.contents Bootloader.sampleSlashes Bootloader.sampleInstall
                     Bootloader.sampleStringify ]}
              {| Launcher.interpolatedPath := "/tmp dir/vscode-js-debug-bootloader.js";
                 Launcher.dispose := Launcher.NoDispose |}
              sampleJoin_spaces eq_refl eq_refl) as [[H _] | H].
  - discriminate H.
  - exact H.
Defined.

(** X12. [getBootloaderFile] writes at most one file, the wrapper, and
    leaves every other file as it is. Running the disposer it returns
    removes the file written beside the working directory: that restores the
    file system when no file of that name was there before, and deletes the
    earlier file of that name when there was one. The disposer of the other
    tiers does nothing, so a wrapper written to the temp directory stays
    there. *)
Theorem bootloader_dispose_roundtrip
    (forceForwardSlashes : string -> string) (bootloaderDefaultPath tmpdir : string)
    (pathJoin : string -> string -> string) (jsonStringify : string -> string)
    (writable : string -> bool)
    (cwd : option string) (has : NodeBinary.Capability -> bool)
    (fs fs' : gmap string string) (f : Launcher.BootloaderFile) :
  Bootloader.getBootloaderFile forceForwardSlashes bootloaderDefaultPath tmpdir pathJoin
    jsonStringify writable cwd has fs = Some (f, fs') ->
  (fs' = fs \/
   exists p,
     fs' = <[p := Bootloader.contents forceForwardSlashes bootloaderDefaultPath
                    jsonStringify]> fs) /\
  match Launcher.dispose f with
  | Launcher.Unlink p =>
      Bootloader.runDisposer (Launcher.dispose f) fs' = delete p fs /\
      (fs !! p = None -> Bootloader.runDisposer (Launcher.dispose f) fs' = fs)
  | Launcher.NoDispose => Bootloader.runDisposer (Launcher.dispose f) fs' = fs'
  end.
Proof. apply getBootloaderFile_disk. Qed.

(** The wrapper written beside [/work] and disposed: the file system is
    empty again. *)
Lemma bootloader_dispose_roundtrip_sample :
  Bootloader.runDisposer (Launcher.Unlink "/work/.vscode-js-debug-bootloader.js")
    {[ "/work/.vscode-js-debug-bootloader.js" :=
         Bootloader.contents Bootloader.sampleSlashes Bootloader.sampleInstall
           Bootloader.sampleStringify ]}
  = ∅.
Proof.
  destruct (bootloader_dispose_roundtrip Bootloader.sampleSlashes Bootloader.sampleInstall
              Bootloader.sampleTmp Bootloader.sampleJoin Bootloader.sampleStringify
              (fun _ => true) (Some "/work") Bootloader.oldBinary ∅
              {[ "/work/.vscode-js-debug-bootloader.js" :=
                   Bootloader.contents Bootloader.sampleSlashes Bootloader.sampleInstall
                     Bootloader.sampleStringify ]}
              {| Launcher.interpolatedPath := "./.vscode-js-debug-bootloader.js";
                 Launcher.dispose := Launcher.Unlink "/work/.vscode-js-debug-bootloader.js" |}
              eq_refl) as [_ [_ H]].
  apply H. reflexivity.
Defined.

(** ** The rest of the injected environment *)

(** X13. Besides [NODE_OPTIONS], [resolveEnvironment] sets
    [VSCODE_INSPECTOR_OPTIONS] to the session payload, whatever the
    configured environment held for it, and passes every variable of the
    configured environment other than the three it injects through
    unchanged. *)
Theorem resolveEnvironment_passthrough (envFile : option (gmap string string))
    (env : gmap string (option string)) (processEnv : gmap string string)
    (bootloader : Launcher.BootloaderFile) (inspectorOptions : string) :
  Bootloader.resolveEnvironment envFile env processEnv bootloader inspectorOptions
    !! "VSCODE_INSPECTOR_OPTIONS" = Some inspectorOptions /\
  (forall k,
     k <> "NODE_OPTIONS" -> k <> "VSCODE_INSPECTOR_OPTIONS" ->
     k <> "ELECTRON_RUN_AS_NODE" ->
     Bootloader.resolveEnvironment envFile env processEnv bootloader inspectorOptions !! k
     = Bootloader.getConfiguredEnvironment envFile env !! k).
Proof.
  split.
  - unfold Bootloader.resolveEnvironment. cbn zeta. rewrite lookup_merge.
    rewrite lookup_insert_ne by discriminate. by rewrite lookup_insert_eq.
  - intros k H1 H2 H3. unfold Bootloader.resolveEnvironment. cbn zeta.
    rewrite lookup_merge.
    rewrite !lookup_insert_ne by congruence.
    rewrite lookup_singleton_ne by congruence. reflexivity.
Qed.

(** ** How long the telemetry loop waits *)

Section TelemetryWait.

Import Telemetry TelemetryTiming.

Lemma backoff_pos n : (0 < backoff n)%Z.
Proof. unfold backoff. pose proof (Z.pow_pos_nonneg 2 (Z.of_nat n)). lia. Qed.

(** The delays after attempts [from, ..., from + n - 1] add up to
    [backoff from * (2 ^ n - 1)]. *)
Lemma sum_backoff from n :
  foldr Z.add 0%Z (map backoff (seq from n)) = (backoff from * (2 ^ Z.of_nat n - 1))%Z.
Proof.
  revert from. induction n as [|n IH]; intros from.
  - cbn. lia.
  - cbn [seq map foldr]. rewrite IH, backoff_S, Nat2Z.inj_succ, Z.pow_succ_r by lia. lia.
Qed.

Lemma gather_delays (polls : nat -> Poll) :
  delays (snd (gatherTelemetryFromCdp polls))
  = map backoff (seq 0 (leadingRetries polls 0 maxRetries)).
Proof.
  unfold gatherTelemetryFromCdp. rewrite gatherFrom_closed. cbn zeta.
  destruct (Nat.eqb _ _); cbn [snd].
  - apply delays_retryEvents.
  - rewrite delays_app, delays_retryEvents, delays_conclude. apply app_nil_r.
Qed.

Lemma gather_result_retries (polls : nat -> Poll) t :
  fst (gatherTelemetryFromCdp polls) = Some t ->
  leadingRetries polls 0 maxRetries < maxRetries.
Proof.
  unfold gatherTelemetryFromCdp. rewrite gatherFrom_closed. cbn zeta.
  destruct (Nat.eqb_spec (leadingRetries polls 0 maxRetries) maxRetries) as [He | Hne].
  - discriminate.
  - intros _. pose proof (leadingRetries_le polls 0 maxRetries). lia.
Qed.

End TelemetryWait.

(** X14. The time [gatherTelemetryFromCdp] spends in its delays is
    [50 * (2 ^ k - 1)] ms, [k] being the number of attempts that were
    retried: never more than 12750 ms, exactly 12750 ms when it gives up
    after 8 retried attempts (a last 6400 ms wait follows the last attempt),
    and at most 6350 ms when it returns telemetry. *)
Theorem telemetry_total_wait (polls : nat -> Telemetry.Poll) :
  TelemetryTiming.totalDelay (snd (Telemetry.gatherTelemetryFromCdp polls))
  = (50 * (2 ^ Z.of_nat (Telemetry.leadingRetries polls 0 Telemetry.maxRetries) - 1))%Z /\
  (TelemetryTiming.totalDelay (snd (Telemetry.gatherTelemetryFromCdp polls)) <= 12750)%Z /\
  (Telemetry.leadingRetries polls 0 Telemetry.maxRetries = Telemetry.maxRetries ->
   fst (Telemetry.gatherTelemetryFromCdp polls) = None /\
   TelemetryTiming.totalDelay (snd (Telemetry.gatherTelemetryFromCdp polls)) = 12750%Z /\
   last (snd (Telemetry.gatherTelemetryFromCdp polls)) = Some (Telemetry.EvDelay 6400)) /\
  (forall t, fst (Telemetry.gatherTelemetryFromCdp polls) = Some t ->
   (TelemetryTiming.totalDelay (snd (Telemetry.gatherTelemetryFromCdp polls)) <= 6350)%Z).
Proof.
  assert (Hsum : TelemetryTiming.totalDelay (snd (Telemetry.gatherTelemetryFromCdp polls))
            = (50 * (2 ^ Z.of_nat (Telemetry.leadingRetries polls 0 Telemetry.maxRetries) - 1))%Z).
  { unfold TelemetryTiming.totalDelay. rewrite gather_delays, sum_backoff.
    by rewrite backoff_0. }
  pose proof (leadingRetries_le polls 0 Telemetry.maxRetries) as Hle.
  assert (Hpow : forall k, k <= 8 ->
            (2 ^ Z.of_nat k <= 256)%Z /\ (k <= 7 -> (2 ^ Z.of_nat k <= 128)%Z)).
  { intros k Hk. do 9 (destruct k as [|k]; [cbn; lia|]). lia. }
  split; [exact Hsum|]. split; [| split].
  - rewrite Hsum. destruct (Hpow _ Hle) as [H _]. lia.
  - intros Hall. rewrite Hsum, Hall.
    unfold Telemetry.gatherTelemetryFromCdp. rewrite gatherFrom_closed. cbn zeta.
    rewrite Hall, Nat.eqb_refl. cbn [fst snd]. repeat split.
  - intros t Ht. apply gather_result_retries in Ht. rewrite Hsum.
    unfold Telemetry.maxRetries in *.
    destruct (Hpow _ Hle) as [_ H]. specialize (H ltac:(lia)). lia.
Qed.

(** A target that never defines [process] costs the full 12750 ms. *)
Lemma telemetry_total_wait_sample :
  fst (Telemetry.gatherTelemetryFromCdp Telemetry.neverDefined) = None /\
  TelemetryTiming.totalDelay (snd (Telemetry.gatherTelemetryFromCdp Telemetry.neverDefined))
  = 12750%Z /\
  last (snd (Telemetry.gatherTelemetryFromCdp Telemetry.neverDefined))
  = Some (Telemetry.EvDelay 6400).
Proof.
  exact (proj1 (proj2 (proj2 (telemetry_total_wait Telemetry.neverDefined))) eq_refl).
Defined.
